(** * Hi-Hungry: distance parsing, preference extraction, recommendation
      scoring, per-place enrichment and the place cache, embedded from the
      TypeScript sources.

    Numbers.  The sources compute with JavaScript [number]s (binary64).
    They are embedded as exact rationals [Q]: every number the modelled
    functions meet is read from JSON or parsed from a decimal literal, and
    the scores are sums of a few such values.  [NaN], [null] and
    [undefined] are the [None] of an [option]; [Infinity] appears where the
    source introduces it, in the comparator of the ranking (type [Num]).
    Rounding and overflow are not modelled, so [Number.isFinite] holds of
    every parsed number.  Results are compared with [==], the equality of
    rationals.  Times are integers, milliseconds since the epoch.

    Text is ASCII; a JavaScript object used as a map is a [gmap] of its own
    properties. *)

From Stdlib Require Import ZArith QArith Qabs Qminmax Qreduction Qround Lqa Lia Floats.
From Stdlib Require Import Ascii String List Permutation Sorted.
From stdpp Require Import gmap strings.

Import ListNotations.
Local Open Scope string_scope.

(** ** JavaScript primitives used by the sources *)

Module JS.

(** [a < b] and [a <= b] on numbers. *)
Definition ltb (a b : Q) : bool := negb (Qle_bool b a).
Definition leb (a b : Q) : bool := Qle_bool a b.
Definition gtb (a b : Q) : bool := ltb b a.
Definition geb (a b : Q) : bool := leb b a.

(** [s.toLowerCase()] on ASCII text. *)
Definition lowerChar (c : ascii) : ascii :=
  let n := nat_of_ascii c in
  if (65 <=? n)%nat && (n <=? 90)%nat then ascii_of_nat (n + 32) else c.

Fixpoint toLowerCase (s : string) : string :=
  match s with
  | EmptyString => EmptyString
  | String c r => String (lowerChar c) (toLowerCase r)
  end.

(** [s.includes(sub)] *)
Fixpoint includes (s sub : string) : bool :=
  if String.prefix sub s then true
  else match s with
       | EmptyString => false
       | String _ r => includes r sub
       end.

(** [!s] for a string: only the empty string is falsy. *)
Definition falsy (s : string) : bool :=
  match s with EmptyString => true | _ => false end.

(** [xs.join(sep)] *)
Fixpoint join (sep : string) (xs : list string) : string :=
  match xs with
  | [] => ""
  | [x] => x
  | x :: r => x ++ sep ++ join sep r
  end.

(** *** parseFloat

    [parseFloat] skips leading white space and reads the longest prefix that
    is a decimal literal: an optional sign, digits with an optional
    fraction (or a fraction alone), and an optional exponent.  [None] is
    [NaN].  The literal [Infinity] is not read: both call sites lower-case
    the text first, and the lower-cased word is not a literal. *)

Definition isWhiteSpace (c : ascii) : bool :=
  let n := nat_of_ascii c in
  (n =? 32)%nat || ((9 <=? n)%nat && (n <=? 13)%nat).

Fixpoint skipWhiteSpace (s : string) : string :=
  match s with
  | String c r => if isWhiteSpace c then skipWhiteSpace r else s
  | EmptyString => s
  end.

Definition digitOf (c : ascii) : option Z :=
  let n := nat_of_ascii c in
  if (48 <=? n)%nat && (n <=? 57)%nat then Some (Z.of_nat (n - 48)) else None.

(** Reads a run of decimal digits: its value, its length, and the rest. *)
Fixpoint takeDigits (s : string) (acc : Z) (len : nat) : Z * nat * string :=
  match s with
  | String c r =>
      match digitOf c with
      | Some d => takeDigits r (10 * acc + d)%Z (S len)
      | None => (acc, len, s)
      end
  | EmptyString => (acc, len, s)
  end.

Definition takeSign (s : string) : bool * string :=
  match s with
  | String "+" r => (false, r)
  | String "-" r => (true, r)
  | _ => (false, s)
  end.

(** The exponent part, [0] when there is none. *)
Definition takeExponent (s : string) : Z :=
  match s with
  | String c r =>
      if Ascii.eqb c "e" || Ascii.eqb c "E" then
        let '(neg, r') := takeSign r in
        let '(e, elen, _) := takeDigits r' 0 0 in
        match elen with
        | O => 0
        | _ => if neg then (- e) else e
        end
      else 0
  | EmptyString => 0
  end%Z.

Definition scale10 (mant : Z) (e : Z) : Q :=
  if (0 <=? e)%Z then inject_Z (mant * 10 ^ e)
  else Qmake mant (Z.to_pos (10 ^ (- e))).

Definition parseFloat (s : string) : option Q :=
  let '(neg, s1) := takeSign (skipWhiteSpace s) in
  let '(ip, iplen, s2) := takeDigits s1 0 0 in
  let '(mant, fplen, s3) :=
    match s2 with
    | String "." r => takeDigits r ip 0
    | _ => (ip, O, s2)
    end in
  match iplen, fplen with
  | O, O => None
  | _, _ =>
      let q := Qred (scale10 mant (takeExponent s3 - Z.of_nat fplen)) in
      Some (if neg then Qopp q else q)
  end.

End JS.

(** ** Data model shared by both pages *)

Local Open Scope Q_scope.

(** The fields of [FoodStore] that the modelled functions read.  A missing
    [cuisine], [spiceLevel] or [distance] is the empty string (the sources
    test them with [!s] or [s || ""]); [isNew] and [openNow] are the
    truthiness of [isNew] and of [openingHours?.openNow]. *)
Record FoodStore := mkFoodStore {
  id : string;
  cuisine : string;
  spiceLevel : string;
  distance : string;
  rating : option Q;
  ratingCount : option Q;
  priceLevel : option Z;
  isNew : bool;
  openNow : bool
}.

Record UserPreferences := mkUserPreferences {
  favoriteCuisines : gmap string Q;
  avgRating : Q;
  avgDistance : Q;
  preferredPriceLevels : gmap Z Q;
  preferredSpiceLevels : gmap string Q;
  totalSaved : Q
}.

(** [counts[k] || 0] *)
Definition countOf `{Countable K} (counts : gmap K Q) (k : K) : Q :=
  default 0 (counts !! k).

(** [counts[k] = (counts[k] || 0) + 1] *)
Definition bump `{Countable K} (counts : gmap K Q) (k : K) : gmap K Q :=
  <[k := countOf counts k + 1]> counts.

(** The accumulators of the loop of [extractPreferences]; [ratingSeen] and
    [distanceSeen] are its counters [ratingCount] and [distanceCount]. *)
Record Tally := mkTally {
  cuisineCounts : gmap string Q;
  priceCounts : gmap Z Q;
  spiceCounts : gmap string Q;
  totalRating : Q;
  ratingSeen : Q;
  totalDistance : Q;
  distanceSeen : Q
}.

Definition emptyTally : Tally := mkTally ∅ ∅ ∅ 0 0 0 0.

Definition emptyPreferences : UserPreferences :=
  mkUserPreferences ∅ 0 0 ∅ ∅ 0.

(** The part of the loop body that does not depend on the distance parser. *)
Definition tallyCategories (store : FoodStore) (t : Tally) : Tally :=
  let cc := if JS.falsy (cuisine store) then cuisineCounts t
            else bump (cuisineCounts t) (cuisine store) in
  let pc := match priceLevel store with
            | Some p => bump (priceCounts t) p
            | None => priceCounts t
            end in
  let sc := if JS.falsy (spiceLevel store) then spiceCounts t
            else bump (spiceCounts t) (spiceLevel store) in
  mkTally cc pc sc (totalRating t) (ratingSeen t) (totalDistance t) (distanceSeen t).

Definition tallyRating (store : FoodStore) (t : Tally) : Tally :=
  match rating store with
  | Some r =>
      if JS.gtb r 0 then
        mkTally (cuisineCounts t) (priceCounts t) (spiceCounts t)
                (totalRating t + r) (ratingSeen t + 1)
                (totalDistance t) (distanceSeen t)
      else t
  | None => t
  end.

(** [Number.isFinite] holds of every rational. *)
Definition isFinite (q : Q) : bool := true.

Definition tallyDistance (meters : option Q) (t : Tally) : Tally :=
  match meters with
  | Some m =>
      if isFinite m then
        mkTally (cuisineCounts t) (priceCounts t) (spiceCounts t)
                (totalRating t) (ratingSeen t)
                (totalDistance t + m) (distanceSeen t + 1)
      else t
  | None => t
  end.

Definition finishPreferences (saved : list FoodStore) (t : Tally) : UserPreferences :=
  mkUserPreferences
    (cuisineCounts t)
    (if JS.gtb (ratingSeen t) 0 then totalRating t / ratingSeen t else 0)
    (if JS.gtb (distanceSeen t) 0 then totalDistance t / distanceSeen t else 0)
    (priceCounts t)
    (spiceCounts t)
    (inject_Z (Z.of_nat (length saved))).

(** ** Sorting and ranking

    The comparator passed to [Array.prototype.sort] returns a number that may
    be infinite or [NaN] (the difference of two distances defaulted to
    [Infinity]). *)

Inductive Num : Type :=
  | Fin (q : Q)
  | PosInfinity
  | NegInfinity
  | NaN.

(** [a - b] *)
Definition Num_sub (a b : Num) : Num :=
  match a, b with
  | Fin x, Fin y => Fin (x - y)
  | NaN, _ | _, NaN => NaN
  | PosInfinity, PosInfinity | NegInfinity, NegInfinity => NaN
  | PosInfinity, _ | _, NegInfinity => PosInfinity
  | NegInfinity, _ | _, PosInfinity => NegInfinity
  end.

(** [v > 0]; the sort reads a [NaN] result as [+0]. *)
Definition Num_positive (v : Num) : bool :=
  match v with
  | Fin q => JS.gtb q 0
  | PosInfinity => true
  | NegInfinity | NaN => false
  end.

(** [d ?? Infinity] *)
Definition orInfinity (d : option Q) : Num :=
  match d with
  | Some q => Fin q
  | None => PosInfinity
  end.

Record Scored := mkScored {
  restaurant : FoodStore;
  score : Q
}.

(** A computation that reads and updates a state of type [S]: the distance
    cache of the recommendations page, nothing on the main page. *)
Definition Stateful (S A : Type) : Type := S -> A * S.

Definition ret {S A} (a : A) : Stateful S A := fun s => (a, s).

Definition bind {S A B} (m : Stateful S A) (k : A -> Stateful S B) : Stateful S B :=
  fun s => let '(a, s') := m s in k a s'.

Notation "'do' x <- m ; k" := (bind m (fun x => k))
  (at level 10, x pattern, m at level 100, k at level 200).

Fixpoint mapM {S A B} (f : A -> Stateful S B) (l : list A) : Stateful S (list B) :=
  match l with
  | [] => ret []
  | x :: r => do y <- f x; do ys <- mapM f r; ret (y :: ys)
  end.

Fixpoint foldM {S A B} (f : B -> A -> Stateful S B) (l : list A) (b : B) : Stateful S B :=
  match l with
  | [] => ret b
  | x :: r => do b' <- f b x; foldM f r b'
  end.

(** [Array.prototype.sort(comparefn)] is the engine's, not the repository's.
    It is taken to be a stable insertion sort: each element in turn is placed
    before the first already placed element that [comparefn] puts after it
    (result [> 0]). *)
Section Sort.
Context {S A : Type}.
Variable comparefn : A -> A -> Stateful S Num.

Fixpoint insertSorted (x : A) (placed : list A) : Stateful S (list A) :=
  match placed with
  | [] => ret [x]
  | y :: r =>
      do c <- comparefn y x;
      if Num_positive c then ret (x :: y :: r)
      else do r' <- insertSorted x r; ret (y :: r')
  end.

Definition sort (l : list A) : Stateful S (list A) :=
  foldM (fun placed x => insertSorted x placed) l [].
End Sort.

(** [arr.slice(0, n)] *)
Definition slice0 {A} (n : nat) (l : list A) : list A := firstn n l.

(** ** The main page (swipe deck with its recommendations tab) *)

Module MainPage.

(** Miles first, then kilometres, then bare metres. *)
Definition parseDistanceToMeters (distance : string) : option Q :=
  if JS.falsy distance then None
  else
    let lower := JS.toLowerCase distance in
    match JS.parseFloat lower with
    | None => None
    | Some num =>
        if JS.includes lower "mi" || JS.includes lower "mile" then Some (num * 1609.34)
        else if JS.includes lower "km" then Some (num * 1000)
        else if JS.includes lower "m" && negb (JS.includes lower "mile") then Some num
        else None
    end.

Definition extractPreferences (saved : list FoodStore) : UserPreferences :=
  match saved with
  | [] => emptyPreferences
  | _ =>
      finishPreferences saved
        (fold_left
           (fun t store =>
              tallyDistance (parseDistanceToMeters (distance store))
                (tallyRating store (tallyCategories store t)))
           saved emptyTally)
  end.

(** Each block of [scoreRecommendation] takes the running [score] and
    returns the updated one. *)

Definition cuisineMatch (restaurant : FoodStore) (preferences : UserPreferences)
    (score : Q) : Q :=
  let cuisineCount := countOf (favoriteCuisines preferences) (cuisine restaurant) in
  if JS.gtb cuisineCount 0 then
    score + (if JS.geb cuisineCount 3 then 25 else cuisineCount * 8)
  else if JS.gtb (totalSaved preferences) 0 then score - 2
  else score.

Definition ratingAlignment (rating : Q) (preferences : UserPreferences) (score : Q) : Q :=
  let avgRating := avgRating preferences in
  if JS.gtb avgRating 0 then
    let ratingDiff := Qabs (rating - avgRating) in
    let score := score + (if JS.ltb ratingDiff 0.5 then 20
                          else if JS.ltb ratingDiff 1.0 then 12 else 5) in
    if JS.geb avgRating 4.0 && JS.geb rating 4.5 then score + 8 else score
  else score + rating * 3.

Definition socialProof (restaurant : FoodStore) (score : Q) : Q :=
  match ratingCount restaurant with
  | Some ratingCount =>
      if negb (Qeq_bool ratingCount 0) && JS.gtb ratingCount 100
      then score + Qmin (ratingCount / 300) 3
      else score
  | None => score
  end.

Definition ratingScoring (restaurant : FoodStore) (preferences : UserPreferences)
    (score : Q) : Q :=
  match rating restaurant with
  | Some rating =>
      if JS.gtb rating 0
      then socialProof restaurant (ratingAlignment rating preferences score)
      else score
  | None => score
  end.

Definition distanceAlignment (meters : Q) (preferences : UserPreferences) (score : Q) : Q :=
  let avgDistance := avgDistance preferences in
  if JS.gtb avgDistance 0 then
    let distanceDiff := Qabs (meters - avgDistance) in
    let score := score + (if JS.ltb distanceDiff 500 then 15
                          else if JS.ltb distanceDiff 1000 then 10 else 0) in
    if JS.ltb avgDistance 1000 && JS.ltb meters 1500 then score + 12 else score
  else score.

Definition proximityBands (meters : Q) (score : Q) : Q :=
  if JS.ltb meters 500 then score + 10
  else if JS.ltb meters 1000 then score + 7
  else if JS.ltb meters 2000 then score + 4
  else if JS.ltb meters 5000 then score + 1
  else score.

Definition distanceScoring (meters : option Q) (preferences : UserPreferences)
    (score : Q) : Q :=
  match meters with
  | Some meters =>
      if isFinite meters && JS.gtb meters 0
      then proximityBands meters (distanceAlignment meters preferences score)
      else score
  | None => score
  end.

Definition priceLevelScoring (restaurant : FoodStore) (preferences : UserPreferences)
    (score : Q) : Q :=
  match priceLevel restaurant with
  | Some priceLevel =>
      let priceCount := countOf (preferredPriceLevels preferences) priceLevel in
      score + (if JS.gtb priceCount 0 then priceCount * 5 else -1)
  | None => score
  end.

Definition spiceLevelScoring (restaurant : FoodStore) (preferences : UserPreferences)
    (score : Q) : Q :=
  let spiceCount := countOf (preferredSpiceLevels preferences) (spiceLevel restaurant) in
  if JS.gtb spiceCount 0 then score + spiceCount * 3 else score.

Definition diversityBonus (restaurant : FoodStore) (preferences : UserPreferences)
    (score : Q) : Q :=
  let cuisineCount := countOf (favoriteCuisines preferences) (cuisine restaurant) in
  if JS.geb (totalSaved preferences) 5 && Qeq_bool cuisineCount 0
  then score + 2 else score.

Definition qualityIndicators (restaurant : FoodStore) (score : Q) : Q :=
  let score := if isNew restaurant then score + 3 else score in
  if openNow restaurant then score + 5 else score.

(** [metersCache] is [None] when the argument is omitted or [null]. *)
Definition scoreRecommendation (restaurant : FoodStore) (preferences : UserPreferences)
    (metersCache : option Q) : Q :=
  let score := 0 in
  let meters := match metersCache with
                | Some m => Some m
                | None => parseDistanceToMeters (distance restaurant)
                end in
  let score := cuisineMatch restaurant preferences score in
  let score := ratingScoring restaurant preferences score in
  let score := distanceScoring meters preferences score in
  let score := priceLevelScoring restaurant preferences score in
  let score := spiceLevelScoring restaurant preferences score in
  let score := diversityBonus restaurant preferences score in
  qualityIndicators restaurant score.

(** The comparator of [scored.sort]. *)
Definition compareScored (a b : Scored) : Num :=
  let scoreDiff := score b - score a in
  if JS.gtb (Qabs scoreDiff) 0.1 then Fin scoreDiff
  else
    let ratingA := default 0 (rating (restaurant a)) in
    let ratingB := default 0 (rating (restaurant b)) in
    if negb (Qeq_bool ratingB ratingA) then Fin (ratingB - ratingA)
    else
      let distA := orInfinity (parseDistanceToMeters (distance (restaurant a))) in
      let distB := orInfinity (parseDistanceToMeters (distance (restaurant b))) in
      Num_sub distA distB.

(** [fetchRecommendations] after the response has arrived: [userLocation]
    tells whether a location is known, [allRestaurants] is the list in the
    response.  The result is the list handed to [setRecommendations], [None]
    when the function reports an error and leaves the list as it was. *)
Definition fetchRecommendations (userLocation : bool)
    (saved allRestaurants : list FoodStore) : option (list Scored) :=
  let preferences := extractPreferences saved in
  if negb userLocation || (length saved =? 0)%nat then Some []
  else
    let savedIds : gset string := list_to_set (map id saved) in
    let newRestaurants := filter (fun r => id r ∉ savedIds) allRestaurants in
    if (length newRestaurants =? 0)%nat then None
    else
      let restaurantsWithDistance :=
        map (fun restaurant =>
               (restaurant, parseDistanceToMeters (distance restaurant)))
            newRestaurants in
      let scored :=
        map (fun '(restaurant, meters) =>
               mkScored restaurant (scoreRecommendation restaurant preferences meters))
            restaurantsWithDistance in
      let sorted := fst (sort (fun a b => ret (compareScored a b)) scored tt) in
      Some (slice0 20 sorted).

End MainPage.

(** ** The recommendations page *)

Module RecsPage.

(** The module-level [distanceCache]. *)
Abbreviation DistanceCache := (gmap string (option Q)).

(** Kilometres, then bare metres; memoised on the text as given. *)
Definition parseDistanceToMeters (distance : string)
  : Stateful DistanceCache (option Q) :=
  fun distanceCache =>
    if JS.falsy distance then (None, distanceCache)
    else
      match distanceCache !! distance with
      | Some cached => (cached, distanceCache)
      | None =>
          let lower := JS.toLowerCase distance in
          match JS.parseFloat lower with
          | None => (None, <[distance := None]> distanceCache)
          | Some num =>
              let result :=
                if JS.includes lower "km" then Some (num * 1000)
                else if JS.includes lower "m" then Some num
                else None in
              (result, <[distance := result]> distanceCache)
          end
      end.

Definition extractPreferences (saved : list FoodStore)
  : Stateful DistanceCache UserPreferences :=
  match saved with
  | [] => ret emptyPreferences
  | _ =>
      do t <- foldM
                (fun t store =>
                   let t := tallyRating store (tallyCategories store t) in
                   do meters <- parseDistanceToMeters (distance store);
                   ret (tallyDistance meters t))
                saved emptyTally;
      ret (finishPreferences saved t)
  end.

Definition cuisineMatch (restaurant : FoodStore) (preferences : UserPreferences)
    (score : Q) : Q :=
  let cuisineCount := countOf (favoriteCuisines preferences) (cuisine restaurant) in
  if JS.gtb cuisineCount 0 then
    let cuisineWeight := if JS.geb cuisineCount 3 then 25 else cuisineCount * 8 in
    score + cuisineWeight
  else if JS.gtb (totalSaved preferences) 0 then score - 2
  else score.

Definition ratingAlignment (rating : Q) (preferences : UserPreferences) (score : Q) : Q :=
  if JS.gtb (avgRating preferences) 0 then
    let ratingDiff := Qabs (rating - avgRating preferences) in
    let score :=
      if JS.ltb ratingDiff 0.5 then score + 20
      else if JS.ltb ratingDiff 1.0 then score + 12
      else score + 5 in
    if JS.geb (avgRating preferences) 4.0 && JS.geb rating 4.5 then score + 8
    else score
  else score + rating * 3.

Definition socialProof (restaurant : FoodStore) (score : Q) : Q :=
  match ratingCount restaurant with
  | Some ratingCount =>
      if negb (Qeq_bool ratingCount 0) && JS.gtb ratingCount 100
      then score + Qmin (ratingCount / 300) 3
      else score
  | None => score
  end.

Definition ratingScoring (restaurant : FoodStore) (preferences : UserPreferences)
    (score : Q) : Q :=
  match rating restaurant with
  | Some rating =>
      if JS.gtb rating 0
      then socialProof restaurant (ratingAlignment rating preferences score)
      else score
  | None => score
  end.

Definition distanceAlignment (meters : Q) (preferences : UserPreferences) (score : Q) : Q :=
  if JS.gtb (avgDistance preferences) 0 then
    let distanceDiff := Qabs (meters - avgDistance preferences) in
    let score :=
      if JS.ltb distanceDiff 500 then score + 15
      else if JS.ltb distanceDiff 1000 then score + 10
      else score in
    if JS.ltb (avgDistance preferences) 1000 && JS.ltb meters 1500 then score + 12
    else score
  else score.

Definition proximityBands (meters : Q) (score : Q) : Q :=
  if JS.ltb meters 500 then score + 10
  else if JS.ltb meters 1000 then score + 7
  else if JS.ltb meters 2000 then score + 4
  else if JS.ltb meters 5000 then score + 1
  else score.

Definition distanceScoring (meters : option Q) (preferences : UserPreferences)
    (score : Q) : Q :=
  match meters with
  | Some meters =>
      if isFinite meters && JS.gtb meters 0
      then proximityBands meters (distanceAlignment meters preferences score)
      else score
  | None => score
  end.

Definition priceLevelScoring (restaurant : FoodStore) (preferences : UserPreferences)
    (score : Q) : Q :=
  match priceLevel restaurant with
  | Some priceLevel =>
      let priceCount := countOf (preferredPriceLevels preferences) priceLevel in
      if JS.gtb priceCount 0 then score + priceCount * 5 else score - 1
  | None => score
  end.

Definition spiceLevelScoring (restaurant : FoodStore) (preferences : UserPreferences)
    (score : Q) : Q :=
  let spiceCount := countOf (preferredSpiceLevels preferences) (spiceLevel restaurant) in
  if JS.gtb spiceCount 0 then score + spiceCount * 3 else score.

Definition diversityBonus (restaurant : FoodStore) (preferences : UserPreferences)
    (score : Q) : Q :=
  let cuisineCount := countOf (favoriteCuisines preferences) (cuisine restaurant) in
  if JS.geb (totalSaved preferences) 5 && Qeq_bool cuisineCount 0
  then score + 2 else score.

Definition qualityIndicators (restaurant : FoodStore) (score : Q) : Q :=
  let score := if isNew restaurant then score + 3 else score in
  if openNow restaurant then score + 5 else score.

Definition scoreRecommendation (restaurant : FoodStore) (preferences : UserPreferences)
  : Stateful DistanceCache Q :=
  let score := 0 in
  let score := cuisineMatch restaurant preferences score in
  let score := ratingScoring restaurant preferences score in
  do meters <- parseDistanceToMeters (distance restaurant);
  let score := distanceScoring meters preferences score in
  let score := priceLevelScoring restaurant preferences score in
  let score := spiceLevelScoring restaurant preferences score in
  let score := diversityBonus restaurant preferences score in
  ret (qualityIndicators restaurant score).

Definition compareScored (a b : Scored) : Stateful DistanceCache Num :=
  let scoreDiff := score b - score a in
  if JS.gtb (Qabs scoreDiff) 0.1 then ret (Fin scoreDiff)
  else
    let ratingA := default 0 (rating (restaurant a)) in
    let ratingB := default 0 (rating (restaurant b)) in
    if negb (Qeq_bool ratingB ratingA) then ret (Fin (ratingB - ratingA))
    else
      do distA <- parseDistanceToMeters (distance (restaurant a));
      do distB <- parseDistanceToMeters (distance (restaurant b));
      ret (Num_sub (orInfinity distA) (orInfinity distB)).

(** [preferences] is the memo of [extractPreferences(saved)] taken when the
    page renders, before the fetch. *)
Definition fetchRecommendations (userLocation : bool)
    (saved allRestaurants : list FoodStore)
  : Stateful DistanceCache (option (list Scored)) :=
  do preferences <- extractPreferences saved;
  if negb userLocation || (length saved =? 0)%nat then ret None
  else
    let savedIds : gset string := list_to_set (map id saved) in
    let newRestaurants := filter (fun r => id r ∉ savedIds) allRestaurants in
    if (length newRestaurants =? 0)%nat then ret None
    else
      do scored <- mapM (fun restaurant =>
                           do score <- scoreRecommendation restaurant preferences;
                           ret (mkScored restaurant score))
                        newRestaurants;
      do sorted <- sort compareScored scored;
      ret (Some (slice0 20 sorted)).

End RecsPage.

(** ** The restaurants endpoint: per-place enrichment and the place cache *)

Module Api.

Record PhotoRef := mkPhotoRef {
  photo_reference : string;
  photo_width : option Q;
  photo_height : option Q;
  html_attributions : option (list string)
}.

Record GalleryEntry := mkGalleryEntry {
  entry_id : string;
  image_base64 : string;
  attribution : option string;
  width : option Q;
  height : option Q
}.

(** Opening hours and reviews as stored and as the provider sends them. *)
Record OpeningHoursRaw := mkOpeningHoursRaw {
  weekday_text : option (list string);
  open_now : option bool
}.

Record ReviewRaw := mkReviewRaw {
  author_name : string;
  review_rating : Q;
  text : string;
  time : Z
}.

(** Opening hours and reviews as returned to the caller. *)
Record OpeningHours := mkOpeningHours {
  weekdayText : option (list string);
  openNowFlag : option bool
}.

Record Review := mkReview {
  authorName : string;
  reviewRating : Q;
  reviewText : string;
  reviewTime : Z
}.

Record PlaceDetails := mkPlaceDetails {
  cover : string;
  gallery : list string;
  description : option string;
  phone : option string;
  website : option string;
  internationalPhone : option string;
  openingHours : option OpeningHours;
  reviews : option (list Review);
  businessStatus : option string
}.

(** A row of the [places] table.  Times are milliseconds since the epoch. *)
Record PlaceRow := mkPlaceRow {
  source : string;
  source_place_id : string;
  row_name : string;
  formatted_address : option string;
  row_lat : Q;
  row_lon : Q;
  primary_type : string;
  type_tags : option string;
  row_rating : option Q;
  rating_count : option Q;
  price_level : option Q;
  row_phone : option string;
  website_url : option string;
  international_phone_number : option string;
  map_url : string;
  google_photo_reference : option string;
  cover_image_base64 : option string;
  photo_gallery : option (list GalleryEntry);
  has_photos : bool;
  opening_hours : option OpeningHoursRaw;
  row_reviews : option (list ReviewRaw);
  business_status : option string;
  raw_payload : option (option string);
  last_updated_at : option Z;
  expires_at : option Z
}.

(** The columns written by the update of a place whose photos are cached. *)
Record PlacePatch := mkPlacePatch {
  patch_phone : option string;
  patch_website_url : option string;
  patch_international_phone_number : option string;
  patch_opening_hours : option OpeningHoursRaw;
  patch_reviews : option (list ReviewRaw);
  patch_business_status : option string;
  patch_raw_payload : option (option string);
  patch_last_updated_at : Z;
  patch_expires_at : Z
}.

Record PhotoRow := mkPhotoRow {
  place_id : string;
  source_photo_id : string;
  photo_image_base64 : string;
  photo_attribution : option string;
  row_width : option Q;
  row_height : option Q;
  is_primary : bool
}.

(** The [result] of a place-details response. *)
Record DetailsResult := mkDetailsResult {
  editorial_overview : option string;
  details_reviews : option (list ReviewRaw);
  formatted_phone_number : option string;
  details_international_phone_number : option string;
  details_website : option string;
  details_opening_hours : option OpeningHoursRaw;
  details_business_status : option string;
  details_photos : option (list PhotoRef)
}.

Inductive DetailsResponse :=
  | DetailsThrew
  | DetailsNotOk
  | DetailsOk (result : option DetailsResult).

(** What [fetch] of a photo URL does: it rejects, it is aborted by the
    10 s timer, or it answers. *)
Inductive PhotoResponse :=
  | PhotoRejected (message : string)
  | PhotoAborted
  | PhotoAnswered (ok : bool) (status : string) (contentType : option string)
      (base64 : string).

(** Everything the function does to the outside, in order. *)
Inductive Event :=
  | ConsoleError (message : string)
  | ConsoleLog (message : string)
  | ClockRead (t : Z)
  | DbSelectPlace (placeId : string)
  | FetchPlaceDetails (placeId : string)
  | FetchPhoto (photoReference : string) (maxWidth : Z)
  | Sleep (ms : Z)
  | DbUpdatePlace (rowId : string) (patch : PlacePatch)
  | DbUpsertPlace (row : PlaceRow)
  | DbUpsertPhoto (row : PhotoRow).

Abbreviation Trace := (list Event).

(** The collaborators: each answer may depend on what happened before. *)
Record World := mkWorld {
  GOOGLE_PLACES_API_KEY : option string;
  clock : Trace -> Z;
  selectPlace : Trace -> string -> option (string * PlaceRow) * option string;
  placeDetailsResponse : Trace -> string -> DetailsResponse;
  photoResponse : Trace -> string -> PhotoResponse;
  upsertPlaceResult : Trace -> PlaceRow -> option string * option string;
  upsertPhotoError : Trace -> PhotoRow -> option string
}.

Definition emit (e : Event) : Stateful Trace unit :=
  fun h => (tt, (h ++ [e])%list).

(** Asks the world, then records the call. *)
Definition call {A} (answer : Trace -> A) (e : Event) : Stateful Trace A :=
  fun h => (answer h, (h ++ [e])%list).

(** [Date.now()] and [new Date()] *)
Definition readClock (w : World) : Stateful Trace Z :=
  fun h => let t := clock w h in (t, (h ++ [ClockRead t])%list).

Definition truthy (s : option string) : bool :=
  match s with
  | Some s => negb (JS.falsy s)
  | None => false
  end.

Definition isSome {A} (o : option A) : bool :=
  match o with Some _ => true | None => false end.

(** [a ?? b] and [a || b] on optional strings. *)
Definition orElse {A} (a b : option A) : option A :=
  match a with Some _ => a | None => b end.

Definition orIfFalsy (a b : option string) : option string :=
  if truthy a then a else b.

Definition getCuisineFallbackImageFromTypes (types : option (list string)) : string :=
  let joined := JS.toLowerCase (JS.join "," (default [] types)) in
  if JS.includes joined "mexican" then
    "https://images.unsplash.com/photo-1617196034796-73dfa7b1fd56?auto=format&fit=crop&w=900&q=80"
  else if JS.includes joined "sushi" || JS.includes joined "japanese" then
    "https://images.unsplash.com/photo-1546069901-ba9599a7e63c?auto=format&fit=crop&w=900&q=80"
  else if JS.includes joined "chinese" then
    "https://images.unsplash.com/photo-1513104890138-7c749659a591?auto=format&fit=crop&w=900&q=80"
  else if JS.includes joined "indian" then
    "https://images.unsplash.com/photo-1565557623262-b51c2513a641?auto=format&fit=crop&w=900&q=80"
  else if JS.includes joined "pizza" || JS.includes joined "italian" then
    "https://images.unsplash.com/photo-1513104890138-7c749659a591?auto=format&fit=crop&w=900&q=80"
  else if JS.includes joined "burger" then
    "https://images.unsplash.com/photo-1550547660-d9450f859349?auto=format&fit=crop&w=900&q=80"
  else
    "https://images.unsplash.com/photo-1521017432531-fbd92d768814?auto=format&fit=crop&w=900&q=80".

(** The data URL, or the message of the error thrown. *)
Definition fetchGooglePhotoDataUrl (w : World) (photoReference apiKey : string)
    (maxWidth : Z) : Stateful Trace (string + string) :=
  do res <- call (fun h => photoResponse w h photoReference)
                 (FetchPhoto photoReference maxWidth);
  match res with
  | PhotoAnswered true _ contentType buffer =>
      let contentType := default "image/jpeg" (orIfFalsy contentType None) in
      ret (inr ("data:" ++ contentType ++ ";base64," ++ buffer))
  | PhotoAnswered false status _ _ =>
      ret (inl ("Photo fetch failed: " ++ status))
  | PhotoAborted => ret (inl "Photo fetch timeout after 10 seconds")
  | PhotoRejected message => ret (inl message)
  end.

Record Params := mkParams {
  placeId : string;
  name : string;
  lat : Q;
  lon : Q;
  formattedAddress : option string;
  primaryType : option string;
  types : option (list string);
  rating : option Q;
  ratingCount : option Q;
  priceLevel : option Q;
  photos : option (list PhotoRef)
}.

(** The local [placeDetails] object filled from the details response. *)
Record Details := mkDetails {
  d_description : option string;
  d_phone : option string;
  d_website : option string;
  d_internationalPhone : option string;
  d_openingHours : option OpeningHoursRaw;
  d_reviews : option (list ReviewRaw);
  d_businessStatus : option string
}.

Definition noDetails : Details := mkDetails None None None None None None None.

Definition toOpeningHours (o : OpeningHoursRaw) : OpeningHours :=
  mkOpeningHours (weekday_text o) (open_now o).

Definition toReview (r : ReviewRaw) : Review :=
  mkReview (author_name r) (review_rating r) (text r) (time r).

(** 30 days in milliseconds, and the milliseconds of a day. *)
Definition TTL_MS : Z := 30 * 24 * 60 * 60 * 1000.
Definition MS_PER_DAY : Q := 1000 * 60 * 60 * 24.

(** [expires_at ? new Date(expires_at) > now : cacheAge < 30], where
    [cacheAge] is infinite without [last_updated_at]. *)
Definition isCacheValid (existing : option (string * PlaceRow)) (now : Z) : bool :=
  match existing with
  | None => false
  | Some (_, row) =>
      match expires_at row with
      | Some e => (now <? e)%Z
      | None =>
          match last_updated_at row with
          | Some lu => JS.ltb (inject_Z (now - lu) / MS_PER_DAY) 30
          | None => false
          end
      end
  end.

(** [gallery.map(e => e.image_base64).filter(Boolean).slice(0, 4)] *)
Definition galleryUrls (cachedGallery : list GalleryEntry) : list string :=
  slice0 4 (List.filter (fun u => negb (JS.falsy u)) (map image_base64 cachedGallery)).

(** [all.length > 1 ? all.slice(1, 4) : []] *)
Definition withoutCover (allUrls : list string) : list string :=
  if (1 <? length allUrls)%nat then slice0 3 (tail allUrls) else [].

Definition rowDescription (row : PlaceRow) : option string :=
  match raw_payload row with
  | Some d => d
  | None => None
  end.

(** The answer built from the cached row alone. *)
Definition cachedAnswer (row : PlaceRow) (coverUrl : string) (urls : list string)
  : PlaceDetails :=
  mkPlaceDetails coverUrl urls
    (rowDescription row)
    (row_phone row)
    (website_url row)
    (international_phone_number row)
    (toOpeningHours <$> opening_hours row)
    (map toReview <$> row_reviews row)
    (business_status row).

(** The answer built from the details fetched in this call. *)
Definition freshAnswer (coverUrl : string) (urls : list string) (d : Details)
  : PlaceDetails :=
  mkPlaceDetails coverUrl urls
    (d_description d) (d_phone d) (d_website d) (d_internationalPhone d)
    (toOpeningHours <$> d_openingHours d)
    (map toReview <$> d_reviews d)
    (d_businessStatus d).

(** The details call and what it leaves in [placeDetails] and [photos]. *)
Definition fetchDetails (w : World) (placeId : string)
    (photos : option (list PhotoRef))
  : Stateful Trace (Details * option (list PhotoRef)) :=
  do res <- call (fun h => placeDetailsResponse w h placeId) (FetchPlaceDetails placeId);
  match res with
  | DetailsNotOk => ret (noDetails, photos)
  | DetailsThrew | DetailsOk None =>
      do _ <- emit (ConsoleError "Error fetching place details");
      ret (noDetails, photos)
  | DetailsOk (Some result) =>
      let description :=
        if truthy (editorial_overview result) then editorial_overview result
        else match details_reviews result with
             | Some (r :: _) =>
                 if JS.falsy (text r) then None
                 else Some (substring 0 200 (text r)
                            ++ (if (200 <? String.length (text r))%nat then "..." else ""))
             | _ => None
             end in
      let reviews :=
        match details_reviews result with
        | Some (r :: rs) => Some (slice0 5 (r :: rs))
        | _ => None
        end in
      let photos :=
        match details_photos result with
        | Some (p :: ps) =>
            if (length (default [] photos) =? 0)%nat then Some (p :: ps)
            else if (length (default [] photos) <? length (p :: ps))%nat then Some (p :: ps)
            else photos
        | _ => photos
        end in
      ret (mkDetails description
             (formatted_phone_number result)
             (details_website result)
             (details_international_phone_number result)
             (details_opening_hours result)
             reviews
             (details_business_status result),
           photos)
  end.

(** The row of both upserts; they differ in the photo columns. *)
Definition placeRow (p : Params) (d : Details) (photoReference cover : option string)
    (entries : list GalleryEntry) (hasPhotos : bool) (updated expires : Z) : PlaceRow :=
  mkPlaceRow "google" (placeId p) (name p) (formattedAddress p) (lat p) (lon p)
    (default "restaurant" (primaryType p))
    (JS.join "," <$> types p)
    (rating p) (ratingCount p) (priceLevel p)
    (d_phone d) (d_website d) (d_internationalPhone d)
    ("https://www.google.com/maps/place/?q=place_id:" ++ placeId p)
    photoReference cover (Some entries) hasPhotos
    (d_openingHours d) (d_reviews d) (d_businessStatus d)
    (if truthy (d_description d) then Some (d_description d) else None)
    (Some updated) (Some expires).

(** One photo with its [retries] attempts: the fetched entry, or [None]
    when every attempt has thrown. *)
Fixpoint fetchPhotoWithRetries (w : World) (apiKey : string)
    (photo : PhotoRef) (retries : nat) : Stateful Trace (option GalleryEntry) :=
  match retries with
  | O => ret None
  | S retries' =>
      do res <- fetchGooglePhotoDataUrl w (photo_reference photo) apiKey 900;
      match res with
      | inr dataUrl =>
          ret (Some (mkGalleryEntry (photo_reference photo) dataUrl
                       (JS.join " " <$> html_attributions photo)
                       (photo_width photo) (photo_height photo)))
      | inl _ =>
          match retries' with
          | O =>
              do _ <- emit (ConsoleError "Unable to fetch photo after retries");
              ret None
          | S _ =>
              do _ <- emit (Sleep 100);
              fetchPhotoWithRetries w apiKey photo retries'
          end
      end
  end.

(** The loop over the first [maxPhotos] references. *)
Fixpoint fetchPhotos (w : World) (apiKey : string)
    (photoRefs : list PhotoRef) (galleryEntries : list GalleryEntry)
  : Stateful Trace (list GalleryEntry) :=
  match photoRefs with
  | [] => ret galleryEntries
  | photo :: rest =>
      if JS.falsy (photo_reference photo) then
        fetchPhotos w apiKey rest galleryEntries
      else
        do fetched <- fetchPhotoWithRetries w apiKey photo 2;
        let galleryEntries :=
          match fetched with
          | Some entry => (galleryEntries ++ [entry])%list
          | None => galleryEntries
          end in
        fetchPhotos w apiKey rest galleryEntries
  end.

(** The per-photo rows written after the place row. *)
Fixpoint upsertPhotos (w : World) (placeIdDb : string) (index : nat)
    (entries : list GalleryEntry) : Stateful Trace unit :=
  match entries with
  | [] => ret tt
  | entry :: rest =>
      let row := mkPhotoRow placeIdDb (entry_id entry) (image_base64 entry)
                   (attribution entry) (width entry) (height entry)
                   (index =? 0)%nat in
      do photoErr <- call (fun h => upsertPhotoError w h row) (DbUpsertPhoto row);
      do _ <- (if isSome photoErr
               then emit (ConsoleError "Supabase upsert error (place_photos)")
               else ret tt);
      upsertPhotos w placeIdDb (S index) rest
  end.

(** The update issued when the photos are cached and new details arrived. *)
Definition updateCachedPlace (w : World) (rowId : string) (row : PlaceRow)
    (d : Details) : Stateful Trace unit :=
  do updated <- readClock w;
  do later <- readClock w;
  let patch :=
    mkPlacePatch
      (orElse (d_phone d) (row_phone row))
      (orElse (d_website d) (website_url row))
      (orElse (d_internationalPhone d) (international_phone_number row))
      (orElse (d_openingHours d) (opening_hours row))
      (orElse (d_reviews d) (row_reviews row))
      (orElse (d_businessStatus d) (business_status row))
      (if truthy (d_description d) then Some (d_description d) else raw_payload row)
      updated (later + TTL_MS)%Z in
  do _ <- call (fun _ => tt) (DbUpdatePlace rowId patch);
  ret tt.

(** Lines 442-491: no photo reference at all; the place is stored without
    photos and answered with the fallback image. *)
Definition storeWithoutPhotos (w : World) (params : Params) (fallback : string)
    (placeDetails : Details) : Stateful Trace PlaceDetails :=
  do updated <- readClock w;
  do later <- readClock w;
  let row := placeRow params placeDetails None None [] false
               updated (later + TTL_MS)%Z in
  do _ <- call (fun h => upsertPlaceResult w h row) (DbUpsertPlace row);
  ret (freshAnswer fallback [] placeDetails).

(** Lines 493-640: fetch up to four photos, store the place and its photos,
    answer with the first photo as cover and the others as gallery. *)
Definition fetchAndStorePhotos (w : World) (params : Params) (apiKey fallback : string)
    (placeDetails : Details) (photoRefs : list PhotoRef)
  : Stateful Trace PlaceDetails :=
  let maxPhotos := Nat.min 4 (length photoRefs) in
  do galleryEntries <- fetchPhotos w apiKey (slice0 maxPhotos photoRefs) [];
  do _ <- emit (ConsoleLog "[PHOTOS] Fetched photos");
  match galleryEntries with
  | [] => ret (freshAnswer fallback [] placeDetails)
  | first :: _ =>
      let coverDataUrl := image_base64 first in
      let galleryWithoutCover :=
        List.filter (fun u => negb (JS.falsy u))
          (map image_base64 (slice0 3 (tail galleryEntries))) in
      do updated <- readClock w;
      do later <- readClock w;
      let row := placeRow params placeDetails (Some (entry_id first))
                   (Some coverDataUrl) galleryEntries true
                   updated (later + TTL_MS)%Z in
      do upserted <- call (fun h => upsertPlaceResult w h row) (DbUpsertPlace row);
      let placeIdDb := fst upserted in
      let upsertErr := snd upserted in
      do _ <- (if isSome upsertErr
               then emit (ConsoleError "Supabase upsert error (places)")
               else ret tt);
      do _ <- match orIfFalsy placeIdDb None with
              | Some placeIdDb => upsertPhotos w placeIdDb 0 galleryEntries
              | None => ret tt
              end;
      ret (freshAnswer coverDataUrl galleryWithoutCover placeDetails)
  end.

(** Lines 226-273: a valid cached cover answers at once. *)
Definition answerFromCache (existing : option (string * PlaceRow))
    (cacheValid : bool) (fallback : string)
  : Stateful Trace (option PlaceDetails) :=
  match existing with
  | Some (_, row) =>
      if truthy (cover_image_base64 row) && cacheValid
      then
        let allUrls := match photo_gallery row with
                       | Some (e :: es) => galleryUrls (e :: es)
                       | _ => []
                       end in
        do _ <- emit (ConsoleLog "[CACHE HIT] Returning cached data");
        let coverFromCache :=
          default fallback
            (orIfFalsy (cover_image_base64 row) (orIfFalsy (head allUrls) None)) in
        ret (Some (cachedAnswer row coverFromCache (withoutCover allUrls)))
      else ret None
  | None => ret None
  end.

(** Lines 376-440: cached photos are reused and only the details refreshed. *)
Definition answerFromCachedPhotos (w : World) (existing : option (string * PlaceRow))
    (cacheValid hasCompleteCache : bool) (fallback : string)
    (placeDetails : Details) (photoRefs : list PhotoRef)
  : Stateful Trace (option PlaceDetails) :=
  match existing with
  | Some (rowId, row) =>
      let hasCachedPhotos :=
        truthy (cover_image_base64 row)
        && match photo_gallery row with Some (_ :: _) => true | _ => false end
        && cacheValid in
      if hasCachedPhotos && (0 <? length photoRefs)%nat
      then
        do _ <- emit (ConsoleLog "[CACHE HIT] Skipping photo fetch");
        let allUrls := galleryUrls (default [] (photo_gallery row)) in
        let coverDataUrl :=
          default fallback
            (orIfFalsy (cover_image_base64 row) (orIfFalsy (head allUrls) None)) in
        do _ <- (if negb hasCompleteCache
                    && (truthy (d_phone placeDetails)
                        || truthy (d_website placeDetails)
                        || isSome (d_openingHours placeDetails))
                 then updateCachedPlace w rowId row placeDetails
                 else ret tt);
        ret (Some
               (mkPlaceDetails coverDataUrl (withoutCover allUrls)
                  (orIfFalsy (d_description placeDetails) (rowDescription row))
                  (orIfFalsy (d_phone placeDetails) (row_phone row))
                  (orIfFalsy (d_website placeDetails) (website_url row))
                  (orIfFalsy (d_internationalPhone placeDetails)
                             (international_phone_number row))
                  (toOpeningHours <$>
                     orElse (d_openingHours placeDetails) (opening_hours row))
                  (map toReview <$>
                     orElse (d_reviews placeDetails) (row_reviews row))
                  (orIfFalsy (d_businessStatus placeDetails) (business_status row))))
      else ret None
  | None => ret None
  end.

Definition getOrCachePlacePhotos (w : World) (params : Params)
  : Stateful Trace PlaceDetails :=
  let fallback := getCuisineFallbackImageFromTypes (types params) in
  match orIfFalsy (GOOGLE_PLACES_API_KEY w) None with
  | None =>
      do _ <- emit (ConsoleError "GOOGLE_PLACES_API_KEY missing");
      ret (mkPlaceDetails fallback [] None None None None None None None)
  | Some apiKey =>
      do selected <- call (fun h => selectPlace w h (placeId params))
                          (DbSelectPlace (placeId params));
      let existing := fst selected in
      let error := snd selected in
      do _ <- (if isSome error then emit (ConsoleError "Supabase select error")
               else ret tt);
      do now <- readClock w;
      let cacheValid := isCacheValid existing now in
      do early <- answerFromCache existing cacheValid fallback;
      match early with
      | Some answer => ret answer
      | None =>
          let hasCompleteCache :=
            match existing with
            | Some (_, row) =>
                truthy (row_phone row) && truthy (website_url row)
                && isSome (opening_hours row) && isSome (row_reviews row)
                && cacheValid
            | None => false
            end in
          do fetched <-
             (if hasCompleteCache
              then do _ <- emit (ConsoleLog "[CACHE HIT] Skipping Place Details API call");
                   ret (noDetails, photos params)
              else fetchDetails w (placeId params) (photos params));
          let placeDetails := fst fetched in
          let photos := snd fetched in
          let photoRefs :=
            List.filter (fun p => negb (JS.falsy (photo_reference p)))
                        (default [] photos) in
          do cached <- answerFromCachedPhotos w existing cacheValid hasCompleteCache
                         fallback placeDetails photoRefs;
          match cached with
          | Some answer => ret answer
          | None =>
              match photoRefs with
              | [] => storeWithoutPhotos w params fallback placeDetails
              | _ => fetchAndStorePhotos w params apiKey fallback placeDetails photoRefs
              end
          end
      end
  end.

(** *** The cached search of [GET] *)

(** [Math.cos] and [Math.PI] are the engine's; they are parameters here. *)
Section GeoCache.
Variable cos : Q -> Q.
Variable PI : Q.

Definition clampedRadius (radius : Z) : Z := Z.max 200 (Z.min 5000 radius).

Definition inSearchBox (lat lon : Q) (radius : Z) (row : PlaceRow) : bool :=
  let searchRadius := inject_Z (clampedRadius radius) * 1.2 in
  let latDelta := searchRadius / 111000 in
  let lonDelta := searchRadius / (111000 * cos (lat * PI / 180)) in
  JS.geb (row_lat row) (lat - latDelta)
  && JS.leb (row_lat row) (lat + latDelta)
  && JS.geb (row_lon row) (lon - lonDelta)
  && JS.leb (row_lon row) (lon + lonDelta).

(** [.gt("last_updated_at", now - 30 days)]; a null column never compares. *)
Definition updatedWithin30Days (now : Z) (row : PlaceRow) : bool :=
  match last_updated_at row with
  | Some lu => (now - TTL_MS <? lu)%Z
  | None => false
  end.

(** The query on [places]: the rows it selects, at most 60 of them. *)
Definition cachedPlaces (now : Z) (lat lon : Q) (radius : Z)
    (places : list PlaceRow) : list PlaceRow :=
  slice0 60
    (List.filter
       (fun row =>
          String.eqb (source row) "google"
          && inSearchBox lat lon radius row
          && isSome (cover_image_base64 row)
          && updatedWithin30Days now row)
       places).

End GeoCache.

(** *** The [places] table

    The relational store is a collaborator; it is modelled by its contract:
    an upsert on the key [(source, source_place_id)] overwrites the columns
    it is given, an update by id overwrites the columns of its patch. *)

Definition Store : Type := list (string * PlaceRow).

Definition sameKey (a b : PlaceRow) : bool :=
  String.eqb (source a) (source b)
  && String.eqb (source_place_id a) (source_place_id b).

(** The stored row after a conflicting upsert: [google_photo_reference] is
    kept when the upsert does not name it. *)
Definition overwrite (old new : PlaceRow) : PlaceRow :=
  mkPlaceRow (source new) (source_place_id new) (row_name new)
    (formatted_address new) (row_lat new) (row_lon new) (primary_type new)
    (type_tags new) (row_rating new) (rating_count new) (price_level new)
    (row_phone new) (website_url new) (international_phone_number new)
    (map_url new)
    (orElse (google_photo_reference new) (google_photo_reference old))
    (cover_image_base64 new) (photo_gallery new) (has_photos new)
    (opening_hours new) (row_reviews new) (business_status new)
    (raw_payload new) (last_updated_at new) (expires_at new).

Fixpoint upsertPlace (row : PlaceRow) (store : Store) : Store :=
  match store with
  | [] => [(source_place_id row, row)]
  | (rowId, old) :: rest =>
      if sameKey old row then (rowId, overwrite old row) :: rest
      else (rowId, old) :: upsertPlace row rest
  end.

Definition patched (patch : PlacePatch) (old : PlaceRow) : PlaceRow :=
  mkPlaceRow (source old) (source_place_id old) (row_name old)
    (formatted_address old) (row_lat old) (row_lon old) (primary_type old)
    (type_tags old) (row_rating old) (rating_count old) (price_level old)
    (patch_phone patch) (patch_website_url patch)
    (patch_international_phone_number patch)
    (map_url old) (google_photo_reference old)
    (cover_image_base64 old) (photo_gallery old) (has_photos old)
    (patch_opening_hours patch) (patch_reviews patch)
    (patch_business_status patch) (patch_raw_payload patch)
    (Some (patch_last_updated_at patch)) (Some (patch_expires_at patch)).

Definition updatePlace (rowId : string) (patch : PlacePatch) (store : Store) : Store :=
  map (fun entry =>
         if String.eqb (fst entry) rowId
         then (fst entry, patched patch (snd entry))
         else entry)
      store.

(** The effect of one event on the table. *)
Definition applyEvent (store : Store) (e : Event) : Store :=
  match e with
  | DbUpsertPlace row => upsertPlace row store
  | DbUpdatePlace rowId patch => updatePlace rowId patch store
  | _ => store
  end.

Definition applyTrace (store : Store) (trace : Trace) : Store :=
  fold_left applyEvent trace store.



End Api.

(** ** Reference definitions

    The notions the properties below are stated with. *)






(** What the parser of the recommendations page computes when the text is
    not in its cache. *)
Definition RecsPage_parseUncached (distance : string) : option Q :=
  fst (RecsPage.parseDistanceToMeters distance ∅).

(** A cache that holds only what the parser itself has stored. *)
Definition consistentCache (cache : gmap string (option Q)) : Prop :=
  forall k v, cache !! k = Some v -> v = RecsPage_parseUncached k.

(** The comparator of both pages, over a distance parser without state. *)
Definition compareWith (parse : string -> option Q) (a b : Scored) : Num :=
  let scoreDiff := score b - score a in
  if JS.gtb (Qabs scoreDiff) 0.1 then Fin scoreDiff
  else
    let ratingA := default 0 (rating (restaurant a)) in
    let ratingB := default 0 (rating (restaurant b)) in
    if negb (Qeq_bool ratingB ratingA) then Fin (ratingB - ratingA)
    else Num_sub (orInfinity (parse (distance (restaurant a))))
                 (orInfinity (parse (distance (restaurant b)))).

(** The insertion sort of [sort] for a comparator without state. *)
Fixpoint insertPure {A} (cmp : A -> A -> Num) (x : A) (placed : list A) : list A :=
  match placed with
  | [] => [x]
  | y :: r => if Num_positive (cmp y x) then x :: y :: r
              else y :: insertPure cmp x r
  end.

Definition sortPure {A} (cmp : A -> A -> Num) (l : list A) : list A :=
  fold_left (fun placed x => insertPure cmp x placed) l [].





(** Three candidates whose scores chain within 0.1 of each other while their
    ratings run the other way. *)
Definition chainSaved : list FoodStore :=
  [mkFoodStore "saved-1" "Italian" "" "1.0 km away" (Some 4) None None false false].

Definition chainA : FoodStore :=
  mkFoodStore "a" "Italian" "" "1.0 km away" (Some 4.3) (Some 150) None false false.
Definition chainB : FoodStore :=
  mkFoodStore "b" "Italian" "" "1.0 km away" (Some 4.2) (Some 174) None false false.
Definition chainC : FoodStore :=
  mkFoodStore "c" "Italian" "" "1.0 km away" (Some 4.1) (Some 198) None false false.

Definition chainScored (r : FoodStore) : Scored :=
  mkScored r (MainPage.scoreRecommendation r (MainPage.extractPreferences chainSaved)
                (MainPage.parseDistanceToMeters (distance r))).

(** Calls to the upstream provider. *)
Definition isUpstreamCall (e : Api.Event) : bool :=
  match e with
  | Api.FetchPlaceDetails _ | Api.FetchPhoto _ _ => true
  | _ => false
  end.

(** The data URL a photo response yields, [None] when the fetch throws. *)
Definition photoDataUrl (r : Api.PhotoResponse) : option string :=
  match r with
  | Api.PhotoAnswered true _ contentType buffer =>
      Some ("data:" ++ default "image/jpeg" (Api.orIfFalsy contentType None)
            ++ ";base64," ++ buffer)
  | _ => None
  end.

(** The gallery entry of a fetched photo. *)
Definition entryOf (photo : Api.PhotoRef) (dataUrl : string) : Api.GalleryEntry :=
  Api.mkGalleryEntry (Api.photo_reference photo) dataUrl
    (JS.join " " <$> Api.html_attributions photo)
    (Api.photo_width photo) (Api.photo_height photo).

(** The number of fetches of one photo reference in a trace. *)
Definition attempts (photoReference : string) (trace : list Api.Event) : nat :=
  length (List.filter
            (fun e => match e with
                      | Api.FetchPhoto ref _ => String.eqb ref photoReference
                      | _ => false
                      end)
            trace).

(** The provider answers every fetch of this photo with this data URL. *)
Definition alwaysFetches (w : Api.World) (photoReference dataUrl : string) : Prop :=
  forall h, photoDataUrl (Api.photoResponse w h photoReference) = Some dataUrl.

(** A row whose expiry is at least 30 days after its last update. *)
Definition rowStamped (row : Api.PlaceRow) : Prop :=
  exists updated expires,
    Api.last_updated_at row = Some updated
    /\ Api.expires_at row = Some expires
    /\ (updated + Api.TTL_MS <= expires)%Z.




(** A provider that serves every photo but ["photo-b"], a store that holds
    nothing yet, and a clock that ticks with every event. *)
Definition worldWithPhotos : Api.World :=
  Api.mkWorld (Some "key") (fun h => Z.of_nat (length h))
    (fun _ _ => (None, None)) (fun _ _ => Api.DetailsNotOk)
    (fun _ ref => if String.eqb ref "photo-b" then Api.PhotoRejected "network"
                  else Api.PhotoAnswered true "200" None "AAAA")
    (fun _ _ => (Some "row-1", None)) (fun _ _ => None).


Definition sushiPlace : Api.Params :=
  Api.mkParams "place-1" "Sakura" 1 2 None None
    (Some ["restaurant"; "Sushi_Bar"]) None None None
    (Some [Api.mkPhotoRef "photo-a" None None None;
           Api.mkPhotoRef "photo-b" None None None;
           Api.mkPhotoRef "photo-c" None None None]).

(** The table after one enrichment of that place, and its row. *)
Definition tableAfterOneRun : Api.Store :=
  Api.applyTrace [] (snd (Api.getOrCachePlacePhotos worldWithPhotos sushiPlace [])).

Definition rowAfterOneRun : Api.PlaceRow :=
  default (Api.placeRow sushiPlace Api.noDetails None None [] false 0 0)
          (head (map snd tableAfterOneRun)).

(** A row no write of this code produces: updated a day before the query,
    expired an hour before it. *)
Definition foreignRow (now : Z) : Api.PlaceRow :=
  Api.mkPlaceRow "google" "place-9" "Elsewhere" None 1 2 "restaurant" None
    None None None None None None "" None (Some "data:image/jpeg;base64,AAAA")
    (Some []) true None None None None
    (Some (now - 86400000)%Z) (Some (now - 3600000)%Z).

(** [x] may stand before [y]: the comparator does not put [x] after [y]. *)
Definition mayPrecede {A} (cmp : A -> A -> Num) (x y : A) : Prop :=
  Num_positive (cmp x y) = false.

(** The body of the loop of [extractPreferences] on the main page. *)
Definition mainTallyStep (t : Tally) (store : FoodStore) : Tally :=
  tallyDistance (MainPage.parseDistanceToMeters (distance store))
    (tallyRating store (tallyCategories store t)).

(** ** Inputs of the scenarios *)

Definition scenarioA_saved : list FoodStore :=
  [mkFoodStore "saved-1" "Italian" "" "0.5 km away" (Some 4.5) None (Some 2%Z)
     false false].

Definition scenarioA_candidate : FoodStore :=
  mkFoodStore "candidate-1" "Italian" "" "0.6 km away" (Some 4.6) (Some 150)
    (Some 2%Z) false false.

Definition pricedCandidate : FoodStore :=
  mkFoodStore "candidate-2" "Thai" "Hot" "300 m away" (Some 4.2) None (Some 2%Z)
    false false.

Definition italianCandidate : FoodStore :=
  mkFoodStore "candidate-3" "Italian" "Mild" "900 m away" (Some 4.4) None None
    false false.

Definition profileWithItalian (n : Q) : UserPreferences :=
  mkUserPreferences {[ "Italian" := n ]} 4.2 800 ∅ ∅ 6.


Definition milesCandidate : FoodStore :=
  mkFoodStore "candidate-4" "Italian" "" "3 mi away" (Some 4.6) (Some 150)
    (Some 2%Z) false false.

(** ** Numbers as text

    What the sources do with numbers and strings beyond [parseFloat]:
    [Math.round], template literals of whole numbers, [toFixed(1)],
    [parseInt(s, 10)], [String.prototype.split] and [repeat]. *)

Module JSNumber.

(** [Math.round]: the nearest integer, the larger one on a tie. *)
Definition round (x : Q) : Z := Qfloor (x + (1 # 2)).

Definition digitChar (d : Z) : ascii := ascii_of_nat (48 + Z.to_nat d).

(** The decimal digits of [n >= 0], most significant first, put in front of
    [rest]; [fuel] bounds their number. *)
Fixpoint digitsOf (fuel : nat) (n : Z) (rest : string) : string :=
  match fuel with
  | O => rest
  | S fuel =>
      let rest := String (digitChar (n mod 10)) rest in
      if (n <? 10)%Z then rest else digitsOf fuel (n / 10) rest
  end.

Definition decimal (n : Z) : string :=
  digitsOf (S (Z.to_nat (Z.log2 n))) n "".

(** [`${n}`] for a whole number of magnitude below [10^21]. *)
Definition integerToString (n : Z) : string :=
  if (n <? 0)%Z then "-" ++ decimal (- n) else decimal n.

(** [parseInt(s, 10)]: white space, a sign, then the longest run of decimal
    digits; [None] is [NaN]. *)
Definition parseInt (s : string) : option Z :=
  let '(neg, s1) := JS.takeSign (JS.skipWhiteSpace s) in
  let '(v, len, _) := JS.takeDigits s1 0 0 in
  match len with
  | O => None
  | _ => Some (if neg then (- v)%Z else v)
  end.

(** [parseFloat] on a text that was not lower-cased: [Infinity] is a
    literal. *)
Definition parseFloat (s : string) : Num :=
  let '(neg, s1) := JS.takeSign (JS.skipWhiteSpace s) in
  if String.prefix "Infinity" s1 then (if neg then NegInfinity else PosInfinity)
  else match JS.parseFloat s with
       | Some q => Fin q
       | None => NaN
       end.

(** [s.split(sep)] for a separator of one character. *)
Fixpoint splitFrom (sep : ascii) (s : string) (piece : string) : list string :=
  match s with
  | EmptyString => [piece]
  | String c r =>
      if Ascii.eqb c sep then piece :: splitFrom sep r ""
      else splitFrom sep r (piece ++ String c "")
  end.

Definition split (sep : ascii) (s : string) : list string := splitFrom sep s "".

(** [s.repeat(n)] *)
Fixpoint repeat (s : string) (n : nat) : string :=
  match n with
  | O => ""
  | S n => s ++ repeat s n
  end.

(** The functions of the engine that the rationals do not have: the
    trigonometry of [Math], and [Number::toString] for a number that is not
    a whole number below [10^21] (the shortest digits that read back as the
    same number, in exponent form from [10^21] on).  The square root of a
    negative number is [NaN]. *)
Record Engine := mkEngine {
  Math_sin : Q -> Q;
  Math_cos : Q -> Q;
  Math_atan2 : Q -> Q -> Q;
  Math_sqrt : Q -> option Q;
  Math_PI : Q;
  Number_toString : Q -> string
}.

Section Rendering.
Variable engine : Engine.

(** A number in a template literal. *)
Definition toString (x : Q) : string :=
  let x' := Qred x in
  if Pos.eqb (Qden x') 1 && (Z.abs (Qnum x') <? 10 ^ 21)%Z
  then integerToString (Qnum x')
  else Number_toString engine x.

(** [x.toFixed(1)]: with [n] the integer nearest to [10 |x|] (the larger on
    a tie), the digits of [n] with a point before the last one, after the
    sign of [x]. *)
Definition toFixed1 (x : Q) : string :=
  let s := if JS.ltb x 0 then "-" else "" in
  let x := Qabs x in
  if JS.geb x (inject_Z (10 ^ 21)) then s ++ Number_toString engine x
  else
    let n := Qfloor (x * 10 + (1 # 2)) in
    s ++ decimal (n / 10) ++ "." ++ decimal (n mod 10).

End Rendering.

End JSNumber.

(** ** The restaurants endpoint: [GET] *)

Module Route.

(** A place as the provider's nearby search lists it, or as [GET] rebuilds
    it from a cached row.  [place_lat] and [place_lng] are
    [geometry?.location?.lat] and [geometry?.location?.lng]; a missing
    [place_id] is the empty string. *)
Record GooglePlace := mkGooglePlace {
  place_id : string;
  place_name : string;
  place_lat : option Q;
  place_lng : option Q;
  vicinity : option string;
  formatted_address : option string;
  types : option (list string);
  place_rating : option Q;
  user_ratings_total : option Q;
  price_level : option Q;
  photos : option (list Api.PhotoRef)
}.

(** A restaurant of the response. *)
Record FoodStore := mkFoodStore {
  id : string;
  name : string;
  cuisine : string;
  spiceLevel : string;
  distance : string;
  description : string;
  specialties : list string;
  image : string;
  gallery : list string;
  isNew : bool;
  lat : Q;
  lon : Q;
  phone : option string;
  website : option string;
  rating : option Q;
  ratingCount : option Q;
  priceLevel : option Q;
  openingHours : option Api.OpeningHours;
  reviews : option (list Api.Review);
  businessStatus : option string;
  formattedAddress : option string
}.

(** The JSON body of the response and its status. *)
Record Response := mkResponse {
  status : Z;
  error : option string;
  restaurants : option (list FoodStore);
  count : option nat
}.

(** What [fetch] of a nearby-search page does: it throws (the request or
    the decoding of its JSON), it answers not-ok, or it answers a page. *)
Inductive NearbyResponse :=
  | NearbyThrew
  | NearbyNotOk
  | NearbyOk (results : option (list GooglePlace)) (next_page_token : option string).

Inductive Event :=
  | ConsoleError (message : string)
  | ConsoleLog (message : string)
  | ClockRead (t : Z)
  | DbSelectNearby (lat lon : Q) (clampedRadius : option Z) (updatedAfter : Z)
  | FetchNearbySearch (pageToken : option string) (lat lon : Q)
      (clampedRadius : option Z)
  | Sleep (ms : Z)
  | Enrich (params : Api.Params).

Abbreviation Trace := (list Event).

(** The request and the collaborators.  [settled] is what the promise of
    [getOrCachePlacePhotos] settles with for a place, [None] when it
    rejects: the enrichments of a batch run concurrently, so their own steps
    (those of [Api.getOrCachePlacePhotos]) are not in this trace. *)
Record World := mkWorld {
  query_lat : option string;
  query_lon : option string;
  query_radius : option string;
  GOOGLE_PLACES_API_KEY : option string;
  clock : Trace -> Z;
  selectNearby : Trace -> option (list Api.PlaceRow) * bool;
  nearbySearch : Trace -> option string -> NearbyResponse;
  settled : Trace -> Api.Params -> option Api.PlaceDetails
}.

Definition emit (e : Event) : Stateful Trace unit :=
  fun h => (tt, (h ++ [e])%list).

Definition call {A} (answer : Trace -> A) (e : Event) : Stateful Trace A :=
  fun h => (answer h, (h ++ [e])%list).

Definition readClock (w : World) : Stateful Trace Z :=
  fun h => let t := clock w h in (t, (h ++ [ClockRead t])%list).

Section Rendering.
Variable engine : JSNumber.Engine.

Definition haversineMeters (lat1 lon1 lat2 lon2 : Q) : Num :=
  let R := 6371000 in
  let toRad := fun d : Q => (d * JSNumber.Math_PI engine) / 180 in
  let phi1 := toRad lat1 in
  let phi2 := toRad lat2 in
  let dphi := toRad (lat2 - lat1) in
  let dlambda := toRad (lon2 - lon1) in
  let a := JSNumber.Math_sin engine (dphi / 2) ^ 2
           + JSNumber.Math_cos engine phi1 * JSNumber.Math_cos engine phi2
             * JSNumber.Math_sin engine (dlambda / 2) ^ 2 in
  match JSNumber.Math_sqrt engine a, JSNumber.Math_sqrt engine (1 - a) with
  | Some x, Some y => Fin (R * (2 * JSNumber.Math_atan2 engine x y))
  | _, _ => NaN
  end.

Definition formatDistance (meters : Num) : string :=
  match meters with
  | Fin meters =>
      if JS.ltb meters 1000
      then JSNumber.toString engine (inject_Z (JSNumber.round meters)) ++ " m away"
      else
        let km := meters / 1000 in
        JSNumber.toFixed1 engine km ++ " km away"
  | _ => ""
  end.

(** [types.some(t => t.includes(word))] on the lower-cased types. *)
Definition someIncludes (typesLower : list string) (word : string) : bool :=
  existsb (fun t => JS.includes t word) typesLower.

Definition cuisineOf (types : option (list string)) : string :=
  let typesLower := map JS.toLowerCase (default [] types) in
  if someIncludes typesLower "mexican" then "Mexican"
  else if existsb (fun t => JS.includes t "japanese" || JS.includes t "sushi") typesLower
  then "Japanese"
  else if someIncludes typesLower "italian" then "Italian"
  else if someIncludes typesLower "chinese" then "Chinese"
  else if someIncludes typesLower "indian" then "Indian"
  else if existsb (fun t => JS.includes t "burger" || JS.includes t "american") typesLower
  then "American"
  else "Restaurant".

Definition spiceLevelOf (cuisine : string) : string :=
  let cuisineLower := JS.toLowerCase cuisine in
  if String.eqb cuisineLower "indian" || String.eqb cuisineLower "thai" then "Hot"
  else if String.eqb cuisineLower "mexican" || String.eqb cuisineLower "korean"
  then "Medium"
  else "Mild".

(** [if (n)] for a number: neither [0] nor [NaN]. *)
Definition truthyNumber (n : option Q) : bool :=
  match n with
  | Some q => negb (Qeq_bool q 0)
  | None => false
  end.

Definition describe (place : GooglePlace) (placeData : Api.PlaceDetails)
    (cuisine : string) : string :=
  if Api.truthy (Api.description placeData)
  then default "" (Api.description placeData)
  else
    let push := fun (parts : list string) (part : string) => (parts ++ [part])%list in
    let descriptionParts : list string := [] in
    let descriptionParts :=
      if Api.truthy (vicinity place)
      then push descriptionParts (default "" (vicinity place))
      else descriptionParts in
    let descriptionParts :=
      if truthyNumber (place_rating place)
      then push descriptionParts
             ("Rated " ++ JSNumber.toFixed1 engine (default 0 (place_rating place))
              ++ " / 5")
      else descriptionParts in
    let descriptionParts :=
      if truthyNumber (user_ratings_total place)
      then push descriptionParts
             (JSNumber.toString engine (default 0 (user_ratings_total place))
              ++ " reviews")
      else descriptionParts in
    let descriptionParts :=
      match price_level place with
      | Some price =>
          let dollarSigns :=
            JSNumber.repeat "$" (Z.to_nat (Qfloor (Qmax 1 (Qmin 4 (price + 1))))) in
          push descriptionParts (dollarSigns ++ " price level")
      | None => descriptionParts
      end in
    match descriptionParts with
    | [] => "Local " ++ JS.toLowerCase cuisine ++ " spot."
    | _ => JS.join " · " descriptionParts
    end.

Definition specialtiesOf (place : GooglePlace) (placeData : Api.PlaceDetails)
    (cuisine : string) : list string :=
  let specialties := [cuisine] in
  let specialties :=
    match place_rating place with
    | Some r => if negb (Qeq_bool r 0) && JS.geb r 4.0
                then (specialties ++ ["Highly rated"])%list else specialties
    | None => specialties
    end in
  let specialties :=
    match user_ratings_total place with
    | Some n => if negb (Qeq_bool n 0) && JS.gtb n 200
                then (specialties ++ ["Popular"])%list else specialties
    | None => specialties
    end in
  let specialties :=
    match Api.openingHours placeData with
    | Some hours => if default false (Api.openNowFlag hours)
                    then (specialties ++ ["Open now"])%list else specialties
    | None => specialties
    end in
  slice0 3 specialties.

(** The arguments of the enrichment of a place. *)
Definition paramsOf (place : GooglePlace) (plat plon : Q) : Api.Params :=
  Api.mkParams (place_id place) (place_name place) plat plon
    (Api.orElse (vicinity place) (formatted_address place))
    (Some (default "restaurant" (head (default [] (types place)))))
    (types place)
    (place_rating place) (user_ratings_total place) (price_level place)
    (photos place).

(** The restaurant built from a place and its enrichment. *)
Definition storeOf (distanceMeters : Num) (place : GooglePlace) (plat plon : Q)
    (placeData : Api.PlaceDetails) : FoodStore :=
  let cuisine := cuisineOf (types place) in
  mkFoodStore (place_id place) (place_name place) cuisine (spiceLevelOf cuisine)
    (formatDistance distanceMeters)
    (describe place placeData cuisine)
    (specialtiesOf place placeData cuisine)
    (Api.cover placeData) (Api.gallery placeData) false plat plon
    (Api.phone placeData) (Api.website placeData)
    (place_rating place) (user_ratings_total place) (price_level place)
    (Api.openingHours placeData) (Api.reviews placeData)
    (Api.businessStatus placeData)
    (Api.orElse (vicinity place) (formatted_address place)).

(** [processPlace]: [Some None] is a promise fulfilled with [null], [None] a
    rejected one. *)
Definition processPlace (w : World) (lat lon : Q) (place : GooglePlace)
  : Stateful Trace (option (option FoodStore)) :=
  match place_lat place, place_lng place with
  | Some plat, Some plon =>
      let distanceMeters := haversineMeters lat lon plat plon in
      let params := paramsOf place plat plon in
      do placeData <- call (fun h => settled w h params) (Enrich params);
      match placeData with
      | Some placeData => ret (Some (Some (storeOf distanceMeters place plat plon placeData)))
      | None => ret None
      end
  | _, _ => ret (Some None)
  end.

(** The fulfilled, non-null results of a batch, in order. *)
Definition fulfilled (results : list (option (option FoodStore))) : list FoodStore :=
  omap (fun r => match r with Some (Some store) => Some store | _ => None end) results.

Definition BATCH_SIZE : nat := 5.

(** The loop over the batches; [fuel] bounds the number of batches. *)
Fixpoint processBatches (fuel : nat) (w : World) (lat lon : Q)
    (places : list GooglePlace) (stores : list FoodStore)
  : Stateful Trace (list FoodStore) :=
  match fuel, places with
  | _, [] => ret stores
  | O, _ => ret stores
  | S fuel, _ =>
      let batch := slice0 BATCH_SIZE places in
      do results <- mapM (processPlace w lat lon) batch;
      processBatches fuel w lat lon (skipn BATCH_SIZE places)
        (stores ++ fulfilled results)%list
  end.

(** The key of the final sort. *)
Definition getMeters (s : FoodStore) : Num :=
  match JSNumber.parseFloat (distance s) with
  | NaN => Fin 9007199254740991
  | num => num
  end.

Definition compareStores (a b : FoodStore) : Num :=
  Num_sub (getMeters a) (getMeters b).

Definition withIsNew (s : FoodStore) (isNew : bool) : FoodStore :=
  mkFoodStore (id s) (name s) (cuisine s) (spiceLevel s) (distance s)
    (description s) (specialties s) (image s) (gallery s) isNew (lat s) (lon s)
    (phone s) (website s) (rating s) (ratingCount s) (priceLevel s)
    (openingHours s) (reviews s) (businessStatus s) (formattedAddress s).

(** [stores.map((s, idx) => ({ ...s, isNew: idx === 0 }))] *)
Definition markFirst (stores : list FoodStore) : list FoodStore :=
  imap (fun idx s => withIsNew s (idx =? 0)%nat) stores.

(** The place rebuilt from a cached row. *)
Definition placeOfRow (p : Api.PlaceRow) : GooglePlace :=
  mkGooglePlace (Api.source_place_id p) (Api.row_name p)
    (Some (Api.row_lat p)) (Some (Api.row_lon p))
    (Api.formatted_address p) (Api.formatted_address p)
    (Some (if Api.truthy (Api.type_tags p)
           then JSNumber.split "," (default "" (Api.type_tags p))
           else []))
    (Api.row_rating p) (Api.rating_count p) (Api.price_level p)
    (Some (match Api.photo_gallery p with
           | Some (e :: es) =>
               map (fun entry => Api.mkPhotoRef (Api.entry_id entry) None None None)
                   (e :: es)
           | _ => []
           end)).

(** One page of the nearby search: its places and the token of the next
    page, or [None] when the fetch throws. *)
Definition fetchPage (w : World) (lat lon : Q) (clampedRadius : option Z)
    (pageToken : option string)
  : Stateful Trace (option (list GooglePlace * option string)) :=
  do res <- call (fun h => nearbySearch w h pageToken)
                 (FetchNearbySearch pageToken lat lon clampedRadius);
  match res with
  | NearbyThrew => ret None
  | NearbyNotOk =>
      do _ <- emit (ConsoleError "Google Places error");
      ret (Some ([], None))
  | NearbyOk results nextToken => ret (Some (default [] results, nextToken))
  end.

(** The loop over the follow-up pages, [i < 2 && nextToken]. *)
Fixpoint followPages (w : World) (lat lon : Q) (clampedRadius : option Z)
    (remaining : nat) (nextToken : option string) (allResults : list GooglePlace)
  : Stateful Trace (option (list GooglePlace)) :=
  match remaining with
  | O => ret (Some allResults)
  | S remaining =>
      if Api.truthy nextToken then
        do _ <- emit (Sleep 2000);
        do page <- fetchPage w lat lon clampedRadius nextToken;
        match page with
        | Some page =>
            followPages w lat lon clampedRadius remaining (snd page)
              (allResults ++ fst page)%list
        | None => ret None
        end
      else ret (Some allResults)
  end.

(** [allResults.filter(p => ...)] with the set [seen]. *)
Fixpoint dedupe (allResults : list GooglePlace) (seen : gset string)
  : list GooglePlace :=
  match allResults with
  | [] => []
  | p :: rest =>
      if JS.falsy (place_id p) || bool_decide (place_id p ∈ seen)
      then dedupe rest seen
      else p :: dedupe rest ({[ place_id p ]} ∪ seen)
  end.

(** The places asked from the provider, [None] when a fetch throws. *)
Definition placesFromProvider (w : World) (lat lon : Q) (clampedRadius : option Z)
  : Stateful Trace (option (list GooglePlace)) :=
  do _ <- emit (ConsoleLog "[API CALL] Fetching places from Google API");
  do firstPage <- fetchPage w lat lon clampedRadius None;
  match firstPage with
  | None => ret None
  | Some firstPage =>
      do allResults <- followPages w lat lon clampedRadius 2 (snd firstPage)
                         (fst firstPage);
      match allResults with
      | None => ret None
      | Some allResults => ret (Some (slice0 60 (dedupe allResults ∅)))
      end
  end.

Definition unexpected : Response :=
  mkResponse 500 (Some "Unexpected server error") (Some []) None.

(** Lines 694-778: the places of the cached search when it found at least
    five and did not fail, else those of the provider. *)
Definition choosePlaces (w : World) (lat lon : Q) (clampedRadius : option Z)
    (cachedPlaces : option (list Api.PlaceRow)) (cacheError : bool)
  : Stateful Trace (option (list GooglePlace)) :=
  match cachedPlaces with
  | Some rows =>
      if (5 <=? length rows)%nat && negb cacheError
      then do _ <- emit (ConsoleLog "[CACHE HIT] Using cached places");
           ret (Some (map placeOfRow rows))
      else placesFromProvider w lat lon clampedRadius
  | None => placesFromProvider w lat lon clampedRadius
  end.

(** Lines 780-901: the places are processed, the stores sorted and the
    first one flagged. *)
Definition respond (w : World) (lat lon : Q) (places : list GooglePlace)
  : Stateful Trace Response :=
  do stores <- processBatches (length places) w lat lon places [];
  let sorted := fst (sort (fun a b => ret (compareStores a b)) stores tt) in
  let restaurants := markFirst sorted in
  ret (mkResponse 200 None (Some restaurants) (Some (length restaurants))).

Definition GET (w : World) : Stateful Trace Response :=
  let lat := JSNumber.parseFloat (default "" (Api.orIfFalsy (query_lat w) None)) in
  let lon := JSNumber.parseFloat (default "" (Api.orIfFalsy (query_lon w) None)) in
  let radius :=
    JSNumber.parseInt (default "2000" (Api.orIfFalsy (query_radius w) None)) in
  match lat, lon with
  | Fin lat, Fin lon =>
      let clampedRadius := Api.clampedRadius <$> radius in
      match Api.orIfFalsy (GOOGLE_PLACES_API_KEY w) None with
      | None =>
          do _ <- emit (ConsoleError "GOOGLE_PLACES_API_KEY is not set");
          ret (mkResponse 500
                 (Some "Server not configured with Google Places API key")
                 (Some []) None)
      | Some apiKey =>
          do now <- readClock w;
          do selected <- call (selectNearby w)
                              (DbSelectNearby lat lon clampedRadius (now - Api.TTL_MS));
          do places <- choosePlaces w lat lon clampedRadius (fst selected) (snd selected);
          match places with
          | None =>
              do _ <- emit (ConsoleError "Unexpected error in /api/restaurants");
              ret unexpected
          | Some places => respond w lat lon places
          end
      end
  | _, _ =>
      ret (mkResponse 400 (Some "lat and lon are required query parameters")
             None None)
  end.

End Rendering.

End Route.

(** ** The swipe deck of the main page *)

Module Home.

Inductive Direction := Left | Right.

Definition SWIPE_THRESHOLD : Q := 225.
Definition SWIPE_VELOCITY_THRESHOLD : Q := 500.

(** [handleDragEnd]: the decision it hands to [handleDecision], [None] when
    the card springs back.  [swipeDistance] is [info.offset.x],
    [swipeVelocity] is [info.velocity.x]. *)
Definition handleDragEnd (swipeDistance swipeVelocity : Q) : option Direction :=
  if JS.gtb swipeDistance SWIPE_THRESHOLD then Some Right
  else if JS.ltb swipeDistance (- SWIPE_THRESHOLD) then Some Left
  else if JS.gtb swipeVelocity SWIPE_VELOCITY_THRESHOLD && JS.gtb swipeDistance 0
  then Some Right
  else if JS.ltb swipeVelocity (- SWIPE_VELOCITY_THRESHOLD) && JS.ltb swipeDistance 0
  then Some Left
  else None.

(** [handleRadiusChange]: the radius it stores and searches with. *)
Definition handleRadiusChange (newRadius : Z) : Z :=
  Z.max 500 (Z.min 16093 newRadius).

Section Rendering.
Variable engine : JSNumber.Engine.

End Rendering.

(** The state the deck handlers read and write.  [swipeCount] is
    [swipeCountRef.current]; [userLocation] tells whether a location is
    known. *)
Record Deck := mkDeck {
  restaurants : list FoodStore;
  activeIndex : nat;
  lastDirection : option Direction;
  cardExitDirection : option Direction;
  saved : list FoodStore;
  swipedRestaurants : list (FoodStore * Direction);
  saveBurstId : Z;
  showCheckmark : bool;
  swipeCount : nat;
  userLocation : bool
}.

(** What a handler leaves for later. *)
Inductive Timer :=
  | HideCheckmark (ms : Z)
  | FetchRecommendations (ms : Z).

(** [remainingStores[0]] *)
Definition currentStore (d : Deck) : option FoodStore :=
  head (skipn (activeIndex d) (restaurants d)).

(** [handleDecision], called in a render that has seen every earlier
    decision: the next state and the timers it starts. *)
Definition handleDecision (direction : Direction) (d : Deck) : Deck * list Timer :=
  match currentStore d with
  | None => (d, [])
  | Some store =>
      let isRight := match direction with Right => true | Left => false end in
      let saved' := if isRight then store :: saved d else saved d in
      let saveBurstId' := if isRight then (saveBurstId d + 1)%Z else saveBurstId d in
      let showCheckmark' := if isRight then true else showCheckmark d in
      let checkmarkTimer := if isRight then [HideCheckmark 600] else [] in
      let count := S (swipeCount d) in
      let refresh := (10 <=? count)%nat in
      let willHaveSaved := if isRight then S (length (saved d)) else length (saved d) in
      let refreshTimer :=
        if refresh && userLocation d && (0 <? willHaveSaved)%nat
        then [FetchRecommendations 100] else [] in
      (mkDeck (restaurants d) (S (activeIndex d)) (Some direction) (Some direction)
         saved' ((store, direction) :: swipedRestaurants d)
         saveBurstId' showCheckmark'
         (if refresh then O else count)
         (userLocation d),
       (checkmarkTimer ++ refreshTimer)%list)
  end.

(** [resetDeck], apart from the restaurants it fetches again. *)
Definition resetDeck (d : Deck) : Deck :=
  mkDeck (restaurants d) 0 None None [] [] 0 (showCheckmark d) (swipeCount d)
    (userLocation d).

(** A gesture on the card: the drag handler, then the decision. *)
Definition swipe (swipeDistance swipeVelocity : Q) (d : Deck) : Deck * list Timer :=
  match handleDragEnd swipeDistance swipeVelocity with
  | Some direction => handleDecision direction d
  | None => (d, [])
  end.

End Home.

(** ** The card of the deck *)

Module SwipeCard.

(** The two tests of the card's own drag handler. *)
Definition isSwipeRight (swipeDistance swipeVelocity : Q) : bool :=
  JS.gtb swipeDistance Home.SWIPE_THRESHOLD
  || (JS.gtb swipeVelocity Home.SWIPE_VELOCITY_THRESHOLD && JS.gtb swipeDistance 0).

Definition isSwipeLeft (swipeDistance swipeVelocity : Q) : bool :=
  JS.ltb swipeDistance (- Home.SWIPE_THRESHOLD)
  || (JS.ltb swipeVelocity (- Home.SWIPE_VELOCITY_THRESHOLD) && JS.ltb swipeDistance 0).

(** The exit direction the card sets before it calls the parent; [None]
    leaves it as it was (and the card is put back at the centre). *)
Definition exitDirection (swipeDistance swipeVelocity : Q) : option Home.Direction :=
  if isSwipeRight swipeDistance swipeVelocity then Some Home.Right
  else if isSwipeLeft swipeDistance swipeVelocity then Some Home.Left
  else None.

(** The photos the card pages through: the image, then up to three of the
    gallery, without the empty ones. *)
Definition photos (image : string) (gallery : option (list string)) : list string :=
  List.filter (fun u => negb (JS.falsy u)) (image :: slice0 3 (default [] gallery)).

End SwipeCard.

(** ** Reference definitions for the texts of numbers *)



(** An engine for the examples.  Its trigonometry is crude; no property
    below depends on it. *)
Definition sampleEngine : JSNumber.Engine :=
  JSNumber.mkEngine (fun x => x) (fun _ => 1) (fun y _ => y)
    (fun x => if JS.ltb x 0 then None else Some x) (355 # 113)
    (fun _ => "1e+21").

(** ** Reference definitions for the endpoint *)

(** [a <= b] on numbers that may be infinite. *)
Definition numLe (a b : Num) : Prop :=
  match a, b with
  | Fin x, Fin y => x <= y
  | NegInfinity, (Fin _ | PosInfinity | NegInfinity) => True
  | (Fin _ | PosInfinity), PosInfinity => True
  | _, _ => False
  end.

(** The order of the response: by the number each distance text starts
    with. *)
Definition byLeadingNumber (a b : Route.FoodStore) : Prop :=
  numLe (Route.getMeters a) (Route.getMeters b).

(** The calls of a trace: everything but the console. *)
Definition isCall (e : Route.Event) : bool :=
  match e with
  | Route.ConsoleError _ | Route.ConsoleLog _ => false
  | _ => true
  end.

(** The enrichment a place with coordinates is given. *)
Definition enrichmentOf (place : Route.GooglePlace) : option Api.Params :=
  match Route.place_lat place, Route.place_lng place with
  | Some plat, Some plon => Some (Route.paramsOf place plat plon)
  | _, _ => None
  end.

(** The request of the recommendations tab (radius 16 093), a provider with
    two places on one page, an empty store and an enrichment that always
    answers with the fallback cover.  With the
    engine of the examples the first place is 1.2 km away and the second
    621 m. *)
Definition samplePlaces : list Route.GooglePlace :=
  [Route.mkGooglePlace "place-far" "Far Away Diner" (Some 38.9) (Some (-122.43))
     (Some "12 Hill St") None (Some ["restaurant"; "Mexican_Restaurant"])
     (Some 4.5) (Some 320) (Some 1) None;
   Route.mkGooglePlace "place-near" "Corner Sushi" (Some 38.57) (Some (-122.43))
     None None (Some ["sushi_bar"]) None None None None].

Definition sampleWorld : Route.World :=
  Route.mkWorld (Some "37.77") (Some "-122.43") (Some "16093") (Some "key")
    (fun h => Z.of_nat (length h))
    (fun _ => (Some [], false))
    (fun _ _ => Route.NearbyOk (Some samplePlaces) None)
    (fun _ p =>
       Some (Api.mkPlaceDetails
               (Api.getCuisineFallbackImageFromTypes (Api.types p)) [] None None
               None None (Some (Api.mkOpeningHours None (Some true))) None None)).

(** The answer to that request, its restaurants and their distances. *)
Definition sampleResponse : Route.Response :=
  fst (Route.GET sampleEngine sampleWorld []).

Definition sampleRestaurants : list Route.FoodStore :=
  default [] (Route.restaurants sampleResponse).

Definition noStore : Route.FoodStore :=
  Route.mkFoodStore "" "" "" "" "" "" [] "" [] false 0 0 None None None None None
    None None None None.

Definition sampleRestaurant (k : nat) : Route.FoodStore :=
  default noStore (sampleRestaurants !! k).

Definition sampleDistance (k : nat) : Q :=
  match Route.haversineMeters sampleEngine 37.77 (-122.43)
          (Route.lat (sampleRestaurant k)) (Route.lon (sampleRestaurant k)) with
  | Fin q => q
  | _ => 0
  end.

(** The calls of the nearby search for the pages that follow the first:
    before each one a pause of two seconds, then the fetch with the token of
    the page before. *)
Definition pageCalls (lat lon : Q) (clampedRadius : option Z) (tokens : list string)
  : list Route.Event :=
  Route.FetchNearbySearch None lat lon clampedRadius
  :: flat_map (fun token =>
                 [Route.Sleep 2000;
                  Route.FetchNearbySearch (Some token) lat lon clampedRadius])
       tokens.

(** The coordinates and the radius a request asks for. *)
Definition requestedAt (w : Route.World) (lat lon : Q) : Prop :=
  JSNumber.parseFloat (default "" (Api.orIfFalsy (Route.query_lat w) None)) = Fin lat
  /\ JSNumber.parseFloat (default "" (Api.orIfFalsy (Route.query_lon w) None)) = Fin lon.

Definition requestedRadius (w : Route.World) : option Z :=
  Api.clampedRadius
    <$> JSNumber.parseInt (default "2000" (Api.orIfFalsy (Route.query_radius w) None)).



(** What every step of [GET] other than a console message needs and
    carries: finite coordinates in the request and the key; the cached
    search and the searches of the provider are made at those coordinates
    with the radius of the request. *)
Definition callOf (w : Route.World) (e : Route.Event) : Prop :=
  match e with
  | Route.ConsoleError _ | Route.ConsoleLog _ => True
  | Route.DbSelectNearby lat lon r _ | Route.FetchNearbySearch _ lat lon r =>
      requestedAt w lat lon /\ r = requestedRadius w
      /\ Api.truthy (Route.GOOGLE_PLACES_API_KEY w) = true
  | Route.ClockRead _ | Route.Sleep _ | Route.Enrich _ =>
      (exists lat lon, requestedAt w lat lon)
      /\ Api.truthy (Route.GOOGLE_PLACES_API_KEY w) = true
  end.

(** The radius a store query or a provider search is made with. *)
Definition radiusOf (e : Route.Event) : option (option Z) :=
  match e with
  | Route.DbSelectNearby _ _ r _ | Route.FetchNearbySearch _ _ _ r => Some r
  | _ => None
  end.

(** A type tag that can be stored in the comma-separated column: not empty
    and without a comma. *)
Fixpoint lacks (sep : ascii) (s : string) : bool :=
  match s with
  | EmptyString => true
  | String c r => negb (Ascii.eqb c sep) && lacks sep r
  end.

Definition storableTag (t : string) : Prop :=
  JS.falsy t = false /\ lacks "," t = true.

(** ** Reference definitions for the enrichment *)

(** The number of events of a kind in a trace. *)
Definition countOfKind (kind : Api.Event -> bool) (trace : list Api.Event) : nat :=
  length (List.filter kind trace).

Definition isDetailsCall (e : Api.Event) : bool :=
  match e with Api.FetchPlaceDetails _ => true | _ => false end.

Definition isPhotoFetch (e : Api.Event) : bool :=
  match e with Api.FetchPhoto _ _ => true | _ => false end.

Definition isPlaceWrite (e : Api.Event) : bool :=
  match e with Api.DbUpsertPlace _ | Api.DbUpdatePlace _ _ => true | _ => false end.

Definition isPause (e : Api.Event) : bool :=
  match e with Api.Sleep _ => true | _ => false end.

(** A computation that only appends events, at most [n] of them of the
    given kind. *)
Definition spends {A} (kind : Api.Event -> bool) (n : nat)
    (m : Stateful (list Api.Event) A) : Prop :=
  forall h, exists ev,
    snd (m h) = (h ++ ev)%list /\ (countOfKind kind ev <= n)%nat.

(** An answer a restaurant can be shown with: a cover that is not empty and
    at most three further photos, none of them empty. *)
Definition presentable (answer : Api.PlaceDetails) : Prop :=
  JS.falsy (Api.cover answer) = false
  /\ (length (Api.gallery answer) <= 3)%nat
  /\ Forall (fun u => JS.falsy u = false) (Api.gallery answer).

(** A computation whose result satisfies [P] whatever has happened before. *)
Definition returns {S A} (P : A -> Prop) (m : Stateful S A) : Prop :=
  forall s, P (fst (m s)).

(** The trace once the row of the place has been selected (and the error
    of the select, if any, logged). *)
Definition afterSelect (w : Api.World) (params : Api.Params) (h : list Api.Event)
  : list Api.Event :=
  (h ++ Api.DbSelectPlace (Api.placeId params)
     :: (if Api.isSome (snd (Api.selectPlace w h (Api.placeId params)))
         then [Api.ConsoleError "Supabase select error"] else []))%list.

(** The photos a cached row is answered with, after its cover. *)
Definition cachedGallery (row : Api.PlaceRow) : list string :=
  Api.withoutCover
    (match Api.photo_gallery row with
     | Some (e :: es) => Api.galleryUrls (e :: es)
     | _ => []
     end).

(** The select of [getOrCachePlacePhotos] read on the table: the row of the
    place, by its key [(source, source_place_id)]. *)
Definition lookupPlace (placeId : string) (store : Api.Store)
  : option (string * Api.PlaceRow) :=
  List.find
    (fun entry =>
       String.eqb (Api.source (snd entry)) "google"
       && String.eqb (Api.source_place_id (snd entry)) placeId)
    store.

(** A computation that only appends events; [R] relates its result and the
    events it appends. *)
Definition yields {A} (R : A -> list Api.Event -> Prop)
    (m : Stateful (list Api.Event) A) : Prop :=
  forall h, exists a ev, m h = (a, (h ++ ev)%list) /\ R a ev.

(** A row with a cover and two photos that expires at time [5000], and a
    store that holds it, read at time [1000]. *)
Definition cachedCoverRow : Api.PlaceRow :=
  Api.mkPlaceRow "google" "place-1" "Sakura" None 1 2 "restaurant" None
    None None None (Some "555-0100") None None "" (Some "photo-a")
    (Some "data:image/jpeg;base64,AAAA")
    (Some [Api.mkGalleryEntry "photo-a" "data:image/jpeg;base64,AAAA" None None None;
           Api.mkGalleryEntry "photo-c" "data:image/jpeg;base64,CCCC" None None None])
    true None None None None (Some 0%Z) (Some 5000%Z).

Definition worldWithCachedRow : Api.World :=
  Api.mkWorld (Some "key") (fun _ => 1000%Z)
    (fun _ _ => (Some ("row-1", cachedCoverRow), None))
    (fun _ _ => Api.DetailsNotOk)
    (fun _ _ => Api.PhotoAnswered true "200" None "AAAA")
    (fun _ _ => (Some "row-1", None)) (fun _ _ => None).

(** What the events of a run say about a row it stored with a cover: the
    upsert is the only write of the run, the row has the key of the place,
    its cover and gallery are those of the answer, and it expires 30 days
    after a reading of the clock. *)
Definition storedWith (params : Api.Params) (answer : Api.PlaceDetails)
    (ev : list Api.Event) : Prop :=
  forall row, In (Api.DbUpsertPlace row) ev ->
    Api.truthy (Api.cover_image_base64 row) = true ->
    List.filter isPlaceWrite ev = [Api.DbUpsertPlace row]
    /\ Api.source row = "google"
    /\ Api.source_place_id row = Api.placeId params
    /\ Api.cover_image_base64 row = Some (Api.cover answer)
    /\ cachedGallery row = Api.gallery answer
    /\ exists later, In (Api.ClockRead later) ev
                     /\ Api.expires_at row = Some (later + Api.TTL_MS)%Z.

(** A later request for the same place: the store answers with the row the
    first run left, and the clock shows [1000]. *)
Definition worldAfterOneRun : Api.World :=
  Api.mkWorld (Some "key") (fun _ => 1000%Z)
    (fun _ placeId => (lookupPlace placeId tableAfterOneRun, None))
    (fun _ _ => Api.DetailsNotOk)
    (fun _ _ => Api.PhotoRejected "network")
    (fun _ _ => (Some "row-1", None)) (fun _ _ => None).

(** ** Reference definitions for the deck *)

Definition isRight (direction : Home.Direction) : bool :=
  match direction with Home.Right => true | Home.Left => false end.

(** A run of decisions, each taken in the state the one before left. *)
Definition decideAll (directions : list Home.Direction) (d : Home.Deck) : Home.Deck :=
  fold_left (fun d direction => fst (Home.handleDecision direction d)) directions d.

(** The timers those decisions start, in order. *)
Fixpoint timersOfAll (directions : list Home.Direction) (d : Home.Deck)
  : list Home.Timer :=
  match directions with
  | [] => []
  | direction :: rest =>
      (snd (Home.handleDecision direction d)
         ++ timersOfAll rest (fst (Home.handleDecision direction d)))%list
  end.

(** The cards that are still in the deck, each with the decision that meets
    it; decisions beyond the last card meet none. *)
Definition decided (directions : list Home.Direction) (d : Home.Deck)
  : list (FoodStore * Home.Direction) :=
  combine (skipn (Home.activeIndex d) (Home.restaurants d)) directions.

Definition isRefresh (t : Home.Timer) : bool :=
  match t with Home.FetchRecommendations _ => true | _ => false end.

(** A deck of three cards, eight decisions after the last refresh. *)
Definition sampleDeck : Home.Deck :=
  Home.mkDeck [chainA; chainB; chainC] 0 None None [] [] 0 false 8 true.

(** ** Reference definitions for the pages *)


(** The fetched restaurants that are not saved yet. *)
Definition newRestaurants (saved allRestaurants : list FoodStore) : list FoodStore :=
  filter (fun r => id r ∉ (list_to_set (map id saved) : gset string)) allRestaurants.

(** The text of a distance does not mention miles. *)
Definition withoutMiles (store : FoodStore) : Prop :=
  JS.includes (JS.toLowerCase (distance store)) "mi" = false.

(** * Properties *)

(** ** Comparisons and strings *)

Lemma ltb_true (a b : Q) : JS.ltb a b = true <-> a < b.
Proof.
  unfold JS.ltb. rewrite negb_true_iff, <- not_true_iff_false, Qle_bool_iff.
  split; [apply Qnot_le_lt | apply Qlt_not_le].
Qed.

Lemma ltb_false (a b : Q) : JS.ltb a b = false <-> b <= a.
Proof.
  unfold JS.ltb. rewrite negb_false_iff. apply Qle_bool_iff.
Qed.

Lemma leb_true (a b : Q) : JS.leb a b = true <-> a <= b.
Proof. apply Qle_bool_iff. Qed.

Lemma leb_false (a b : Q) : JS.leb a b = false <-> b < a.
Proof.
  unfold JS.leb. rewrite <- not_true_iff_false, Qle_bool_iff.
  split; [apply Qnot_le_lt | apply Qlt_not_le].
Qed.

Lemma Qeq_bool_false (a b : Q) : Qeq_bool a b = false <-> ~ a == b.
Proof. rewrite <- not_true_iff_false, Qeq_bool_iff. reflexivity. Qed.

(** Splits on every comparison of the goal and turns the outcomes into
    facts about rationals. *)
Ltac qbool_facts :=
  repeat match goal with
    | H : JS.ltb _ _ = true |- _ => apply ltb_true in H
    | H : JS.ltb _ _ = false |- _ => apply ltb_false in H
    | H : JS.leb _ _ = true |- _ => apply leb_true in H
    | H : JS.leb _ _ = false |- _ => apply leb_false in H
    | H : Qeq_bool _ _ = true |- _ => apply Qeq_bool_iff in H
    | H : Qeq_bool _ _ = false |- _ => apply Qeq_bool_false in H
    end.

Ltac qcases :=
  unfold JS.gtb, JS.geb in *;
  repeat match goal with
    | |- context [JS.ltb ?a ?b] => destruct (JS.ltb a b) eqn:?
    | |- context [JS.leb ?a ?b] => destruct (JS.leb a b) eqn:?
    | |- context [Qeq_bool ?a ?b] => destruct (Qeq_bool a b) eqn:?
    end;
  qbool_facts; simpl.

Lemma toLowerCase_falsy (s : string) :
  JS.falsy (JS.toLowerCase s) = JS.falsy s.
Proof. destruct s; reflexivity. Qed.

Lemma parseFloat_empty : JS.parseFloat "" = None.
Proof. reflexivity. Qed.

(** A text with a numeric prefix is not empty. *)
Lemma parseFloat_Some_not_falsy (s : string) (n : Q) :
  JS.parseFloat (JS.toLowerCase s) = Some n -> JS.falsy s = false.
Proof.
  destruct s; [discriminate | reflexivity].
Qed.

(** A text that holds ["mile"] holds ["mi"]. *)
Lemma includes_prefix (s a b : string) :
  JS.includes s (a ++ b) = true -> JS.includes s a = true.
Proof.
  induction s as [|c s IH]; simpl.
  - destruct a; simpl; [reflexivity|]. destruct b; discriminate.
  - destruct a as [|x a]; [reflexivity|].
    simpl. destruct (Ascii.ascii_dec x c) as [->|Hne].
    + destruct (String.prefix (a ++ b) s) eqn:Hp.
      * intros _.
        assert (String.prefix a s = true) as ->; [|reflexivity].
        clear IH. revert s Hp. induction a as [|y a IHa]; intros s Hp.
        -- destruct s; reflexivity.
        -- destruct s as [|d s]; simpl in *; [discriminate|].
           destruct (Ascii.ascii_dec y d); [apply IHa; assumption | discriminate].
      * intros H. destruct (String.prefix a s); [reflexivity | apply IH, H].
    + apply IH.
Qed.

Example parseFloat_km : JS.parseFloat "0.6 km away" = Some (3 # 5).
Proof. reflexivity. Qed.

Example parseFloat_exponent : JS.parseFloat "  -1.5e2x" = Some (-150 # 1).
Proof. reflexivity. Qed.

Example parseFloat_lone_dot : JS.parseFloat ".e3" = None.
Proof. reflexivity. Qed.

Example parseFloat_no_prefix : JS.parseFloat "about 2 km" = None.
Proof. reflexivity. Qed.

(** ** The distance parsers *)

(** On the main page a numeric prefix with a miles indicator anywhere in the
    text is read as miles, whatever else the text holds. *)
Lemma MainPage_parse_miles (distance : string) (n : Q) :
  JS.parseFloat (JS.toLowerCase distance) = Some n ->
  JS.includes (JS.toLowerCase distance) "mi" = true
  \/ JS.includes (JS.toLowerCase distance) "mile" = true ->
  MainPage.parseDistanceToMeters distance = Some (n * 1609.34).
Proof.
  intros Hnum Hmi. unfold MainPage.parseDistanceToMeters.
  rewrite (parseFloat_Some_not_falsy _ _ Hnum), Hnum.
  assert (JS.includes (JS.toLowerCase distance) "mi" = true) as ->.
  { destruct Hmi as [H|H]; [exact H|].
    apply (includes_prefix _ "mi" "le"), H. }
  reflexivity.
Qed.

Lemma MainPage_parse_miles_witness :
  MainPage.parseDistanceToMeters "2 Miles away" = Some (2 * 1609.34).
Proof.
  apply MainPage_parse_miles; [reflexivity | left; reflexivity].
Defined.

(** Without a numeric prefix both parsers answer [null]. *)
Lemma MainPage_parse_no_number (distance : string) :
  JS.parseFloat (JS.toLowerCase distance) = None ->
  MainPage.parseDistanceToMeters distance = None.
Proof.
  intros H. unfold MainPage.parseDistanceToMeters. rewrite H.
  destruct (JS.falsy distance); reflexivity.
Qed.

Lemma RecsPage_parse_no_number (distance : string) (cache : gmap string (option Q)) :
  cache !! distance = None ->
  JS.parseFloat (JS.toLowerCase distance) = None ->
  fst (RecsPage.parseDistanceToMeters distance cache) = None.
Proof.
  intros Hc H. unfold RecsPage.parseDistanceToMeters. rewrite Hc, H.
  destruct (JS.falsy distance); reflexivity.
Qed.

(** C3. The claim: a numeric prefix [n] followed by a miles indicator is read
    as [n * 1609.34] metres, and the "m" of "mile" is never read as metres.
    The parser of the recommendations page has no miles branch: on the text
    "2 miles away", with an empty cache, it answers 2 (metres), where the
    parser of the main page answers [2 * 1609.34]. *)
Theorem RecsPage_parse_reads_miles_as_meters :
  fst (RecsPage.parseDistanceToMeters "2 miles away" ∅) = Some 2
  /\ MainPage.parseDistanceToMeters "2 miles away" = Some (2 * 1609.34)
  /\ ~ (2 == 2 * 1609.34).
Proof.
  split; [reflexivity | split; [reflexivity |]].
  intros H. vm_compute in H. discriminate.
Qed.

(** ** Scenario A *)

(** C1. For the saved list of scenario A, [extractPreferences] gives
    [avgRating = 4.5] and [avgDistance = 500], and [scoreRecommendation] of
    the candidate against that profile, without a pre-computed distance, is
    exactly 75.5. *)
Theorem scenario_A_score :
  avgRating (MainPage.extractPreferences scenarioA_saved) == 4.5
  /\ avgDistance (MainPage.extractPreferences scenarioA_saved) == 500
  /\ MainPage.scoreRecommendation scenarioA_candidate
       (MainPage.extractPreferences scenarioA_saved) None == 75.5.
Proof.
  repeat split; vm_compute; reflexivity.
Qed.

(** The terms of scenario A, one by one: 8, then 20 + 8 + 0.5, then
    15 + 12 + 7, then 5. *)
Example scenario_A_terms :
  let p := MainPage.extractPreferences scenarioA_saved in
  let c := scenarioA_candidate in
  MainPage.cuisineMatch c p 0 == 8
  /\ MainPage.ratingScoring c p 0 == 28.5
  /\ MainPage.distanceScoring (MainPage.parseDistanceToMeters (distance c)) p 0 == 34
  /\ MainPage.priceLevelScoring c p 0 == 5.
Proof.
  repeat split; vm_compute; reflexivity.
Qed.

(** ** The empty profile *)


Lemma extractPreferences_nil : MainPage.extractPreferences [] = emptyPreferences.
Proof. reflexivity. Qed.

Lemma RecsPage_extractPreferences_nil (cache : gmap string (option Q)) :
  RecsPage.extractPreferences [] cache = (emptyPreferences, cache).
Proof. reflexivity. Qed.

(** C4, as stated, fails: with the empty profile a candidate that has a
    price level gets -1 from the price-level term, on both pages. *)
Lemma empty_profile_price_penalty :
  MainPage.priceLevelScoring pricedCandidate (MainPage.extractPreferences []) 0 == -1
  /\ RecsPage.priceLevelScoring pricedCandidate
       (fst (RecsPage.extractPreferences [] ∅)) 0 == -1
  /\ ~ (MainPage.priceLevelScoring pricedCandidate (MainPage.extractPreferences []) 0 == 0).
Proof.
  repeat split; try (vm_compute; reflexivity).
  intros H. vm_compute in H. discriminate.
Qed.

(** C4, amended.  With the profile of the empty saved list, for every
    candidate and on both pages: the cuisine and spice-level terms add
    nothing; the price-level term adds -1 when the candidate has a price
    level and nothing otherwise; for a candidate with a positive rating the
    rating term is [rating * 3] followed by the social-proof term, and
    nothing without one; the distance term is the absolute-proximity bands
    alone (nothing without a positive parsed distance). *)
Theorem empty_profile_terms (r : FoodStore) (cache : gmap string (option Q)) (score : Q) :
  let p := MainPage.extractPreferences [] in
  let p' := fst (RecsPage.extractPreferences [] cache) in
  (MainPage.cuisineMatch r p score = score
   /\ RecsPage.cuisineMatch r p' score = score)
  /\ (MainPage.spiceLevelScoring r p score = score
      /\ RecsPage.spiceLevelScoring r p' score = score)
  /\ (MainPage.priceLevelScoring r p score
        = match priceLevel r with Some _ => score + -1 | None => score end
      /\ RecsPage.priceLevelScoring r p' score
        = match priceLevel r with Some _ => score + -1 | None => score end)
  /\ (MainPage.ratingScoring r p score
        = match rating r with
          | Some x => if JS.gtb x 0 then MainPage.socialProof r (score + x * 3) else score
          | None => score
          end
      /\ RecsPage.ratingScoring r p' score
        = match rating r with
          | Some x => if JS.gtb x 0 then RecsPage.socialProof r (score + x * 3) else score
          | None => score
          end)
  /\ (forall meters : option Q,
        MainPage.distanceScoring meters p score
          = match meters with
            | Some m => if JS.gtb m 0 then MainPage.proximityBands m score else score
            | None => score
            end
        /\ RecsPage.distanceScoring meters p' score
          = match meters with
            | Some m => if JS.gtb m 0 then RecsPage.proximityBands m score else score
            | None => score
            end).
Proof.
  cbn zeta. rewrite extractPreferences_nil, RecsPage_extractPreferences_nil.
  cbn [fst].
  split; [split; reflexivity|].
  split; [split; reflexivity|].
  split.
  { unfold MainPage.priceLevelScoring, RecsPage.priceLevelScoring.
    destruct (priceLevel r); split; reflexivity. }
  split.
  { unfold MainPage.ratingScoring, RecsPage.ratingScoring.
    destruct (rating r) as [x|]; [|split; reflexivity].
    destruct (JS.gtb x 0); split; reflexivity. }
  intros [m|]; [|split; reflexivity].
  unfold MainPage.distanceScoring, RecsPage.distanceScoring.
  cbn [isFinite andb].
  destruct (JS.gtb m 0); split; reflexivity.
Qed.

(** ** The cuisine term *)

(** C5. For every candidate, every running score and any two profiles with
    the same number of saved places: if the candidate's cuisine is counted
    no more often in the first profile than in the second, the cuisine term
    of the first is no larger (on both pages); a count of 3 or more gives
    exactly +25, a count of 1 gives +8 and a count of 2 gives +16. *)
Theorem cuisine_term_monotone_saturating
    (r : FoodStore) (p1 p2 : UserPreferences) (score : Q)
    (Hsaved : totalSaved p1 == totalSaved p2)
    (Hcount : countOf (favoriteCuisines p1) (cuisine r)
              <= countOf (favoriteCuisines p2) (cuisine r)) :
  (MainPage.cuisineMatch r p1 score <= MainPage.cuisineMatch r p2 score
   /\ RecsPage.cuisineMatch r p1 score <= RecsPage.cuisineMatch r p2 score)
  /\ (3 <= countOf (favoriteCuisines p2) (cuisine r) ->
      MainPage.cuisineMatch r p2 score == score + 25
      /\ RecsPage.cuisineMatch r p2 score == score + 25)
  /\ (countOf (favoriteCuisines p2) (cuisine r) == 1 ->
      MainPage.cuisineMatch r p2 score == score + 8 * 1
      /\ RecsPage.cuisineMatch r p2 score == score + 8 * 1)
  /\ (countOf (favoriteCuisines p2) (cuisine r) == 2 ->
      MainPage.cuisineMatch r p2 score == score + 8 * 2
      /\ RecsPage.cuisineMatch r p2 score == score + 8 * 2).
Proof.
  unfold MainPage.cuisineMatch, RecsPage.cuisineMatch.
  set (c1 := countOf (favoriteCuisines p1) (cuisine r)) in *.
  set (c2 := countOf (favoriteCuisines p2) (cuisine r)) in *.
  cbn zeta.
  split; [split; qcases; lra|].
  split; [intros Hc; split; qcases; lra|].
  split; intros Hc; split; qcases; lra.
Qed.

Lemma cuisine_term_monotone_saturating_witness :
  (MainPage.cuisineMatch italianCandidate (profileWithItalian 2) 0
     <= MainPage.cuisineMatch italianCandidate (profileWithItalian 7) 0
   /\ RecsPage.cuisineMatch italianCandidate (profileWithItalian 2) 0
     <= RecsPage.cuisineMatch italianCandidate (profileWithItalian 7) 0)
  /\ MainPage.cuisineMatch italianCandidate (profileWithItalian 7) 0 == 0 + 25.
Proof.
  pose proof (cuisine_term_monotone_saturating italianCandidate
                (profileWithItalian 2) (profileWithItalian 7) 0) as H.
  destruct H as [Hmono [Hsat _]].
  - reflexivity.
  - vm_compute. discriminate.
  - split; [exact Hmono|]. apply Hsat. vm_compute. discriminate.
Defined.

(** ** The preference extractor *)






(** The arithmetic of scenario A in binary64, the numbers JavaScript
    computes with: each step gives the same value as over the rationals
    ([6 / 10] and [46 / 10] are the doubles of the literals 0.6 and 4.6). *)
Example scenario_A_in_binary64 :
  (PrimFloat.eqb (5 / 10 * 1000) 500
   && PrimFloat.eqb (6 / 10 * 1000) 600
   && PrimFloat.ltb (PrimFloat.abs (46 / 10 - 4.5)) 0.5
   && PrimFloat.leb 4 4.5 && PrimFloat.leb 4.5 (46 / 10)
   && PrimFloat.eqb (150 / 300) 0.5
   && PrimFloat.ltb (PrimFloat.abs (600 - 500)) 500
   && PrimFloat.ltb 500 1000 && PrimFloat.ltb 600 1500
   && negb (PrimFloat.ltb 600 500) && PrimFloat.ltb 600 1000
   && PrimFloat.eqb (0 + 8 + 20 + 8 + 0.5 + 15 + 12 + 7 + 1 * 5) 75.5)%float
  = true.
Proof. vm_compute. reflexivity. Qed.

(** ** The two scorers *)

Lemma consistentCache_empty : consistentCache ∅.
Proof. intros k v H. rewrite lookup_empty in H. discriminate. Qed.

(** Memoisation is transparent: on a consistent cache the parser answers as
    without a cache, and leaves the cache consistent. *)
Lemma RecsPage_parse_memo (distance : string) (cache : gmap string (option Q)) :
  consistentCache cache ->
  fst (RecsPage.parseDistanceToMeters distance cache) = RecsPage_parseUncached distance
  /\ consistentCache (snd (RecsPage.parseDistanceToMeters distance cache)).
Proof.
  intros Hc. unfold RecsPage_parseUncached, RecsPage.parseDistanceToMeters.
  rewrite lookup_empty.
  destruct (JS.falsy distance) eqn:Hf; [split; [reflexivity | exact Hc]|].
  destruct (cache !! distance) as [v|] eqn:Hl.
  - split; [|exact Hc]. cbn [fst]. rewrite (Hc _ _ Hl).
    unfold RecsPage_parseUncached, RecsPage.parseDistanceToMeters.
    rewrite Hf, lookup_empty. reflexivity.
  - destruct (JS.parseFloat (JS.toLowerCase distance)) as [num|] eqn:Hp;
      (split; [reflexivity|]); cbn [snd]; intros k v Hk;
      destruct (decide (distance = k)) as [<-|Hne].
    + rewrite lookup_insert_eq in Hk. injection Hk as <-.
      unfold RecsPage_parseUncached, RecsPage.parseDistanceToMeters.
      rewrite Hf, lookup_empty, Hp. reflexivity.
    + rewrite lookup_insert_ne in Hk by exact Hne. exact (Hc _ _ Hk).
    + rewrite lookup_insert_eq in Hk. injection Hk as <-.
      unfold RecsPage_parseUncached, RecsPage.parseDistanceToMeters.
      rewrite Hf, lookup_empty, Hp. reflexivity.
    + rewrite lookup_insert_ne in Hk by exact Hne. exact (Hc _ _ Hk).
Qed.

(** The parsers agree on every text without "mi". *)
Lemma parsers_agree_without_mi (distance : string) :
  JS.includes (JS.toLowerCase distance) "mi" = false ->
  MainPage.parseDistanceToMeters distance = RecsPage_parseUncached distance.
Proof.
  intros Hmi.
  unfold RecsPage_parseUncached, RecsPage.parseDistanceToMeters,
    MainPage.parseDistanceToMeters.
  rewrite lookup_empty.
  destruct (JS.falsy distance); [reflexivity|].
  destruct (JS.parseFloat (JS.toLowerCase distance)) as [num|]; [|reflexivity].
  cbn [fst]. rewrite Hmi.
  assert (JS.includes (JS.toLowerCase distance) "mile" = false) as ->.
  { destruct (JS.includes (JS.toLowerCase distance) "mile") eqn:H; [|reflexivity].
    apply (includes_prefix _ "mi" "le") in H. congruence. }
  cbn [orb negb andb].
  destruct (JS.includes (JS.toLowerCase distance) "km"); [reflexivity|].
  destruct (JS.includes (JS.toLowerCase distance) "m"); reflexivity.
Qed.

(** Block by block the two scorers add the same amounts. *)
Lemma blocks_agree (r : FoodStore) (p : UserPreferences) (meters : option Q)
    (s s' : Q) :
  s == s' ->
  MainPage.cuisineMatch r p s == RecsPage.cuisineMatch r p s'
  /\ MainPage.ratingScoring r p s == RecsPage.ratingScoring r p s'
  /\ MainPage.distanceScoring meters p s == RecsPage.distanceScoring meters p s'
  /\ MainPage.priceLevelScoring r p s == RecsPage.priceLevelScoring r p s'
  /\ MainPage.spiceLevelScoring r p s == RecsPage.spiceLevelScoring r p s'
  /\ MainPage.diversityBonus r p s == RecsPage.diversityBonus r p s'
  /\ MainPage.qualityIndicators r s == RecsPage.qualityIndicators r s'.
Proof.
  intros Hs.
  split; [unfold MainPage.cuisineMatch, RecsPage.cuisineMatch; cbn zeta; qcases; lra|].
  split.
  { unfold MainPage.ratingScoring, RecsPage.ratingScoring,
      MainPage.socialProof, RecsPage.socialProof,
      MainPage.ratingAlignment, RecsPage.ratingAlignment.
    destruct (rating r) as [x|]; [|exact Hs].
    destruct (ratingCount r) as [n|]; cbn zeta; qcases; lra. }
  split.
  { unfold MainPage.distanceScoring, RecsPage.distanceScoring,
      MainPage.proximityBands, RecsPage.proximityBands,
      MainPage.distanceAlignment, RecsPage.distanceAlignment.
    destruct meters as [m|]; [|exact Hs].
    cbn [isFinite andb]. cbn zeta. qcases; lra. }
  split.
  { unfold MainPage.priceLevelScoring, RecsPage.priceLevelScoring.
    destruct (priceLevel r); [|exact Hs]. cbn zeta. qcases; lra. }
  split; [unfold MainPage.spiceLevelScoring, RecsPage.spiceLevelScoring;
          cbn zeta; qcases; lra|].
  split; [unfold MainPage.diversityBonus, RecsPage.diversityBonus;
          cbn zeta; qcases; lra|].
  unfold MainPage.qualityIndicators, RecsPage.qualityIndicators.
  destruct (isNew r), (openNow r); lra.
Qed.

(** Where the two parsers give the same distance, the two scorers give the
    same score. *)
Lemma scorers_agree_where_parsers_agree (r : FoodStore) (p : UserPreferences)
    (cache : gmap string (option Q)) :
  consistentCache cache ->
  MainPage.parseDistanceToMeters (distance r) = RecsPage_parseUncached (distance r) ->
  fst (RecsPage.scoreRecommendation r p cache)
  == MainPage.scoreRecommendation r p None.
Proof.
  intros Hc Hparse.
  unfold RecsPage.scoreRecommendation, MainPage.scoreRecommendation, bind, ret.
  destruct (RecsPage_parse_memo (distance r) cache Hc) as [Hm _].
  destruct (RecsPage.parseDistanceToMeters (distance r) cache) as [meters cache'].
  cbn [fst] in *. rewrite Hparse, Hm.
  set (m := RecsPage_parseUncached (distance r)).
  symmetry.
  apply (blocks_agree r p m). apply (blocks_agree r p m).
  apply (blocks_agree r p m). apply (blocks_agree r p m).
  apply (blocks_agree r p m). apply (blocks_agree r p m).
  apply (blocks_agree r p m). reflexivity.
Qed.

(** C10. The claim: the two scorers return equal scores for every
    restaurant and profile.  For a candidate "3 mi away" and the profile of
    scenario A the scorer of the main page returns 42.5 (4828 m: only the
    [< 5000] band) and the scorer of the recommendations page, with an empty
    distance cache, returns 78.5 (it reads 3 m). *)
Theorem scorers_differ_on_miles :
  MainPage.scoreRecommendation milesCandidate
    (MainPage.extractPreferences scenarioA_saved) None == 42.5
  /\ fst (RecsPage.scoreRecommendation milesCandidate
            (MainPage.extractPreferences scenarioA_saved) ∅) == 78.5
  /\ fst (RecsPage.extractPreferences scenarioA_saved ∅)
     = MainPage.extractPreferences scenarioA_saved.
Proof.
  split; [vm_compute; reflexivity|].
  split; [vm_compute; reflexivity|].
  vm_compute. reflexivity.
Qed.

(** ** The ranking *)

Section SortProperties.
Context {S A : Type}.
Variable cmpM : A -> A -> Stateful S Num.
Variable cmp : A -> A -> Num.
Variable I : S -> Prop.

(** The comparator reads the state but answers as [cmp], and keeps [I]. *)
Hypothesis cmpM_pure :
  forall a b s, I s -> fst (cmpM a b s) = cmp a b /\ I (snd (cmpM a b s)).

Lemma insertSorted_pure (x : A) (placed : list A) (s : S) :
  I s ->
  fst (insertSorted cmpM x placed s) = insertPure cmp x placed
  /\ I (snd (insertSorted cmpM x placed s)).
Proof.
  revert s. induction placed as [|y r IH]; intros s Hs; cbn.
  - split; [reflexivity | exact Hs].
  - unfold bind. destruct (cmpM_pure y x s Hs) as [Hc Hs'].
    destruct (cmpM y x s) as [c s']. cbn [fst snd] in *. subst c.
    destruct (Num_positive (cmp y x)).
    + split; [reflexivity | exact Hs'].
    + destruct (IH s' Hs') as [Hr Hs''].
      destruct (insertSorted cmpM x r s') as [r' s'']. cbn [fst snd] in *.
      subst r'. split; [reflexivity | exact Hs''].
Qed.

Lemma foldM_insert_pure (l placed : list A) (s : S) :
  I s ->
  fst (foldM (fun placed x => insertSorted cmpM x placed) l placed s)
  = fold_left (fun placed x => insertPure cmp x placed) l placed
  /\ I (snd (foldM (fun placed x => insertSorted cmpM x placed) l placed s)).
Proof.
  revert placed s. induction l as [|x l IH]; intros placed s Hs; cbn.
  - split; [reflexivity | exact Hs].
  - unfold bind. destruct (insertSorted_pure x placed s Hs) as [Hp Hs'].
    destruct (insertSorted cmpM x placed s) as [placed' s'].
    cbn [fst snd] in *. subst placed'. apply IH, Hs'.
Qed.

Lemma sort_pure (l : list A) (s : S) :
  I s ->
  fst (sort cmpM l s) = sortPure cmp l /\ I (snd (sort cmpM l s)).
Proof. apply foldM_insert_pure. Qed.

Lemma insertPure_Permutation (x : A) (placed : list A) :
  Permutation (insertPure cmp x placed) (x :: placed).
Proof.
  induction placed as [|y r IH]; cbn; [reflexivity|].
  destruct (Num_positive (cmp y x)); [reflexivity|].
  rewrite IH. apply perm_swap.
Qed.

Lemma sortPure_Permutation (l : list A) : Permutation (sortPure cmp l) l.
Proof.
  unfold sortPure.
  enough (forall placed,
             Permutation (fold_left (fun placed x => insertPure cmp x placed) l placed)
                         (placed ++ l)) as H by apply (H []).
  induction l as [|x l IH]; intros placed; cbn.
  - rewrite app_nil_r. reflexivity.
  - rewrite IH, insertPure_Permutation. apply Permutation_middle.
Qed.

(** Of two elements the comparator puts at most one after the other. *)
Hypothesis cmp_asym :
  forall x y, Num_positive (cmp y x) = true -> Num_positive (cmp x y) = false.

Lemma insertPure_Sorted (x : A) (placed : list A) :
  Sorted (mayPrecede cmp) placed -> Sorted (mayPrecede cmp) (insertPure cmp x placed).
Proof.
  induction placed as [|y r IH]; intros Hs; cbn.
  - repeat constructor.
  - destruct (Num_positive (cmp y x)) eqn:Hyx.
    + constructor; [exact Hs|]. constructor. apply cmp_asym, Hyx.
    + apply Sorted_inv in Hs. destruct Hs as [Hr Hhd].
      constructor; [apply IH, Hr|].
      destruct r as [|z r]; cbn.
      * constructor. exact Hyx.
      * destruct (Num_positive (cmp z x)); constructor;
          [exact Hyx | inversion Hhd; assumption].
Qed.

Lemma sortPure_Sorted (l : list A) : Sorted (mayPrecede cmp) (sortPure cmp l).
Proof.
  unfold sortPure.
  enough (forall placed, Sorted (mayPrecede cmp) placed ->
            Sorted (mayPrecede cmp)
              (fold_left (fun placed x => insertPure cmp x placed) l placed)) as H
      by (apply H; constructor).
  induction l as [|x l IH]; intros placed Hp; cbn; [exact Hp|].
  apply IH, insertPure_Sorted, Hp.
Qed.
End SortProperties.


Lemma Sorted_weaken {A} (R R' : A -> A -> Prop) (l : list A) :
  (forall x y, R x y -> R' x y) -> Sorted R l -> Sorted R' l.
Proof.
  intros HR. induction 1 as [|x l Hl IH Hhd]; constructor; [exact IH|].
  destruct Hhd; constructor. apply HR. assumption.
Qed.




Lemma MainPage_compareScored_eq (a b : Scored) :
  MainPage.compareScored a b = compareWith MainPage.parseDistanceToMeters a b.
Proof. reflexivity. Qed.

(** On a consistent cache the comparator of the recommendations page answers
    as the comparator over the parser without cache. *)
Lemma RecsPage_compareScored_pure (a b : Scored) (cache : gmap string (option Q)) :
  consistentCache cache ->
  fst (RecsPage.compareScored a b cache) = compareWith RecsPage_parseUncached a b
  /\ consistentCache (snd (RecsPage.compareScored a b cache)).
Proof.
  intros Hc. unfold RecsPage.compareScored, compareWith. cbn zeta.
  destruct (JS.gtb (Qabs (score b - score a)) 0.1); [split; [reflexivity | exact Hc]|].
  destruct (negb (Qeq_bool _ _)); [split; [reflexivity | exact Hc]|].
  unfold bind, ret.
  destruct (RecsPage_parse_memo (distance (restaurant a)) cache Hc) as [Ha Hc'].
  destruct (RecsPage.parseDistanceToMeters (distance (restaurant a)) cache)
    as [da cache']. cbn [fst snd] in *.
  destruct (RecsPage_parse_memo (distance (restaurant b)) cache' Hc') as [Hb Hc''].
  destruct (RecsPage.parseDistanceToMeters (distance (restaurant b)) cache')
    as [db cache'']. cbn [fst snd] in *.
  subst. split; [reflexivity | exact Hc''].
Qed.

Section Invariants.
Context {S A B : Type}.
Variable I : S -> Prop.

Lemma mapM_invariant (f : A -> Stateful S B) (l : list A) (s : S) :
  (forall x s, I s -> I (snd (f x s))) -> I s -> I (snd (mapM f l s)).
Proof.
  intros Hf. revert s. induction l as [|x l IH]; intros s Hs; cbn; [exact Hs|].
  unfold bind, ret. specialize (Hf x s Hs).
  destruct (f x s) as [y s']. cbn [snd] in *.
  specialize (IH s' Hf). destruct (mapM f l s') as [ys s'']. exact IH.
Qed.

Lemma foldM_invariant (f : B -> A -> Stateful S B) (l : list A) (b : B) (s : S) :
  (forall b x s, I s -> I (snd (f b x s))) -> I s -> I (snd (foldM f l b s)).
Proof.
  intros Hf. revert b s. induction l as [|x l IH]; intros b s Hs; cbn; [exact Hs|].
  unfold bind. specialize (Hf b x s Hs).
  destruct (f b x s) as [b' s']. cbn [snd] in *. apply IH, Hf.
Qed.
End Invariants.

Lemma RecsPage_extractPreferences_consistent (saved : list FoodStore)
    (cache : gmap string (option Q)) :
  consistentCache cache ->
  consistentCache (snd (RecsPage.extractPreferences saved cache)).
Proof.
  intros Hc. unfold RecsPage.extractPreferences.
  destruct saved as [|store saved]; [exact Hc|].
  unfold bind, ret.
  match goal with
  | |- context [foldM ?f ?l ?b cache] =>
      pose proof (foldM_invariant consistentCache f l b cache) as H;
      destruct (foldM f l b cache) as [t cache']
  end.
  cbn [snd] in *. apply H; [|exact Hc].
  intros t0 x s Hs. unfold bind, ret.
  destruct (RecsPage_parse_memo (distance x) s Hs) as [_ Hs'].
  destruct (RecsPage.parseDistanceToMeters (distance x) s). exact Hs'.
Qed.

Lemma RecsPage_scoreRecommendation_consistent (r : FoodStore) (p : UserPreferences)
    (cache : gmap string (option Q)) :
  consistentCache cache ->
  consistentCache (snd (RecsPage.scoreRecommendation r p cache)).
Proof.
  intros Hc. unfold RecsPage.scoreRecommendation, bind, ret.
  destruct (RecsPage_parse_memo (distance r) cache Hc) as [_ Hc'].
  destruct (RecsPage.parseDistanceToMeters (distance r) cache). exact Hc'.
Qed.

Example chain_scores :
  score (chainScored chainA) == 47.5
  /\ score (chainScored chainB) == 47.58
  /\ score (chainScored chainC) == 47.66.
Proof. repeat split; vm_compute; reflexivity. Qed.




(** With the insertion sort, the main page returns [c; a; b] for them. *)
Example chain_ranking :
  MainPage.fetchRecommendations true chainSaved [chainA; chainB; chainC]
  = Some [chainScored chainC; chainScored chainA; chainScored chainB].
Proof. vm_compute. reflexivity. Qed.


Lemma slice0_length {A} (n : nat) (l : list A) : (length (slice0 n l) <= n)%nat.
Proof. unfold slice0. apply firstn_le_length. Qed.


Lemma MainPage_sort_eq (l : list Scored) :
  fst (sort (fun a b => ret (MainPage.compareScored a b)) l tt)
  = sortPure (compareWith MainPage.parseDistanceToMeters) l.
Proof.
  apply (sort_pure _ (compareWith MainPage.parseDistanceToMeters) (fun _ => True));
    [|exact Logic.I].
  intros a b s _. split; [reflexivity | exact Logic.I].
Qed.

(** Scoring keeps the restaurants and their order. *)
Lemma mapM_restaurants {S} (f : FoodStore -> Stateful S Scored)
    (l : list FoodStore) (s : S) :
  (forall r s, restaurant (fst (f r s)) = r) ->
  map restaurant (fst (mapM f l s)) = l.
Proof.
  intros Hf. revert s. induction l as [|r l IH]; intros s; cbn; [reflexivity|].
  unfold bind, ret. specialize (Hf r s).
  destruct (f r s) as [y s']. specialize (IH s').
  destruct (mapM f l s') as [ys s'']. cbn [fst map] in *.
  rewrite Hf, IH. reflexivity.
Qed.



(** ** Per-place enrichment *)



(** *** Photo fetches *)

Lemma fetchGooglePhotoDataUrl_run (w : Api.World) (ref apiKey : string)
    (h : list Api.Event) :
  exists res,
    Api.fetchGooglePhotoDataUrl w ref apiKey 900 h
    = (res, (h ++ [Api.FetchPhoto ref 900])%list)
    /\ match photoDataUrl (Api.photoResponse w h ref) with
       | Some u => res = inr u
       | None => exists message, res = inl message
       end.
Proof.
  unfold Api.fetchGooglePhotoDataUrl, Api.call, bind, ret, photoDataUrl.
  destruct (Api.photoResponse w h ref) as [m| |[] st ct b]; eauto.
Qed.

(** One photo: a first fetch; if it throws, a pause of 100 ms and a second
    fetch; if that throws too, the error is logged and the photo dropped. *)
Lemma fetchPhotoWithRetries_two (w : Api.World) (apiKey : string)
    (photo : Api.PhotoRef) (h : list Api.Event) :
  let ref := Api.photo_reference photo in
  let first := [Api.FetchPhoto ref 900] in
  let second := [Api.FetchPhoto ref 900; Api.Sleep 100; Api.FetchPhoto ref 900] in
  Api.fetchPhotoWithRetries w apiKey photo 2 h
  = match photoDataUrl (Api.photoResponse w h ref) with
    | Some u => (Some (entryOf photo u), (h ++ first)%list)
    | None =>
        match photoDataUrl
                (Api.photoResponse w (h ++ [Api.FetchPhoto ref 900; Api.Sleep 100])%list ref)
        with
        | Some u => (Some (entryOf photo u), (h ++ second)%list)
        | None =>
            (None,
             (h ++ second ++ [Api.ConsoleError "Unable to fetch photo after retries"])%list)
        end
    end.
Proof.
  cbn zeta. cbn [Api.fetchPhotoWithRetries]. unfold bind at 1.
  destruct (fetchGooglePhotoDataUrl_run w (Api.photo_reference photo) apiKey h)
    as (res & -> & Hres).
  destruct (photoDataUrl (Api.photoResponse w h (Api.photo_reference photo))) as [u|].
  { subst res. reflexivity. }
  destruct Hres as [message ->].
  unfold bind at 1. unfold Api.emit at 1. unfold bind at 1.
  rewrite <- app_assoc. cbn [app].
  match goal with
  | |- context [Api.fetchGooglePhotoDataUrl w ?r apiKey 900 ?h'] =>
      destruct (fetchGooglePhotoDataUrl_run w r apiKey h') as (res & -> & Hres)
  end.
  destruct (photoDataUrl _) as [u|].
  - subst res. unfold ret. rewrite <- app_assoc. reflexivity.
  - destruct Hres as [message' ->]. unfold bind, Api.emit, ret.
    rewrite <- !app_assoc. reflexivity.
Qed.

(** A photo costs at most two fetches. *)
Lemma fetchPhotoWithRetries_attempts (w : Api.World) (apiKey : string)
    (photo : Api.PhotoRef) (h : list Api.Event) :
  exists ev,
    snd (Api.fetchPhotoWithRetries w apiKey photo 2 h) = (h ++ ev)%list
    /\ (1 <= attempts (Api.photo_reference photo) ev <= 2)%nat.
Proof.
  rewrite fetchPhotoWithRetries_two. cbn zeta.
  destruct (photoDataUrl _) as [u|]; [|destruct (photoDataUrl _) as [u|]];
    eexists; (split; [reflexivity|]); unfold attempts; cbn;
    rewrite String.eqb_refl; cbn; lia.
Qed.

Lemma photoDataUrl_not_falsy (r : Api.PhotoResponse) (u : string) :
  photoDataUrl r = Some u -> JS.falsy u = false.
Proof.
  destruct r as [m| |[] st ct b]; try discriminate. intros [= <-]. reflexivity.
Qed.

Lemma firstn_min_length {A} (k : nat) (l : list A) :
  firstn (Nat.min k (length l)) l = firstn k l.
Proof.
  destruct (Nat.le_ge_cases k (length l)) as [H|H].
  - rewrite Nat.min_l by exact H. reflexivity.
  - rewrite Nat.min_r by exact H.
    rewrite firstn_all, firstn_all2 by exact H. reflexivity.
Qed.

(** The loop over the photo references: every reference is fetched, whatever
    became of the ones before it; the entries added are those of the photos
    whose fetch succeeded. *)
Lemma fetchPhotos_run (w : Api.World) (apiKey : string) (photoRefs : list Api.PhotoRef) :
  forall (galleryEntries : list Api.GalleryEntry) (h : list Api.Event),
  exists new ev,
    Api.fetchPhotos w apiKey photoRefs galleryEntries h
    = ((galleryEntries ++ new)%list, (h ++ ev)%list)
    /\ (length new <= length photoRefs)%nat
    /\ (forall photo, In photo photoRefs ->
          JS.falsy (Api.photo_reference photo) = false ->
          In (Api.FetchPhoto (Api.photo_reference photo) 900) ev)
    /\ (forall photo u, In photo photoRefs ->
          JS.falsy (Api.photo_reference photo) = false ->
          alwaysFetches w (Api.photo_reference photo) u ->
          In (entryOf photo u) new)
    /\ (forall e, In e new ->
          exists photo u h', In photo photoRefs /\ e = entryOf photo u
            /\ photoDataUrl (Api.photoResponse w h' (Api.photo_reference photo)) = Some u).
Proof.
  induction photoRefs as [|photo rest IH]; intros acc h.
  - exists [], []. cbn. rewrite !app_nil_r.
    split; [reflexivity|]. split; [lia|]. repeat split; intros; contradiction.
  - cbn [Api.fetchPhotos].
    destruct (JS.falsy (Api.photo_reference photo)) eqn:Href.
    { destruct (IH acc h) as (new & ev & -> & Hlen & Hf & Hok & Hfrom).
      exists new, ev. split; [reflexivity|]. split; [cbn; lia|].
      split; [|split].
      - intros p [<-|Hp] Hr; [congruence | apply Hf; assumption].
      - intros p u [<-|Hp] Hr; [congruence | apply Hok; assumption].
      - intros e He. destruct (Hfrom e He) as (p & u & h' & Hp & -> & Hu).
        exists p, u, h'. split; [right; exact Hp | split; [reflexivity | exact Hu]]. }
    unfold bind at 1. rewrite fetchPhotoWithRetries_two. cbn zeta.
    set (ref := Api.photo_reference photo) in *.
    destruct (photoDataUrl (Api.photoResponse w h ref)) as [u1|] eqn:H1;
      [|destruct (photoDataUrl
                    (Api.photoResponse w
                       (h ++ [Api.FetchPhoto ref 900; Api.Sleep 100])%list ref))
          as [u2|] eqn:H2].
    + destruct (IH (acc ++ [entryOf photo u1])%list (h ++ [Api.FetchPhoto ref 900])%list)
        as (new & ev & -> & Hlen & Hf & Hok & Hfrom).
      exists (entryOf photo u1 :: new), (Api.FetchPhoto ref 900 :: ev).
      rewrite <- !app_assoc. split; [reflexivity|]. split; [cbn; lia|].
      split; [|split].
      * intros p [<-|Hp] Hr; [left; reflexivity | right; apply Hf; assumption].
      * intros p u [<-|Hp] Hr Hall; [|right; apply Hok; assumption].
        left. specialize (Hall h). fold ref in Hall. congruence.
      * intros e [<-|He].
        -- exists photo, u1, h. split; [left; reflexivity | split; [reflexivity | exact H1]].
        -- destruct (Hfrom e He) as (p & u & h' & Hp & -> & Hu).
           exists p, u, h'. split; [right; exact Hp | split; [reflexivity | exact Hu]].
    + match goal with
      | |- context [Api.fetchPhotos w apiKey rest ?a ?h'] =>
          destruct (IH a h') as (new & ev & -> & Hlen & Hf & Hok & Hfrom)
      end.
      exists (entryOf photo u2 :: new),
        ([Api.FetchPhoto ref 900; Api.Sleep 100; Api.FetchPhoto ref 900] ++ ev)%list.
      rewrite <- !app_assoc. split; [reflexivity|]. split; [cbn; lia|].
      split; [|split].
      * intros p [<-|Hp] Hr; [left; reflexivity|].
        apply in_or_app. right. apply Hf; assumption.
      * intros p u [<-|Hp] Hr Hall; [|right; apply Hok; assumption].
        specialize (Hall h). fold ref in Hall. congruence.
      * intros e [<-|He].
        -- eexists photo, u2, _. split; [left; reflexivity | split; [reflexivity | exact H2]].
        -- destruct (Hfrom e He) as (p & u & h' & Hp & -> & Hu).
           exists p, u, h'. split; [right; exact Hp | split; [reflexivity | exact Hu]].
    + match goal with
      | |- context [Api.fetchPhotos w apiKey rest ?a ?h'] =>
          destruct (IH a h') as (new & ev & -> & Hlen & Hf & Hok & Hfrom)
      end.
      exists new,
        (([Api.FetchPhoto ref 900; Api.Sleep 100; Api.FetchPhoto ref 900]
          ++ [Api.ConsoleError "Unable to fetch photo after retries"]) ++ ev)%list.
      rewrite <- !app_assoc. split; [reflexivity|]. split; [cbn; lia|].
      split; [|split].
      * intros p [<-|Hp] Hr; [left; reflexivity|].
        apply in_or_app. right. apply in_or_app. right. apply Hf; assumption.
      * intros p u [<-|Hp] Hr Hall; [|apply Hok; assumption].
        specialize (Hall h). fold ref in Hall. congruence.
      * intros e He. destruct (Hfrom e He) as (p & u & h' & Hp & -> & Hu).
        exists p, u, h'. split; [right; exact Hp | split; [reflexivity | exact Hu]].
Qed.

Lemma upsertPhotos_run (w : Api.World) (placeIdDb : string)
    (entries : list Api.GalleryEntry) :
  forall (index : nat) (h : list Api.Event),
  exists ev, snd (Api.upsertPhotos w placeIdDb index entries h) = (h ++ ev)%list.
Proof.
  induction entries as [|e rest IH]; intros index h; cbn [Api.upsertPhotos].
  - exists []. rewrite app_nil_r. reflexivity.
  - unfold bind, Api.call, Api.emit, ret.
    destruct (Api.isSome _);
      match goal with
      | |- context [Api.upsertPhotos w placeIdDb ?i rest ?h'] =>
          destruct (IH i h') as [ev ->]
      end;
      rewrite <- !app_assoc; eexists; reflexivity.
Qed.

(** What the photo phase does: the entries it fetched, its answer, and the
    place row it upserts when there is an entry. *)
Lemma fetchAndStorePhotos_run (w : Api.World) (params : Api.Params)
    (apiKey fallback : string) (placeDetails : Api.Details)
    (photoRefs : list Api.PhotoRef) (h : list Api.Event) :
  exists (entries : list Api.GalleryEntry) (ev0 ev : list Api.Event),
    Api.fetchPhotos w apiKey (firstn 4 photoRefs) [] h = (entries, (h ++ ev0)%list)
    /\ Api.fetchAndStorePhotos w params apiKey fallback placeDetails photoRefs h
       = (match entries with
          | [] => Api.freshAnswer fallback [] placeDetails
          | first :: rest =>
              Api.freshAnswer (Api.image_base64 first)
                (List.filter (fun u => negb (JS.falsy u))
                   (map Api.image_base64 (firstn 3 rest)))
                placeDetails
          end,
          (h ++ ev0 ++ ev)%list)
    /\ match entries with
       | [] => True
       | first :: rest =>
           exists row,
             In (Api.DbUpsertPlace row) ev
             /\ Api.cover_image_base64 row = Some (Api.image_base64 first)
             /\ Api.photo_gallery row = Some entries
       end.
Proof.
  unfold Api.fetchAndStorePhotos. cbn zeta. unfold slice0.
  rewrite firstn_min_length.
  destruct (fetchPhotos_run w apiKey (firstn 4 photoRefs) [] h)
    as (entries & ev0 & Hrun & _).
  cbn [app] in Hrun. exists entries, ev0.
  unfold bind at 1. rewrite Hrun.
  unfold bind at 1. unfold Api.emit at 1.
  destruct entries as [|first rest].
  - exists [Api.ConsoleLog "[PHOTOS] Fetched photos"]. unfold ret.
    rewrite <- app_assoc. repeat split.
  - cbn [tail]. unfold bind, Api.readClock, Api.call, ret.
    set (h1 := ((h ++ ev0) ++ [Api.ConsoleLog "[PHOTOS] Fetched photos"])%list).
    set (t1 := Api.clock w h1).
    set (h2 := (h1 ++ [Api.ClockRead t1])%list).
    set (t2 := Api.clock w h2).
    set (h3 := (h2 ++ [Api.ClockRead t2])%list).
    set (row := Api.placeRow params placeDetails (Some (Api.entry_id first))
                  (Some (Api.image_base64 first)) (first :: rest) true t1
                  (t2 + Api.TTL_MS)%Z).
    set (h4 := (h3 ++ [Api.DbUpsertPlace row])%list).
    set (upsertAll :=
           match Api.orIfFalsy (Api.upsertPlaceResult w h3 row).1 None with
           | Some placeIdDb => Api.upsertPhotos w placeIdDb 0 (first :: rest)
           | None => fun s : list Api.Event => (tt, s)
           end).
    assert (forall s, exists ev', snd (upsertAll s) = (s ++ ev')%list) as Hphotos.
    { intros s. unfold upsertAll. destruct (Api.orIfFalsy _ None) as [dbId|].
      - apply upsertPhotos_run.
      - exists []. rewrite app_nil_r. reflexivity. }
    clearbody upsertAll.
    assert (In (Api.DbUpsertPlace row) [Api.ClockRead t1; Api.ClockRead t2;
                                        Api.DbUpsertPlace row]) as Hin
      by (cbn; tauto).
    destruct (Api.isSome (Api.upsertPlaceResult w h3 row).2); unfold Api.emit.
    + destruct (Hphotos (h4 ++ [Api.ConsoleError "Supabase upsert error (places)"])%list)
        as [ev' Hev'].
      destruct (upsertAll _) as [[] s]. cbn [snd] in Hev'. subst s.
      exists ([Api.ConsoleLog "[PHOTOS] Fetched photos"]
              ++ [Api.ClockRead t1; Api.ClockRead t2; Api.DbUpsertPlace row]
              ++ [Api.ConsoleError "Supabase upsert error (places)"] ++ ev')%list.
      split; [reflexivity|]. split.
      * unfold h4, h3, h2, h1. rewrite <- !app_assoc. reflexivity.
      * exists row. split; [|split; reflexivity].
        apply in_or_app. right. apply in_or_app. left. exact Hin.
    + destruct (Hphotos h4) as [ev' Hev'].
      destruct (upsertAll _) as [[] s]. cbn [snd] in Hev'. subst s.
      exists ([Api.ConsoleLog "[PHOTOS] Fetched photos"]
              ++ [Api.ClockRead t1; Api.ClockRead t2; Api.DbUpsertPlace row]
              ++ ev')%list.
      split; [reflexivity|]. split.
      * unfold h4, h3, h2, h1. rewrite <- !app_assoc. reflexivity.
      * exists row. split; [|split; reflexivity].
        apply in_or_app. right. apply in_or_app. left. exact Hin.
Qed.


(** With the key set and no row of the place in the store,
    [getOrCachePlacePhotos] asks for the details and then runs the photo
    phase on the references it has (or stores the place without photos when
    it has none). *)
Lemma getOrCachePlacePhotos_without_cache (w : Api.World) (params : Api.Params)
    (apiKey : string) (h : list Api.Event) :
  Api.orIfFalsy (Api.GOOGLE_PLACES_API_KEY w) None = Some apiKey ->
  fst (Api.selectPlace w h (Api.placeId params)) = None ->
  exists (pre : list Api.Event) (placeDetails : Api.Details)
         (photoRefs : list Api.PhotoRef),
    let fallback := Api.getCuisineFallbackImageFromTypes (Api.types params) in
    Api.getOrCachePlacePhotos w params h
    = match photoRefs with
      | [] => Api.storeWithoutPhotos w params fallback placeDetails (h ++ pre)%list
      | _ => Api.fetchAndStorePhotos w params apiKey fallback placeDetails photoRefs
               (h ++ pre)%list
      end.
Proof.
  intros Hkey Hnone. unfold Api.getOrCachePlacePhotos. cbn zeta. rewrite Hkey.
  unfold bind at 1. unfold Api.call at 1. rewrite Hnone.
  unfold bind at 1.
  set (h0 := (h ++ [Api.DbSelectPlace (Api.placeId params)])%list).
  destruct ((if Api.isSome (Api.selectPlace w h (Api.placeId params)).2
             then Api.emit (Api.ConsoleError "Supabase select error")
             else ret tt) h0) as [[] h1] eqn:Hlog.
  assert (exists e1, h1 = (h ++ e1)%list) as [e1 ->].
  { destruct (Api.isSome _); unfold Api.emit, ret in Hlog; injection Hlog as <-;
      unfold h0; [rewrite <- app_assoc|]; eexists; reflexivity. }
  unfold bind at 1. unfold Api.readClock at 1.
  unfold bind at 1. unfold Api.answerFromCache at 1. unfold ret at 1.
  unfold bind at 1.
  match goal with
  | |- context [Api.fetchDetails w ?i ?p ?hh] =>
      destruct (Api.fetchDetails w i p hh) as [[placeDetails photos] h2] eqn:Hdet;
      assert (exists e2, h2 = (h ++ e2)%list) as [e2 ->]
  end.
  { unfold Api.fetchDetails, bind, Api.call, Api.emit, ret in Hdet.
    destruct (Api.placeDetailsResponse _ _ _) as [| |[result|]];
      injection Hdet as _ _ <-; rewrite <- !app_assoc; eexists; reflexivity. }
  cbn [fst snd]. unfold bind at 1. unfold Api.answerFromCachedPhotos at 1.
  unfold ret at 1.
  exists e2, placeDetails,
    (List.filter (fun p => negb (JS.falsy (Api.photo_reference p))) (default [] photos)).
  cbn zeta. destruct (List.filter _ _); reflexivity.
Qed.

(** ** The place cache *)

Section Emits.
Variable P : Api.Event -> Prop.






End Emits.










Lemma In_slice0 {A} (n : nat) (l : list A) (x : A) :
  In x (slice0 n l) -> In x l.
Proof.
  unfold slice0. revert l. induction n as [|n IH]; intros [|y l] H; cbn in H;
    try contradiction.
  destruct H as [<-|H]; [left; reflexivity | right; apply IH, H].
Qed.




Example rowAfterOneRun_stamps :
  In ("place-1", rowAfterOneRun) tableAfterOneRun
  /\ Api.last_updated_at rowAfterOneRun = Some 10%Z
  /\ Api.expires_at rowAfterOneRun = Some 2592000011%Z
  /\ Api.cover_image_base64 rowAfterOneRun = Some "data:image/jpeg;base64,AAAA"
  /\ Api.inSearchBox (fun _ => 1) 3 1 2 1000 rowAfterOneRun = true.
Proof. vm_compute. repeat split; try reflexivity. left. reflexivity. Qed.


(** The search itself reads [last_updated_at], not [expires_at]: it keeps
    the rows out through the stamp the writes maintain.  A row that breaks
    the stamp (no write of this code does) would be selected. *)
Remark cached_search_relies_on_the_stamp :
  let now := 1700000000000%Z in
  In (foreignRow now) (Api.cachedPlaces (fun _ => 1) 3 now 1 2 1000 [foreignRow now])
  /\ ~ rowStamped (foreignRow now).
Proof.
  split.
  - vm_compute. left. reflexivity.
  - intros (updated & expires & Hu & He & Hle).
    cbn in Hu, He. injection Hu as <-. injection He as <-.
    unfold Api.TTL_MS in Hle. lia.
Qed.

(** The same run, photo by photo: ["photo-b"] is fetched twice, 100 ms apart,
    and dropped; ["photo-a"] and ["photo-c"] make the cover and the gallery,
    and the place row is stored with them. *)
Example enrichment_with_one_failing_photo :
  let run := Api.getOrCachePlacePhotos worldWithPhotos sushiPlace [] in
  Api.cover (fst run) = "data:image/jpeg;base64,AAAA"
  /\ Api.gallery (fst run) = ["data:image/jpeg;base64,AAAA"]
  /\ List.filter isUpstreamCall (snd run)
     = [Api.FetchPlaceDetails "place-1"; Api.FetchPhoto "photo-a" 900;
        Api.FetchPhoto "photo-b" 900; Api.FetchPhoto "photo-b" 900;
        Api.FetchPhoto "photo-c" 900]
  /\ attempts "photo-b" (snd run) = 2%nat
  /\ (map Api.entry_id <$> Api.photo_gallery rowAfterOneRun)
     = Some ["photo-a"; "photo-c"].
Proof. vm_compute. repeat split; reflexivity. Qed.

(** ** Numbers as text *)

Lemma string_app_cons (x : ascii) (a b : string) :
  String x a ++ b = String x (a ++ b).
Proof. reflexivity. Qed.

Lemma string_app_assoc (a b c : string) : (a ++ b) ++ c = a ++ (b ++ c).
Proof.
  induction a as [|x a IH]; [reflexivity|].
  rewrite !string_app_cons, IH. reflexivity.
Qed.

Lemma string_app_nil_r (a : string) : a ++ "" = a.
Proof.
  induction a as [|x a IH]; [reflexivity|].
  rewrite string_app_cons, IH. reflexivity.
Qed.

Lemma digitOf_digitChar (d : Z) :
  (0 <= d < 10)%Z -> JS.digitOf (JSNumber.digitChar d) = Some d.
Proof.
  intros H.
  assert (d = 0 \/ d = 1 \/ d = 2 \/ d = 3 \/ d = 4 \/ d = 5 \/ d = 6 \/ d = 7
          \/ d = 8 \/ d = 9)%Z as Hd by lia.
  repeat (destruct Hd as [-> | Hd]; [reflexivity|]). subst d. reflexivity.
Qed.


(** Reading back the digits that were written. *)
Lemma takeDigits_digitsOf (fuel : nat) :
  forall (n : Z) (rest : string) (a : Z) (l : nat),
    (0 <= n < 10 ^ Z.of_nat (S fuel))%Z ->
    exists k : nat,
      (0 < k)%nat
      /\ JS.takeDigits (JSNumber.digitsOf (S fuel) n rest) a l
         = JS.takeDigits rest (a * 10 ^ Z.of_nat k + n)%Z (l + k)%nat.
Proof.
  induction fuel as [|fuel IH]; intros n rest a l Hn.
  - change (10 ^ Z.of_nat 1)%Z with 10%Z in Hn.
    exists 1%nat. split; [lia|].
    cbn [JSNumber.digitsOf].
    destruct (n <? 10)%Z eqn:Hlt; [|apply Z.ltb_ge in Hlt; lia].
    rewrite Z.mod_small by lia.
    cbn [JS.takeDigits]. rewrite (digitOf_digitChar n) by lia.
    f_equal; [|lia]. change (10 ^ Z.of_nat 1)%Z with 10%Z. lia.
  - remember (S fuel) as fuel' eqn:Hf.
    cbn [JSNumber.digitsOf].
    destruct (n <? 10)%Z eqn:Hlt.
    + apply Z.ltb_lt in Hlt. exists 1%nat. split; [lia|].
      rewrite Z.mod_small by lia.
      cbn [JS.takeDigits]. rewrite (digitOf_digitChar n) by lia.
      f_equal; [|lia]. change (10 ^ Z.of_nat 1)%Z with 10%Z. lia.
    + apply Z.ltb_ge in Hlt. subst fuel'.
      assert (0 <= n / 10 < 10 ^ Z.of_nat (S fuel))%Z as Hdiv.
      { split; [apply Z.div_pos; lia|].
        apply Z.div_lt_upper_bound; [lia|].
        replace (Z.of_nat (S (S fuel))) with (Z.succ (Z.of_nat (S fuel))) in Hn by lia.
        rewrite Z.pow_succ_r in Hn by lia. lia. }
      destruct (IH (n / 10)%Z (String (JSNumber.digitChar (n mod 10)) rest) a l Hdiv)
        as (k & Hk & Heq).
      exists (S k). split; [lia|].
      rewrite Heq. cbn [JS.takeDigits].
      rewrite (digitOf_digitChar (n mod 10)) by (apply Z.mod_pos_bound; lia).
      f_equal; [|lia].
      replace (Z.of_nat (S k)) with (Z.succ (Z.of_nat k)) by lia.
      rewrite Z.pow_succ_r by lia.
      pose proof (Z.div_mod n 10 ltac:(lia)). lia.
Qed.

Lemma digitsOf_app (fuel : nat) :
  forall (n : Z) (rest : string),
    JSNumber.digitsOf fuel n rest = JSNumber.digitsOf fuel n "" ++ rest.
Proof.
  induction fuel as [|fuel IH]; intros n rest; [reflexivity|].
  cbn [JSNumber.digitsOf].
  destruct (n <? 10)%Z; [reflexivity|].
  rewrite IH, (IH _ (String _ "")).
  rewrite string_app_assoc. reflexivity.
Qed.



Lemma pow10_log2 (n : Z) : (0 <= n)%Z -> (n < 10 ^ Z.of_nat (S (Z.to_nat (Z.log2 n))))%Z.
Proof.
  intros Hn.
  destruct (Z.eq_dec n 0%Z) as [->|Hne]; [reflexivity|].
  pose proof (Z.log2_spec n ltac:(lia)) as [_ Hup].
  pose proof (Z.log2_nonneg n) as Hlog.
  replace (Z.of_nat (S (Z.to_nat (Z.log2 n)))) with (Z.succ (Z.log2 n)) by lia.
  eapply Z.lt_le_trans; [exact Hup|].
  apply Z.pow_le_mono_l. lia.
Qed.

(** The digits of [n] are read back as [n]. *)
Lemma takeDigits_decimal (n : Z) (rest : string) (a : Z) (l : nat) :
  (0 <= n)%Z ->
  exists k : nat,
    (0 < k)%nat
    /\ JS.takeDigits (JSNumber.decimal n ++ rest) a l
       = JS.takeDigits rest (a * 10 ^ Z.of_nat k + n)%Z (l + k)%nat.
Proof.
  intros Hn. unfold JSNumber.decimal.
  rewrite <- digitsOf_app.
  apply takeDigits_digitsOf. split; [exact Hn | apply pow10_log2, Hn].
Qed.


Lemma digitsOf_head (fuel : nat) :
  forall (n : Z) (rest : string),
    (0 <= n)%Z ->
    exists (d : Z) (r : string),
      (0 <= d < 10)%Z
      /\ JSNumber.digitsOf (S fuel) n rest = String (JSNumber.digitChar d) r.
Proof.
  induction fuel as [|fuel IH]; intros n rest Hn.
  - cbn [JSNumber.digitsOf]. exists (n mod 10)%Z.
    destruct (n <? 10)%Z; eexists; (split; [apply Z.mod_pos_bound; lia | reflexivity]).
  - remember (S fuel) as fuel'. cbn [JSNumber.digitsOf].
    destruct (n <? 10)%Z.
    + exists (n mod 10)%Z. eexists. split; [apply Z.mod_pos_bound; lia | reflexivity].
    + subst fuel'. apply IH, Z.div_pos; lia.
Qed.

Lemma decimal_head (n : Z) :
  (0 <= n)%Z ->
  exists (d : Z) (r : string),
    (0 <= d < 10)%Z /\ JSNumber.decimal n = String (JSNumber.digitChar d) r.
Proof. apply digitsOf_head. Qed.

(** A digit is neither white space nor a sign, and lower case leaves the
    characters of a number as they are. *)
Lemma digit_not_space (c : ascii) (d : Z) :
  JS.digitOf c = Some d -> JS.isWhiteSpace c = false.
Proof.
  destruct c as [[] [] [] [] [] [] [] []]; intros H; try reflexivity; discriminate H.
Qed.

Lemma digit_takeSign (c : ascii) (d : Z) (r : string) :
  JS.digitOf c = Some d -> JS.takeSign (String c r) = (false, String c r).
Proof.
  destruct c as [[] [] [] [] [] [] [] []]; intros H; try reflexivity; discriminate H.
Qed.





Lemma Qred_inject_Z (n : Z) : Qred (inject_Z n) = inject_Z n.
Proof.
  unfold Qred, inject_Z.
  pose proof (Z.ggcd_correct_divisors n 1) as Hdiv.
  pose proof (Z.ggcd_gcd n 1) as Hg.
  destruct (Z.ggcd n 1) as [g [r1 r2]]. cbn [fst snd] in *.
  rewrite Z.gcd_1_r in Hg. subst g.
  destruct Hdiv as [H1 H2].
  assert (r1 = n) as -> by lia. assert (r2 = 1%Z) as -> by lia.
  reflexivity.
Qed.

(** A whole number followed by a space is read back as that number. *)
Lemma parseFloat_whole (n : Z) (r : string) :
  (0 <= n)%Z ->
  JS.parseFloat (JSNumber.decimal n ++ String " " r) = Some (inject_Z n).
Proof.
  intros Hn.
  destruct (decimal_head n Hn) as (d & r0 & Hd & Hdec).
  destruct (takeDigits_decimal n (String " " r) 0 0 Hn) as (k & Hk & Heq).
  unfold JS.parseFloat.
  rewrite Hdec, string_app_cons. cbn [JS.skipWhiteSpace].
  rewrite (digit_not_space _ d (digitOf_digitChar d Hd)).
  rewrite (digit_takeSign _ d _ (digitOf_digitChar d Hd)).
  rewrite <- string_app_cons, <- Hdec, Heq.
  cbn [JS.takeDigits].
  change (JS.digitOf " ") with (@None Z). cbn iota.
  destruct k as [|k]; [lia|]. cbn [Nat.add].
  change (JS.takeExponent (String " " r)) with 0%Z.
  unfold JS.scale10. change (0 <=? 0 - Z.of_nat 0)%Z with true. cbn iota.
  replace ((0 * 10 ^ Z.of_nat (S k) + n) * 10 ^ (0 - Z.of_nat 0))%Z with n
    by (change (10 ^ (0 - Z.of_nat 0))%Z with 1%Z; lia).
  rewrite Qred_inject_Z. reflexivity.
Qed.

Lemma decimal_digit (d : Z) :
  (0 <= d < 10)%Z -> JSNumber.decimal d = String (JSNumber.digitChar d) "".
Proof.
  intros Hd. unfold JSNumber.decimal. cbn [JSNumber.digitsOf].
  destruct (d <? 10)%Z eqn:Hlt; [|apply Z.ltb_ge in Hlt; lia].
  rewrite Z.mod_small by lia. reflexivity.
Qed.

(** A number with one decimal followed by a space is read back as its
    tenths. *)
Lemma parseFloat_fixed (i d : Z) (r : string) :
  (0 <= i)%Z -> (0 <= d < 10)%Z ->
  JS.parseFloat (JSNumber.decimal i ++ "." ++ JSNumber.decimal d ++ String " " r)
  = Some (Qred ((10 * i + d) # 10)).
Proof.
  intros Hi Hd.
  destruct (decimal_head i Hi) as (d0 & r0 & Hd0 & Hdec).
  destruct (takeDigits_decimal i ("." ++ JSNumber.decimal d ++ String " " r) 0 0 Hi)
    as (k & Hk & Heq).
  unfold JS.parseFloat.
  rewrite Hdec, string_app_cons. cbn [JS.skipWhiteSpace].
  rewrite (digit_not_space _ d0 (digitOf_digitChar d0 Hd0)).
  rewrite (digit_takeSign _ d0 _ (digitOf_digitChar d0 Hd0)).
  rewrite <- string_app_cons, <- Hdec, Heq.
  change ("." ++ JSNumber.decimal d ++ String " " r)
    with (String "." (JSNumber.decimal d ++ String " " r)).
  cbn [JS.takeDigits]. change (JS.digitOf ".") with (@None Z). cbn iota.
  rewrite (decimal_digit d Hd), string_app_cons.
  cbn [JS.takeDigits]. rewrite (digitOf_digitChar d Hd).
  change ("" ++ String " " r) with (String " " r).
  cbn [JS.takeDigits]. change (JS.digitOf " ") with (@None Z). cbn iota.
  destruct k as [|k]; [lia|]. cbn [Nat.add].
  change (JS.takeExponent (String " " r)) with 0%Z.
  unfold JS.scale10. change (0 <=? 0 - Z.of_nat 1)%Z with false. cbn iota.
  change (Z.to_pos (10 ^ (- (0 - Z.of_nat 1)))) with 10%positive.
  replace (10 * (0 * 10 ^ Z.of_nat (S k) + i) + d)%Z with (10 * i + d)%Z by lia.
  reflexivity.
Qed.




Lemma round_bounds (x : Q) :
  x - (1 # 2) < inject_Z (JSNumber.round x) /\ inject_Z (JSNumber.round x) <= x + (1 # 2).
Proof.
  unfold JSNumber.round.
  pose proof (Qfloor_le (x + (1 # 2))) as Hle.
  pose proof (Qlt_floor (x + (1 # 2))) as Hlt.
  rewrite inject_Z_plus in Hlt. change (inject_Z 1) with 1 in Hlt.
  split; lra.
Qed.

Lemma round_nonneg (x : Q) : 0 <= x -> (0 <= JSNumber.round x)%Z.
Proof.
  intros Hx. unfold JSNumber.round.
  change 0%Z with (Qfloor 0). apply Qfloor_resp_le. lra.
Qed.

Lemma toString_whole (engine : JSNumber.Engine) (n : Z) :
  (0 <= n < 10 ^ 21)%Z ->
  JSNumber.toString engine (inject_Z n) = JSNumber.decimal n.
Proof.
  intros Hn. unfold JSNumber.toString. rewrite Qred_inject_Z.
  cbn [Qden Qnum inject_Z]. cbn [Pos.eqb andb].
  destruct (Z.abs n <? 10 ^ 21)%Z eqn:Hlt; [|apply Z.ltb_ge in Hlt; lia].
  unfold JSNumber.integerToString.
  destruct (n <? 0)%Z eqn:Hneg; [apply Z.ltb_lt in Hneg; lia | reflexivity].
Qed.

Lemma formatDistance_meters (engine : JSNumber.Engine) (m : Q) :
  0 <= m -> m < 1000 ->
  Route.formatDistance engine (Fin m)
  = JSNumber.decimal (JSNumber.round m) ++ " m away".
Proof.
  intros H0 H1. unfold Route.formatDistance.
  destruct (JS.ltb m 1000) eqn:Hlt; [|apply ltb_false in Hlt; lra].
  rewrite toString_whole; [reflexivity|].
  pose proof (round_nonneg m H0). pose proof (round_bounds m) as [_ Hup].
  split; [assumption|].
  assert (inject_Z (JSNumber.round m) < inject_Z (10 ^ 21)) as Hq.
  { eapply Qle_lt_trans; [exact Hup|].
    change (inject_Z (10 ^ 21)) with (1000000000000000000000 # 1). lra. }
  rewrite <- Zlt_Qlt in Hq. exact Hq.
Qed.

Lemma toFixed1_positive (engine : JSNumber.Engine) (x : Q) :
  0 <= x -> x < inject_Z (10 ^ 21) ->
  let n := Qfloor (x * 10 + (1 # 2)) in
  JSNumber.toFixed1 engine x
  = JSNumber.decimal (n / 10) ++ "." ++ JSNumber.decimal (n mod 10).
Proof.
  intros H0 H1 n. unfold JSNumber.toFixed1.
  destruct (JS.ltb x 0) eqn:Hneg; [apply ltb_true in Hneg; lra|].
  assert (Qabs x == x) as Habs by (apply Qabs_pos, H0).
  unfold JS.geb.
  destruct (JS.leb (inject_Z (10 ^ 21)) (Qabs x)) eqn:Hbig.
  { apply leb_true in Hbig. rewrite Habs in Hbig. lra. }
  cbv zeta.
  rewrite (Qfloor_comp (Qabs x * 10 + (1 # 2)) (x * 10 + (1 # 2)))
    by (rewrite Habs; reflexivity).
  reflexivity.
Qed.

Lemma formatDistance_km (engine : JSNumber.Engine) (m : Q) :
  1000 <= m -> m / 1000 < inject_Z (10 ^ 21) ->
  let n := Qfloor (m / 1000 * 10 + (1 # 2)) in
  Route.formatDistance engine (Fin m)
  = JSNumber.decimal (n / 10) ++ "." ++ JSNumber.decimal (n mod 10) ++ " km away".
Proof.
  intros H0 H1 n. unfold Route.formatDistance.
  destruct (JS.ltb m 1000) eqn:Hlt; [apply ltb_true in Hlt; lra|].
  cbv zeta. rewrite toFixed1_positive; [| |exact H1].
  - rewrite !string_app_assoc. reflexivity.
  - apply Qle_shift_div_l; lra.
Qed.



(** ** The restaurants endpoint *)

Lemma mapM_app {S A B} (f : A -> Stateful S B) (l1 l2 : list A) (s : S) :
  mapM f (l1 ++ l2)%list s
  = (fst (mapM f l1 s) ++ fst (mapM f l2 (snd (mapM f l1 s))),
     snd (mapM f l2 (snd (mapM f l1 s))))%list.
Proof.
  revert s. induction l1 as [|x l1 IH]; intros s.
  - cbn. destruct (mapM f l2 s); reflexivity.
  - cbn. unfold bind, ret. destruct (f x s) as [y s1].
    rewrite IH. destruct (mapM f l1 s1) as [ys s2]. cbn [fst snd].
    destruct (mapM f l2 s2) as [zs s3]. reflexivity.
Qed.

Lemma fulfilled_app (a b : list (option (option Route.FoodStore))) :
  Route.fulfilled (a ++ b)%list = (Route.fulfilled a ++ Route.fulfilled b)%list.
Proof. unfold Route.fulfilled. apply omap_app. Qed.

Lemma processBatches_mapM (engine : JSNumber.Engine) (w : Route.World) (lat lon : Q)
    (fuel : nat) :
  forall (places : list Route.GooglePlace) (stores : list Route.FoodStore)
         (h : list Route.Event),
    (length places <= fuel)%nat ->
    Route.processBatches engine fuel w lat lon places stores h
    = ((stores
        ++ Route.fulfilled (fst (mapM (Route.processPlace engine w lat lon) places h)))%list,
       snd (mapM (Route.processPlace engine w lat lon) places h)).
Proof.
  induction fuel as [|fuel IH]; intros places stores h Hlen.
  - destruct places; [|cbn in Hlen; lia].
    cbn. rewrite app_nil_r. reflexivity.
  - destruct places as [|p places].
    { cbn. rewrite app_nil_r. reflexivity. }
    set (all := p :: places) in *.
    change (Route.processBatches engine (S fuel) w lat lon all stores h)
      with (bind (mapM (Route.processPlace engine w lat lon)
                    (slice0 Route.BATCH_SIZE all))
              (fun results =>
                 Route.processBatches engine fuel w lat lon
                   (skipn Route.BATCH_SIZE all)
                   (stores ++ Route.fulfilled results)%list) h).
    unfold bind.
    pose proof (mapM_app (Route.processPlace engine w lat lon)
                  (firstn Route.BATCH_SIZE all) (skipn Route.BATCH_SIZE all) h) as Happ.
    rewrite firstn_skipn in Happ. rewrite Happ. clear Happ. unfold slice0.
    destruct (mapM (Route.processPlace engine w lat lon)
                (firstn Route.BATCH_SIZE all) h) as [results h1].
    cbn [fst snd].
    rewrite IH.
    + rewrite fulfilled_app, app_assoc. reflexivity.
    + rewrite length_skipn. unfold all, Route.BATCH_SIZE in *.
      cbn [length] in *. lia.
Qed.

(** X2.  The batches of five lose nothing and keep the order: the stores they
    collect are the fulfilled, non-null results of processing every place
    once, one after the other in the order of the places, and the
    enrichments are started in that order. *)
Theorem batches_process_every_place_once (engine : JSNumber.Engine)
    (w : Route.World) (lat lon : Q) (places : list Route.GooglePlace)
    (h : list Route.Event) :
  Route.processBatches engine (length places) w lat lon places [] h
  = (Route.fulfilled (fst (mapM (Route.processPlace engine w lat lon) places h)),
     snd (mapM (Route.processPlace engine w lat lon) places h)).
Proof.
  rewrite processBatches_mapM by lia. reflexivity.
Qed.

(** *** The places asked from the provider *)

Lemma dedupe_spec (allResults : list Route.GooglePlace) :
  forall seen : gset string,
    NoDup (map Route.place_id (Route.dedupe allResults seen))
    /\ (forall p, p ∈ Route.dedupe allResults seen ->
          JS.falsy (Route.place_id p) = false /\ Route.place_id p ∉ seen)
    /\ Route.dedupe allResults seen `sublist_of` allResults
    /\ (forall p, p ∈ allResults -> JS.falsy (Route.place_id p) = false ->
          Route.place_id p ∉ seen ->
          Route.place_id p ∈ map Route.place_id (Route.dedupe allResults seen)).
Proof.
  induction allResults as [|p rest IH]; intros seen; cbn [Route.dedupe].
  - split; [constructor|]. split; [intros p Hp; inversion Hp|].
    split; [constructor|]. intros p Hp. inversion Hp.
  - destruct (JS.falsy (Route.place_id p)) eqn:Hfalsy; cbn [orb].
    + destruct (IH seen) as (Hnd & Hin & Hsub & Hall).
      split; [exact Hnd|]. split; [exact Hin|].
      split; [apply sublist_cons, Hsub|].
      intros q Hq Hq1 Hq2. apply elem_of_cons in Hq as [->|Hq]; [congruence|].
      apply Hall; assumption.
    + destruct (bool_decide (Route.place_id p ∈ seen)) eqn:Hseen.
      * apply bool_decide_eq_true in Hseen.
        destruct (IH seen) as (Hnd & Hin & Hsub & Hall).
        split; [exact Hnd|]. split; [exact Hin|].
        split; [apply sublist_cons, Hsub|].
        intros q Hq Hq1 Hq2. apply elem_of_cons in Hq as [->|Hq]; [contradiction|].
        apply Hall; assumption.
      * apply bool_decide_eq_false in Hseen.
        destruct (IH ({[Route.place_id p]} ∪ seen)) as (Hnd & Hin & Hsub & Hall).
        split.
        { cbn [map]. apply NoDup_cons. split; [|exact Hnd].
          intros Hp. apply list_elem_of_fmap in Hp as (q & Hq & Hqin).
          destruct (Hin q Hqin) as [_ Hnot]. apply Hnot.
          rewrite <- Hq. apply elem_of_union_l, elem_of_singleton. reflexivity. }
        split.
        { intros q Hq. apply elem_of_cons in Hq as [->|Hq].
          - split; assumption.
          - destruct (Hin q Hq) as [Hq1 Hq2]. split; [exact Hq1|].
            intros Hs. apply Hq2, elem_of_union_r, Hs. }
        split; [apply sublist_skip, Hsub|].
        intros q Hq Hq1 Hq2. cbn [map].
        destruct (decide (Route.place_id q = Route.place_id p)) as [Heq|Hne].
        { rewrite Heq. apply list_elem_of_here. }
        apply list_elem_of_further.
        apply elem_of_cons in Hq as [->|Hq]; [contradiction|].
        apply Hall; [assumption | assumption |].
        intros Hs. apply elem_of_union in Hs as [Hs|Hs]; [|contradiction].
        apply elem_of_singleton in Hs. contradiction.
Qed.

(** X3.  The places kept from the pages of the provider: no place without an
    id, no id twice, at most 60 of them, in the order of the pages (each id
    at its first occurrence); and while fewer than 60 are kept, every id of
    the pages is kept. *)
Theorem provider_places_are_distinct (allResults : list Route.GooglePlace) :
  let kept := Route.dedupe allResults ∅ in
  let places := slice0 60 kept in
  NoDup (map Route.place_id places)
  /\ Forall (fun p => Route.place_id p <> "") places
  /\ (length places <= 60)%nat
  /\ places `sublist_of` allResults
  /\ ((length kept <= 60)%nat ->
      forall p, p ∈ allResults -> Route.place_id p <> "" ->
                Route.place_id p ∈ map Route.place_id places).
Proof.
  intros kept places.
  destruct (dedupe_spec allResults ∅) as (Hnd & Hin & Hsub & Hall).
  fold kept in Hnd, Hin, Hsub, Hall.
  assert (places `sublist_of` kept) as Htake by apply sublist_take.
  split.
  { eapply sublist_NoDup; [exact Hnd|]. apply fmap_sublist, Htake. }
  split.
  { apply List.Forall_forall. intros p Hp.
    apply list_elem_of_In in Hp.
    destruct (Hin p (elem_of_sublist _ _ _ Hp Htake)) as [Hf _].
    destruct (Route.place_id p); [discriminate | discriminate]. }
  split; [apply slice0_length|].
  split; [etransitivity; eassumption|].
  intros Hlen p Hp Hid.
  unfold places, slice0. rewrite firstn_all2 by exact Hlen.
  apply Hall; [exact Hp | | apply not_elem_of_empty].
  destruct (Route.place_id p); [contradiction | reflexivity].
Qed.

(** *** The response *)

Lemma Route_sort_eq (stores : list Route.FoodStore) :
  fst (sort (fun a b => ret (Route.compareStores a b)) stores tt)
  = sortPure Route.compareStores stores.
Proof.
  apply (sort_pure (fun a b => ret (Route.compareStores a b)) Route.compareStores
           (fun _ => True)); [|exact Logic.I].
  intros a b s _. split; [reflexivity | exact Logic.I].
Qed.

Lemma respond_shape (engine : JSNumber.Engine) (w : Route.World) (lat lon : Q)
    (places : list Route.GooglePlace) (h : list Route.Event) :
  exists stores : list Route.FoodStore,
    fst (Route.respond engine w lat lon places h)
    = Route.mkResponse 200 None
        (Some (Route.markFirst (sortPure Route.compareStores stores)))
        (Some (length (Route.markFirst (sortPure Route.compareStores stores)))).
Proof.
  unfold Route.respond, bind, ret.
  destruct (Route.processBatches _ _ _ _ _ _ _ _) as [stores h'].
  exists stores. cbn [fst]. rewrite Route_sort_eq. reflexivity.
Qed.

(** The four answers of [GET]. *)
Lemma GET_outcomes (engine : JSNumber.Engine) (w : Route.World) (h : list Route.Event) :
  fst (Route.GET engine w h)
  = Route.mkResponse 400 (Some "lat and lon are required query parameters") None None
  \/ fst (Route.GET engine w h)
     = Route.mkResponse 500 (Some "Server not configured with Google Places API key")
         (Some []) None
  \/ fst (Route.GET engine w h) = Route.unexpected
  \/ exists stores : list Route.FoodStore,
       fst (Route.GET engine w h)
       = Route.mkResponse 200 None
           (Some (Route.markFirst (sortPure Route.compareStores stores)))
           (Some (length (Route.markFirst (sortPure Route.compareStores stores)))).
Proof.
  unfold Route.GET.
  destruct (JSNumber.parseFloat _) as [lat| | |]; try (left; reflexivity).
  destruct (JSNumber.parseFloat _) as [lon| | |]; try (left; reflexivity).
  cbv zeta.
  destruct (Api.orIfFalsy (Route.GOOGLE_PLACES_API_KEY w) None) as [apiKey|];
    [|right; left; reflexivity].
  right; right.
  unfold bind, Route.readClock, Route.call. cbv zeta.
  destruct (Route.choosePlaces _ _ _ _ _ _ _) as [[places|] h'].
  - right. apply respond_shape.
  - left. reflexivity.
Qed.

Lemma getMeters_not_NaN (s : Route.FoodStore) : Route.getMeters s <> NaN.
Proof.
  unfold Route.getMeters. destruct (JSNumber.parseFloat _); discriminate.
Qed.

Lemma compareStores_order (a b : Route.FoodStore) :
  mayPrecede Route.compareStores a b <-> byLeadingNumber a b.
Proof.
  unfold mayPrecede, byLeadingNumber, Route.compareStores.
  pose proof (getMeters_not_NaN a) as Ha. pose proof (getMeters_not_NaN b) as Hb.
  destruct (Route.getMeters a) as [x| | |], (Route.getMeters b) as [y| | |];
    try contradiction; cbn; try (split; [auto | reflexivity]);
    try (split; [discriminate | contradiction]).
  unfold JS.gtb. rewrite ltb_false. split; intros H; lra.
Qed.

Lemma compareStores_asym (x y : Route.FoodStore) :
  Num_positive (Route.compareStores y x) = true ->
  Num_positive (Route.compareStores x y) = false.
Proof.
  unfold Route.compareStores.
  destruct (Route.getMeters x) as [a| | |], (Route.getMeters y) as [b| | |];
    cbn; try discriminate; try reflexivity.
  unfold JS.gtb. rewrite ltb_true, ltb_false. intros H. lra.
Qed.

Lemma byLeadingNumber_trans : Relations_1.Transitive byLeadingNumber.
Proof.
  intros a b c. unfold byLeadingNumber.
  pose proof (getMeters_not_NaN a). pose proof (getMeters_not_NaN b).
  pose proof (getMeters_not_NaN c).
  destruct (Route.getMeters a), (Route.getMeters b), (Route.getMeters c);
    cbn; try contradiction; try tauto.
  intros. lra.
Qed.

Lemma markFirst_cons (s : Route.FoodStore) (rest : list Route.FoodStore) :
  Route.markFirst (s :: rest)
  = Route.withIsNew s true :: map (fun s => Route.withIsNew s false) rest.
Proof.
  unfold Route.markFirst. cbn [imap]. f_equal.
  induction rest as [|x rest IH]; [reflexivity|].
  cbn [imap map]. f_equal.
  rewrite <- IH. apply imap_ext. intros i y _. reflexivity.
Qed.

Lemma markFirst_sorted (l : list Route.FoodStore) :
  StronglySorted byLeadingNumber l -> StronglySorted byLeadingNumber (Route.markFirst l).
Proof.
  assert (forall (f : Route.FoodStore -> Route.FoodStore) l,
             (forall s, Route.getMeters (f s) = Route.getMeters s) ->
             StronglySorted byLeadingNumber l ->
             StronglySorted byLeadingNumber (map f l)) as Hmap.
  { intros f k Hf Hk. induction Hk as [|x k Hk IH Hx]; [constructor|].
    cbn [map]. constructor; [exact IH|].
    apply List.Forall_forall. intros y Hy. apply in_map_iff in Hy as (z & <- & Hz).
    rewrite List.Forall_forall in Hx. specialize (Hx z Hz).
    unfold byLeadingNumber in *. rewrite !Hf. exact Hx. }
  intros Hl. destruct l as [|s rest]; [constructor|].
  rewrite markFirst_cons. inversion Hl as [|? ? Hrest Hs]; subst.
  constructor.
  - apply Hmap; [reflexivity | exact Hrest].
  - apply List.Forall_forall. intros y Hy. apply in_map_iff in Hy as (z & <- & Hz).
    rewrite List.Forall_forall in Hs. exact (Hs z Hz).
Qed.

Lemma markFirst_flags (l : list Route.FoodStore) (i : nat) (s : Route.FoodStore) :
  Route.markFirst l !! i = Some s -> Route.isNew s = (i =? 0)%nat.
Proof.
  unfold Route.markFirst. rewrite list_lookup_imap.
  destruct (l !! i) as [x|]; cbn; [|discriminate].
  intros [= <-]. reflexivity.
Qed.

Lemma GET_ok_response (engine : JSNumber.Engine) (w : Route.World)
    (h : list Route.Event) :
  Route.status (fst (Route.GET engine w h)) = 200%Z ->
  exists rs : list Route.FoodStore,
    Route.restaurants (fst (Route.GET engine w h)) = Some rs
    /\ Route.error (fst (Route.GET engine w h)) = None
    /\ Route.count (fst (Route.GET engine w h)) = Some (length rs)
    /\ StronglySorted byLeadingNumber rs
    /\ (forall (i : nat) (s : Route.FoodStore),
          rs !! i = Some s -> Route.isNew s = (i =? 0)%nat).
Proof.
  intros Hstatus.
  destruct (GET_outcomes engine w h) as [H | [H | [H | (stores & H)]]];
    rewrite H in Hstatus |- *; try discriminate Hstatus.
  exists (Route.markFirst (sortPure Route.compareStores stores)).
  cbn [Route.restaurants Route.error Route.count].
  repeat (split; [reflexivity|]).
  split; [|apply markFirst_flags].
  apply markFirst_sorted, Sorted_StronglySorted; [exact byLeadingNumber_trans|].
  eapply Sorted_weaken; [|apply sortPure_Sorted, compareStores_asym].
  intros x y. apply compareStores_order.
Qed.

Lemma StronglySorted_lookup {A} (R : A -> A -> Prop) (l : list A) :
  StronglySorted R l ->
  forall (i j : nat) (a b : A),
    (i < j)%nat -> l !! i = Some a -> l !! j = Some b -> R a b.
Proof.
  induction 1 as [|x l Hl IH Hx]; intros i j a b Hij Ha Hb.
  - rewrite lookup_nil in Ha. discriminate.
  - destruct j as [|j]; [lia|]. cbn in Hb.
    destruct i as [|i].
    + cbn in Ha. injection Ha as <-.
      rewrite List.Forall_forall in Hx. apply Hx.
      apply list_elem_of_In. eapply list_elem_of_lookup_2, Hb.
    + cbn in Ha. eapply IH; [|eassumption|eassumption]. lia.
Qed.

(** X4.  A response with status 200 lists its restaurants in non-decreasing order
    of the number each distance text starts with, whatever the unit that
    follows the number; it flags the first restaurant, and only the first,
    as new; and its count is the number of restaurants. *)
Theorem response_order_and_flags (engine : JSNumber.Engine) (w : Route.World)
    (h : list Route.Event) :
  Route.status (fst (Route.GET engine w h)) = 200%Z ->
  exists rs : list Route.FoodStore,
    Route.restaurants (fst (Route.GET engine w h)) = Some rs
    /\ Route.error (fst (Route.GET engine w h)) = None
    /\ Route.count (fst (Route.GET engine w h)) = Some (length rs)
    /\ StronglySorted byLeadingNumber rs
    /\ (forall (i : nat) (s : Route.FoodStore),
          rs !! i = Some s -> Route.isNew s = (i =? 0)%nat).
Proof. apply GET_ok_response. Qed.

Lemma response_order_and_flags_witness :
  exists rs : list Route.FoodStore,
    Route.restaurants (fst (Route.GET sampleEngine sampleWorld [])) = Some rs
    /\ Route.error (fst (Route.GET sampleEngine sampleWorld [])) = None
    /\ Route.count (fst (Route.GET sampleEngine sampleWorld [])) = Some (length rs)
    /\ StronglySorted byLeadingNumber rs
    /\ (forall (i : nat) (s : Route.FoodStore),
          rs !! i = Some s -> Route.isNew s = (i =? 0)%nat).
Proof.
  apply (response_order_and_flags sampleEngine sampleWorld []).
  vm_compute. reflexivity.
Defined.

Lemma digit_not_Infinity (c : ascii) (d : Z) (r : string) :
  JS.digitOf c = Some d -> String.prefix "Infinity" (String c r) = false.
Proof.
  destruct c as [[] [] [] [] [] [] [] []]; intros H; try reflexivity; discriminate H.
Qed.

(** On a text that starts with digits, [parseFloat] is the reading of the
    pages. *)
Lemma parseFloat_after_digits (n : Z) (rest : string) :
  (0 <= n)%Z ->
  JSNumber.parseFloat (JSNumber.decimal n ++ rest)
  = match JS.parseFloat (JSNumber.decimal n ++ rest) with
    | Some q => Fin q
    | None => NaN
    end.
Proof.
  intros Hn. destruct (decimal_head n Hn) as (d & r & Hd & Hdec).
  unfold JSNumber.parseFloat. rewrite Hdec, string_app_cons.
  cbn [JS.skipWhiteSpace].
  rewrite (digit_not_space _ d (digitOf_digitChar d Hd)).
  rewrite (digit_takeSign _ d _ (digitOf_digitChar d Hd)).
  rewrite (digit_not_Infinity _ d _ (digitOf_digitChar d Hd)).
  reflexivity.
Qed.

Lemma getMeters_meters (engine : JSNumber.Engine) (s : Route.FoodStore) (m : Q) :
  0 <= m -> m < 1000 ->
  Route.distance s = Route.formatDistance engine (Fin m) ->
  Route.getMeters s = Fin (inject_Z (JSNumber.round m)).
Proof.
  intros H0 H1 Hs. unfold Route.getMeters.
  rewrite Hs, (formatDistance_meters engine m H0 H1).
  rewrite parseFloat_after_digits by (apply round_nonneg, H0).
  rewrite (parseFloat_whole _ "m away") by (apply round_nonneg, H0).
  reflexivity.
Qed.

Lemma getMeters_km (engine : JSNumber.Engine) (s : Route.FoodStore) (m : Q) :
  1000 <= m -> m / 1000 < inject_Z (10 ^ 21) ->
  Route.distance s = Route.formatDistance engine (Fin m) ->
  Route.getMeters s = Fin (Qred (Qfloor (m / 1000 * 10 + (1 # 2)) # 10)).
Proof.
  intros H0 H1 Hs. unfold Route.getMeters.
  rewrite Hs, (formatDistance_km engine m H0 H1). cbv zeta.
  set (n := Qfloor (m / 1000 * 10 + (1 # 2))).
  assert (0 <= n)%Z as Hn.
  { unfold n. change 0%Z with (Qfloor 0). apply Qfloor_resp_le.
    assert (0 <= m / 1000) by (apply Qle_shift_div_l; lra). lra. }
  assert (0 <= n / 10)%Z as Hi by (apply Z.div_pos; lia).
  assert (0 <= n mod 10 < 10)%Z as Hd by (apply Z.mod_pos_bound; lia).
  rewrite parseFloat_after_digits by exact Hi.
  rewrite (parseFloat_fixed (n / 10) (n mod 10) "km away" Hi Hd).
  replace (10 * (n / 10) + n mod 10)%Z with n
    by (pose proof (Z.div_mod n 10 ltac:(lia)); lia).
  reflexivity.
Qed.

(** X5.  The order of the response mixes the units.  In a response with status
    200, a restaurant whose distance text was written for a distance from
    1000 m up to 99 950 m stands before every restaurant whose text was
    written for a distance from 99.5 m up to 1000 m: the first text starts
    with the kilometres, a number below 100, the second with the metres, a
    number from 100 on. *)
Theorem kilometres_are_listed_before_metres (engine : JSNumber.Engine)
    (w : Route.World) (h : list Route.Event) (rs : list Route.FoodStore)
    (i j : nat) (far near : Route.FoodStore) (mFar mNear : Q) :
  Route.status (fst (Route.GET engine w h)) = 200%Z ->
  Route.restaurants (fst (Route.GET engine w h)) = Some rs ->
  rs !! i = Some far -> rs !! j = Some near ->
  Route.distance far = Route.formatDistance engine (Fin mFar) ->
  1000 <= mFar -> mFar < 99950 ->
  Route.distance near = Route.formatDistance engine (Fin mNear) ->
  99.5 <= mNear -> mNear < 1000 ->
  (i < j)%nat.
Proof.
  intros Hstatus Hrs Hi Hj Hfar Hf1 Hf2 Hnear Hn1 Hn2.
  destruct (GET_ok_response engine w h Hstatus) as (rs' & Hrs' & _ & _ & Hsorted & _).
  rewrite Hrs in Hrs'. injection Hrs' as <-.
  assert (mFar / 1000 < inject_Z (10 ^ 21)) as Hbig.
  { apply Qlt_shift_div_r; [lra|].
    change (inject_Z (10 ^ 21)) with (1000000000000000000000 # 1). lra. }
  pose proof (getMeters_km engine far mFar Hf1 Hbig Hfar) as Hkf.
  pose proof (getMeters_meters engine near mNear ltac:(lra) Hn2 Hnear) as Hkn.
  set (n := Qfloor (mFar / 1000 * 10 + (1 # 2))) in *.
  assert (Qred (n # 10) < inject_Z (JSNumber.round mNear)) as Hlt.
  { rewrite Qred_correct, Qmake_Qdiv. change (inject_Z (Z.pos 10)) with 10.
    pose proof (Qfloor_le (mFar / 1000 * 10 + (1 # 2))) as Hle. fold n in Hle.
    pose proof (round_bounds mNear) as [Hlo _].
    assert (mFar / 1000 * 10 == mFar / 100) as Hdiv by field.
    rewrite Hdiv in Hle.
    assert (mFar / 100 < 999.5) as Hq by (apply Qlt_shift_div_r; lra).
    apply Qlt_shift_div_r; [lra|].
    assert (inject_Z n < 1000) as Hn1000.
    { assert (n <= 999)%Z as Hz.
      { apply Z.lt_succ_r. change (Z.succ 999) with 1000%Z.
        rewrite Zlt_Qlt. change (inject_Z 1000) with 1000. lra. }
      rewrite Zle_Qle in Hz. change (inject_Z 999) with 999 in Hz. lra. }
    assert (100 <= JSNumber.round mNear)%Z as Hr.
    { unfold JSNumber.round. change 100%Z with (Qfloor 100).
      apply Qfloor_resp_le. lra. }
    rewrite Zle_Qle in Hr. change (inject_Z 100) with 100 in Hr. lra. }
  destruct (Nat.lt_ge_cases i j) as [Hij | Hji]; [exact Hij | exfalso].
  destruct (Nat.eq_dec i j) as [-> | Hne].
  - rewrite Hi in Hj. injection Hj as <-.
    rewrite Hkf in Hkn. injection Hkn as Heq. rewrite Heq in Hlt. lra.
  - assert (j < i)%nat as Hlt' by lia.
    assert (byLeadingNumber near far) as Hord.
    { eapply (StronglySorted_lookup _ rs Hsorted j i); eassumption. }
    unfold byLeadingNumber in Hord. rewrite Hkf, Hkn in Hord.
    cbn [numLe] in Hord. lra.
Qed.

Lemma kilometres_are_listed_before_metres_witness :
  Route.distance (sampleRestaurant 0) = "1.2 km away"
  /\ Route.distance (sampleRestaurant 1) = "621 m away"
  /\ (0 < 1)%nat.
Proof.
  split; [reflexivity|]. split; [reflexivity|].
  apply (kilometres_are_listed_before_metres sampleEngine sampleWorld []
           sampleRestaurants 0 1 (sampleRestaurant 0) (sampleRestaurant 1)
           (sampleDistance 0) (sampleDistance 1)).
  - vm_compute. reflexivity.
  - vm_compute. reflexivity.
  - vm_compute. reflexivity.
  - vm_compute. reflexivity.
  - vm_compute. reflexivity.
  - vm_compute. discriminate.
  - vm_compute. reflexivity.
  - vm_compute. reflexivity.
  - vm_compute. discriminate.
  - vm_compute. reflexivity.
Defined.

(** *** The calls of [GET] *)

Lemma processPlace_trace (engine : JSNumber.Engine) (w : Route.World) (lat lon : Q)
    (place : Route.GooglePlace) (h : list Route.Event) :
  snd (Route.processPlace engine w lat lon place h)
  = (h ++ match enrichmentOf place with
          | Some params => [Route.Enrich params]
          | None => []
          end)%list.
Proof.
  unfold Route.processPlace, enrichmentOf.
  destruct (Route.place_lat place) as [plat|], (Route.place_lng place) as [plon|];
    cbn; rewrite ?app_nil_r; try reflexivity.
  unfold bind, Route.call, ret.
  destruct (Route.settled w h _); reflexivity.
Qed.

Lemma mapM_processPlace_trace (engine : JSNumber.Engine) (w : Route.World)
    (lat lon : Q) (places : list Route.GooglePlace) :
  forall h : list Route.Event,
    snd (mapM (Route.processPlace engine w lat lon) places h)
    = (h ++ map Route.Enrich (omap enrichmentOf places))%list.
Proof.
  induction places as [|p places IH]; intros h.
  - cbn. rewrite app_nil_r. reflexivity.
  - cbn [mapM]. unfold bind, ret.
    pose proof (processPlace_trace engine w lat lon p h) as Hp.
    destruct (Route.processPlace engine w lat lon p h) as [r h1]. cbn [snd] in Hp.
    specialize (IH h1).
    destruct (mapM (Route.processPlace engine w lat lon) places h1) as [rs h2].
    cbn [snd] in *. subst h1 h2.
    change (omap enrichmentOf (p :: places))
      with (match enrichmentOf p with
            | Some params => params :: omap enrichmentOf places
            | None => omap enrichmentOf places
            end).
    destruct (enrichmentOf p); cbn [map app]; rewrite <- ?app_assoc, ?app_nil_r;
      reflexivity.
Qed.

Lemma respond_trace (engine : JSNumber.Engine) (w : Route.World) (lat lon : Q)
    (places : list Route.GooglePlace) (h : list Route.Event) :
  snd (Route.respond engine w lat lon places h)
  = (h ++ map Route.Enrich (omap enrichmentOf places))%list.
Proof.
  unfold Route.respond, bind, ret.
  rewrite processBatches_mapM by lia. cbn [snd].
  apply mapM_processPlace_trace.
Qed.

Lemma fetchPage_trace (w : Route.World) (lat lon : Q) (r : option Z)
    (token : option string) (h : list Route.Event) :
  exists ev : list Route.Event,
    snd (Route.fetchPage w lat lon r token h) = (h ++ ev)%list
    /\ List.filter isCall ev = [Route.FetchNearbySearch token lat lon r].
Proof.
  unfold Route.fetchPage, bind, Route.call, Route.emit, ret.
  destruct (Route.nearbySearch w h token).
  - exists [Route.FetchNearbySearch token lat lon r]. split; reflexivity.
  - exists [Route.FetchNearbySearch token lat lon r;
            Route.ConsoleError "Google Places error"].
    cbn [snd]. rewrite <- app_assoc. split; reflexivity.
  - exists [Route.FetchNearbySearch token lat lon r]. split; reflexivity.
Qed.

Lemma followPages_trace (w : Route.World) (lat lon : Q) (r : option Z)
    (remaining : nat) :
  forall (nextToken : option string) (allResults : list Route.GooglePlace)
         (h : list Route.Event),
  exists (ev : list Route.Event) (tokens : list string),
    snd (Route.followPages w lat lon r remaining nextToken allResults h)
    = (h ++ ev)%list
    /\ List.filter isCall ev
       = flat_map (fun token =>
                     [Route.Sleep 2000; Route.FetchNearbySearch (Some token) lat lon r])
                  tokens
    /\ (length tokens <= remaining)%nat
    /\ Forall (fun token => token <> "") tokens.
Proof.
  induction remaining as [|remaining IH]; intros nextToken allResults h.
  - exists [], []. cbn. rewrite app_nil_r. repeat split; [lia | constructor].
  - cbn [Route.followPages].
    destruct (Api.truthy nextToken) eqn:Htoken.
    + destruct nextToken as [token|]; [|discriminate Htoken].
      assert (token <> "") as Hne by (intros ->; discriminate Htoken).
      unfold bind, Route.emit.
      destruct (fetchPage_trace w lat lon r (Some token) (h ++ [Route.Sleep 2000])%list)
        as (ev1 & Hev1 & Hcalls1).
      destruct (Route.fetchPage w lat lon r (Some token) (h ++ [Route.Sleep 2000])%list)
        as [[page|] h1]; cbn [snd] in Hev1; subst h1.
      * destruct (IH (snd page) (allResults ++ fst page)%list
                    ((h ++ [Route.Sleep 2000]) ++ ev1)%list)
          as (ev2 & tokens & Hev2 & Hcalls2 & Hlen & Hall).
        exists ([Route.Sleep 2000] ++ ev1 ++ ev2)%list, (token :: tokens).
        split; [rewrite Hev2, <- !app_assoc; reflexivity|].
        split.
        { rewrite !List.filter_app, Hcalls1, Hcalls2. reflexivity. }
        split; [cbn; lia | constructor; assumption].
      * exists ([Route.Sleep 2000] ++ ev1)%list, [token].
        split; [cbn [snd ret]; rewrite <- !app_assoc; reflexivity|].
        split.
        { rewrite List.filter_app, Hcalls1. reflexivity. }
        split; [cbn; lia | constructor; [assumption | constructor]].
    + exists [], []. cbn. rewrite app_nil_r. repeat split; [lia | constructor].
Qed.

Lemma provider_pages_trace (w : Route.World) (lat lon : Q)
    (clampedRadius : option Z) (h : list Route.Event) :
  exists (ev : list Route.Event) (tokens : list string),
    snd (Route.placesFromProvider w lat lon clampedRadius h) = (h ++ ev)%list
    /\ List.filter isCall ev = pageCalls lat lon clampedRadius tokens
    /\ (length tokens <= 2)%nat
    /\ Forall (fun token => token <> "") tokens.
Proof.
  unfold Route.placesFromProvider, bind, Route.emit.
  set (h0 := (h ++ [Route.ConsoleLog "[API CALL] Fetching places from Google API"])%list).
  destruct (fetchPage_trace w lat lon clampedRadius None h0) as (ev1 & Hev1 & Hcalls1).
  destruct (Route.fetchPage w lat lon clampedRadius None h0) as [[firstPage|] h1];
    cbn [snd] in Hev1; subst h1.
  - destruct (followPages_trace w lat lon clampedRadius 2 (snd firstPage)
                (fst firstPage) (h0 ++ ev1)%list)
      as (ev2 & tokens & Hev2 & Hcalls2 & Hlen & Hall).
    destruct (Route.followPages w lat lon clampedRadius 2 (snd firstPage)
                (fst firstPage) (h0 ++ ev1)%list) as [[allResults|] h2];
      cbn [snd] in Hev2; subst h2;
      exists ([Route.ConsoleLog "[API CALL] Fetching places from Google API"]
              ++ ev1 ++ ev2)%list, tokens;
      (split; [unfold h0; cbn [snd ret]; rewrite <- !app_assoc; reflexivity|]);
      (split; [|split; assumption]);
      rewrite !List.filter_app, Hcalls1, Hcalls2; reflexivity.
  - exists ([Route.ConsoleLog "[API CALL] Fetching places from Google API"] ++ ev1)%list,
      [].
    split; [unfold h0; cbn [snd ret]; rewrite <- !app_assoc; reflexivity|].
    split; [rewrite List.filter_app, Hcalls1; reflexivity|].
    split; [cbn; lia | constructor].
Qed.


Lemma choosePlaces_trace (w : Route.World) (lat lon : Q) (r : option Z)
    (cachedPlaces : option (list Api.PlaceRow)) (cacheError : bool)
    (h : list Route.Event) :
  exists ev : list Route.Event,
    snd (Route.choosePlaces w lat lon r cachedPlaces cacheError h) = (h ++ ev)%list
    /\ ((exists rows,
           cachedPlaces = Some rows /\ (5 <= length rows)%nat /\ cacheError = false
           /\ ev = [Route.ConsoleLog "[CACHE HIT] Using cached places"]
           /\ fst (Route.choosePlaces w lat lon r cachedPlaces cacheError h)
              = Some (map Route.placeOfRow rows))
        \/ ((forall rows, cachedPlaces = Some rows ->
               (length rows < 5)%nat \/ cacheError = true)
            /\ exists tokens,
                 List.filter isCall ev = pageCalls lat lon r tokens
                 /\ (length tokens <= 2)%nat
                 /\ Forall (fun token => token <> "") tokens)).
Proof.
  unfold Route.choosePlaces.
  destruct (provider_pages_trace w lat lon r h) as (ev & tokens & Hev & Htok).
  destruct cachedPlaces as [rows|].
  - destruct (5 <=? length rows)%nat eqn:Hlen; cbn [andb].
    + destruct cacheError; cbn [negb].
      * exists ev. split; [exact Hev|]. right.
        split; [intros rows' _; right; reflexivity | exists tokens; exact Htok].
      * apply Nat.leb_le in Hlen.
        exists [Route.ConsoleLog "[CACHE HIT] Using cached places"].
        split; [reflexivity|]. left. exists rows. repeat split; assumption.
    + apply Nat.leb_gt in Hlen.
      exists ev. split; [exact Hev|]. right.
      split; [intros rows' [= <-]; left; exact Hlen | exists tokens; exact Htok].
  - exists ev. split; [exact Hev|]. right.
    split; [intros rows' H; discriminate H | exists tokens; exact Htok].
Qed.

(** The steps of [GET] once the coordinates are read and the key is set:
    the clock, the cached search, the choice of the places, then one
    enrichment for each place with coordinates, or the report of a fetch
    that threw. *)
Lemma GET_trace (engine : JSNumber.Engine) (w : Route.World) (h : list Route.Event)
    (lat lon : Q) :
  requestedAt w lat lon ->
  Api.truthy (Route.GOOGLE_PLACES_API_KEY w) = true ->
  let t := Route.clock w h in
  let h1 := (h ++ [Route.ClockRead t;
                   Route.DbSelectNearby lat lon (requestedRadius w) (t - Api.TTL_MS)])%list in
  let selected := Route.selectNearby w (h ++ [Route.ClockRead t])%list in
  let chosen := Route.choosePlaces w lat lon (requestedRadius w)
                  (fst selected) (snd selected) h1 in
  Route.GET engine w h
  = match fst chosen with
    | Some places => Route.respond engine w lat lon places (snd chosen)
    | None =>
        (Route.unexpected,
         (snd chosen ++ [Route.ConsoleError "Unexpected error in /api/restaurants"])%list)
    end.
Proof.
  intros [Hlat Hlon] Hkey. cbv zeta.
  unfold Route.GET. rewrite Hlat, Hlon. cbv zeta.
  destruct (Api.orIfFalsy (Route.GOOGLE_PLACES_API_KEY w) None) as [apiKey|] eqn:Hk.
  2:{ unfold Api.orIfFalsy in Hk. rewrite Hkey in Hk.
      destruct (Route.GOOGLE_PLACES_API_KEY w); discriminate. }
  unfold bind, Route.readClock, Route.call. cbv zeta.
  fold (requestedRadius w).
  rewrite <- app_assoc. cbn [app].
  destruct (Route.choosePlaces _ _ _ _ _ _ _) as [[places|] h2]; reflexivity.
Qed.




Lemma Forall_calls {P : Route.Event -> Prop} (ev : list Route.Event) :
  (forall e, isCall e = false -> P e) ->
  Forall P (List.filter isCall ev) -> Forall P ev.
Proof.
  intros Hconsole. induction ev as [|e ev IH]; [constructor|].
  cbn [List.filter]. destruct (isCall e) eqn:He.
  - intros H. inversion H; subst. constructor; auto.
  - intros H. constructor; auto.
Qed.

Lemma pageCalls_callOf (w : Route.World) (lat lon : Q) (tokens : list string) :
  requestedAt w lat lon ->
  Api.truthy (Route.GOOGLE_PLACES_API_KEY w) = true ->
  Forall (callOf w) (pageCalls lat lon (requestedRadius w) tokens).
Proof.
  intros Hat Hkey. unfold pageCalls. constructor; [cbn; auto|].
  induction tokens as [|token tokens IH]; [constructor|].
  cbn [flat_map app]. constructor; [cbn; eauto|]. constructor; [cbn; auto|].
  exact IH.
Qed.

(** Every step of [GET], classified. *)
Lemma GET_steps (engine : JSNumber.Engine) (w : Route.World) (h : list Route.Event) :
  exists ev : list Route.Event,
    snd (Route.GET engine w h) = (h ++ ev)%list /\ Forall (callOf w) ev.
Proof.
  destruct (JSNumber.parseFloat (default "" (Api.orIfFalsy (Route.query_lat w) None)))
    as [lat| | |] eqn:Hlat;
    try (exists []; unfold Route.GET; rewrite Hlat, app_nil_r;
         split; [reflexivity | constructor]).
  destruct (JSNumber.parseFloat (default "" (Api.orIfFalsy (Route.query_lon w) None)))
    as [lon| | |] eqn:Hlon;
    try (exists []; unfold Route.GET; rewrite Hlat, Hlon, app_nil_r;
         split; [reflexivity | constructor]).
  assert (requestedAt w lat lon) as Hat by (split; assumption).
  destruct (Api.truthy (Route.GOOGLE_PLACES_API_KEY w)) eqn:Hkey.
  - rewrite (GET_trace engine w h lat lon Hat Hkey). cbv zeta.
    set (t := Route.clock w h).
    set (h1 := (h ++ [Route.ClockRead t;
                      Route.DbSelectNearby lat lon (requestedRadius w)
                        (t - Api.TTL_MS)])%list).
    destruct (choosePlaces_trace w lat lon (requestedRadius w)
                (fst (Route.selectNearby w (h ++ [Route.ClockRead t])%list))
                (snd (Route.selectNearby w (h ++ [Route.ClockRead t])%list)) h1)
      as (ev & Hev & Hcases).
    assert (Forall (callOf w) ev) as Hcalls.
    { destruct Hcases as [(rows & _ & _ & _ & -> & _) | (_ & tokens & Hcalls & _)].
      - constructor; [exact Logic.I | constructor].
      - apply Forall_calls; [intros [] He; try discriminate He; exact Logic.I|].
        rewrite Hcalls. apply pageCalls_callOf; assumption. }
    assert (Forall (callOf w)
              [Route.ClockRead t;
               Route.DbSelectNearby lat lon (requestedRadius w) (t - Api.TTL_MS)])
      as Hfirst.
    { constructor; [cbn; eauto|]. constructor; [cbn; auto | constructor]. }
    destruct (fst (Route.choosePlaces _ _ _ _ _ _ _)) as [places|].
    + rewrite respond_trace, Hev. unfold h1.
      exists ([Route.ClockRead t;
               Route.DbSelectNearby lat lon (requestedRadius w) (t - Api.TTL_MS)]
              ++ ev ++ map Route.Enrich (omap enrichmentOf places))%list.
      split; [rewrite <- !app_assoc; reflexivity|].
      apply Forall_app. split; [exact Hfirst|].
      apply Forall_app. split; [exact Hcalls|].
      apply List.Forall_forall. intros e He. apply in_map_iff in He as (p & <- & _).
      cbn. eauto.
    + cbn [snd]. rewrite Hev. unfold h1.
      exists ([Route.ClockRead t;
               Route.DbSelectNearby lat lon (requestedRadius w) (t - Api.TTL_MS)]
              ++ ev ++ [Route.ConsoleError "Unexpected error in /api/restaurants"])%list.
      split; [rewrite <- !app_assoc; reflexivity|].
      apply Forall_app. split; [exact Hfirst|].
      apply Forall_app. split; [exact Hcalls|].
      constructor; [exact Logic.I | constructor].
  - exists [Route.ConsoleError "GOOGLE_PLACES_API_KEY is not set"].
    unfold Route.GET. rewrite Hlat, Hlon. cbv zeta.
    unfold Api.orIfFalsy. rewrite Hkey.
    split; [reflexivity|]. constructor; [exact Logic.I | constructor].
Qed.


(** *** The radius of the search *)

Lemma parseInt_integerToString (n : Z) :
  JSNumber.parseInt (JSNumber.integerToString n) = Some n.
Proof.
  unfold JSNumber.integerToString.
  destruct (n <? 0)%Z eqn:Hneg.
  - apply Z.ltb_lt in Hneg.
    destruct (takeDigits_decimal (- n) "" 0 0 ltac:(lia)) as (k & Hk & Heq).
    rewrite string_app_nil_r in Heq.
    unfold JSNumber.parseInt.
    change (JS.skipWhiteSpace ("-" ++ JSNumber.decimal (- n)))
      with ("-" ++ JSNumber.decimal (- n)).
    change (JS.takeSign ("-" ++ JSNumber.decimal (- n)))
      with (true, JSNumber.decimal (- n)).
    cbv iota. rewrite Heq. cbn [JS.takeDigits].
    destruct k as [|k]; [lia|]. cbn [Nat.add]. f_equal; lia.
  - apply Z.ltb_ge in Hneg.
    destruct (takeDigits_decimal n "" 0 0 Hneg) as (k & Hk & Heq).
    rewrite string_app_nil_r in Heq.
    destruct (decimal_head n Hneg) as (d & r & Hd & Hdec).
    unfold JSNumber.parseInt.
    rewrite Hdec. cbn [JS.skipWhiteSpace].
    rewrite (digit_not_space _ d (digitOf_digitChar d Hd)).
    rewrite (digit_takeSign _ d _ (digitOf_digitChar d Hd)).
    rewrite <- Hdec, Heq. cbn [JS.takeDigits].
    destruct k as [|k]; [lia|]. cbn [Nat.add]. f_equal; lia.
Qed.

Lemma integerToString_truthy (n : Z) :
  Api.truthy (Some (JSNumber.integerToString n)) = true.
Proof.
  unfold JSNumber.integerToString. destruct (n <? 0)%Z eqn:Hneg; [reflexivity|].
  apply Z.ltb_ge in Hneg.
  destruct (decimal_head n Hneg) as (d & r & _ & ->). reflexivity.
Qed.

(** X9.  The radius the main page asks for is cut to 5000 m.  When the request
    carries the radius that [handleRadiusChange] keeps for a choice
    [newRadius] (between 500 and 16 093), written as a whole number, every
    cached search and every provider search of [GET] is made with the
    smaller of that radius and 5000: all the choices above 5000 m search the
    same 5000 m. *)
Theorem search_radius_is_at_most_5000 (engine : JSNumber.Engine) (w : Route.World)
    (h : list Route.Event) (newRadius : Z) :
  Route.query_radius w
  = Some (JSNumber.integerToString (Home.handleRadiusChange newRadius)) ->
  (500 <= Z.min 5000 (Home.handleRadiusChange newRadius) <= 5000)%Z
  /\ exists ev : list Route.Event,
       snd (Route.GET engine w h) = (h ++ ev)%list
       /\ Forall (fun e =>
                    forall r, radiusOf e = Some r ->
                              r = Some (Z.min 5000 (Home.handleRadiusChange newRadius)))
                 ev.
Proof.
  intros Hradius.
  assert (500 <= Home.handleRadiusChange newRadius <= 16093)%Z as Hrange
    by (unfold Home.handleRadiusChange; lia).
  split; [lia|].
  assert (requestedRadius w = Some (Z.min 5000 (Home.handleRadiusChange newRadius)))
    as Hr.
  { unfold requestedRadius. rewrite Hradius. unfold Api.orIfFalsy.
    rewrite integerToString_truthy. cbn [default]. unfold Datatypes.id.
    rewrite parseInt_integerToString. cbn [fmap option_fmap option_map].
    f_equal. unfold Api.clampedRadius. lia. }
  destruct (GET_steps engine w h) as (ev & Hev & Hall).
  exists ev. split; [exact Hev|].
  eapply Forall_impl; [exact Hall|].
  intros [] He r Hr'; cbn in He, Hr'; try discriminate Hr';
    injection Hr' as <-; destruct He as (_ & -> & _); exact Hr.
Qed.

Lemma search_radius_is_at_most_5000_witness :
  (500 <= Z.min 5000 (Home.handleRadiusChange 16093) <= 5000)%Z
  /\ exists ev : list Route.Event,
       snd (Route.GET sampleEngine sampleWorld []) = ([] ++ ev)%list
       /\ Forall (fun e =>
                    forall r, radiusOf e = Some r ->
                              r = Some (Z.min 5000 (Home.handleRadiusChange 16093)))
                 ev.
Proof.
  apply (search_radius_is_at_most_5000 sampleEngine sampleWorld [] 16093).
  reflexivity.
Defined.

(** *** The restaurant built from a place *)

Lemma cuisineOf_cases (types : option (list string)) :
  Route.cuisineOf types = "Mexican" \/ Route.cuisineOf types = "Japanese"
  \/ Route.cuisineOf types = "Italian" \/ Route.cuisineOf types = "Chinese"
  \/ Route.cuisineOf types = "Indian" \/ Route.cuisineOf types = "American"
  \/ Route.cuisineOf types = "Restaurant".
Proof.
  unfold Route.cuisineOf. cbv zeta.
  repeat match goal with
         | |- context [if ?b then _ else _] => destruct b
         end; tauto.
Qed.

(** X10.  The cuisine of a restaurant is one of seven labels, found in the types
    of the place in a fixed order of precedence (Mexican first), and the
    spice level follows from it: "Hot" exactly for Indian, "Medium" exactly
    for Mexican, "Mild" for the five others.  No restaurant is labelled Thai
    or Korean, although the spice levels provide for them. *)
Theorem cuisine_and_spice_level (engine : JSNumber.Engine) (distanceMeters : Num)
    (place : Route.GooglePlace) (plat plon : Q) (placeData : Api.PlaceDetails) :
  let s := Route.storeOf engine distanceMeters place plat plon placeData in
  In (Route.cuisine s)
     ["Mexican"; "Japanese"; "Italian"; "Chinese"; "Indian"; "American"; "Restaurant"]
  /\ (Route.cuisine s = "Mexican"
      <-> exists t, In t (default [] (Route.types place))
                    /\ JS.includes (JS.toLowerCase t) "mexican" = true)
  /\ (Route.spiceLevel s = "Hot" <-> Route.cuisine s = "Indian")
  /\ (Route.spiceLevel s = "Medium" <-> Route.cuisine s = "Mexican")
  /\ (Route.spiceLevel s = "Mild"
      <-> Route.cuisine s <> "Indian" /\ Route.cuisine s <> "Mexican").
Proof.
  cbv zeta. cbn [Route.storeOf Route.cuisine Route.spiceLevel].
  split.
  { destruct (cuisineOf_cases (Route.types place))
      as [H | [H | [H | [H | [H | [H | H]]]]]]; rewrite H; cbn; tauto. }
  split.
  { unfold Route.cuisineOf, Route.someIncludes. cbv zeta.
    destruct (existsb (fun t => JS.includes t "mexican")
                (map JS.toLowerCase (default [] (Route.types place)))) eqn:Hm.
    - split; [intros _|reflexivity].
      apply existsb_exists in Hm as (t & Ht & Hinc).
      apply in_map_iff in Ht as (t0 & <- & Ht0). eauto.
    - split.
      + repeat match goal with
               | |- context [if ?b then _ else _] => destruct b
               end; discriminate.
      + intros (t & Ht & Hinc).
        assert (existsb (fun t => JS.includes t "mexican")
                  (map JS.toLowerCase (default [] (Route.types place))) = true) as Habs.
        { apply existsb_exists. exists (JS.toLowerCase t).
          split; [apply in_map, Ht | exact Hinc]. }
        congruence. }
  destruct (cuisineOf_cases (Route.types place))
    as [H | [H | [H | [H | [H | [H | H]]]]]]; rewrite H;
    repeat split; intros; try discriminate; try reflexivity;
    try (destruct H0; congruence).
Qed.

(** X11.  A restaurant has at most three specialties and the first is its
    cuisine.  "Open now" is listed only for a place that is open, and never
    for a place that is both highly rated (rating of 4 or more) and popular
    (more than 200 ratings): the list is then the cuisine, "Highly rated"
    and "Popular", whatever the opening hours. *)
Theorem specialties_are_at_most_three (engine : JSNumber.Engine) (distanceMeters : Num)
    (place : Route.GooglePlace) (plat plon : Q) (placeData : Api.PlaceDetails) :
  let s := Route.storeOf engine distanceMeters place plat plon placeData in
  (length (Route.specialties s) <= 3)%nat
  /\ head (Route.specialties s) = Some (Route.cuisine s)
  /\ (In "Open now" (Route.specialties s) ->
      exists hours, Api.openingHours placeData = Some hours
                    /\ Api.openNowFlag hours = Some true)
  /\ (forall rating total,
        Route.place_rating place = Some rating -> 4 <= rating ->
        Route.user_ratings_total place = Some total -> 200 < total ->
        Route.specialties s = [Route.cuisine s; "Highly rated"; "Popular"]).
Proof.
  cbv zeta. cbn [Route.storeOf Route.cuisine Route.specialties].
  unfold Route.specialtiesOf. cbv zeta.
  set (c := Route.cuisineOf (Route.types place)).
  assert (c <> "Open now") as Hc.
  { unfold c. destruct (cuisineOf_cases (Route.types place))
      as [H | [H | [H | [H | [H | [H | H]]]]]]; rewrite H; discriminate. }
  split; [apply slice0_length|].
  split.
  { destruct (Route.place_rating place) as [r|];
      [destruct (negb (Qeq_bool r 0) && JS.geb r 4.0)|];
      (destruct (Route.user_ratings_total place) as [n|];
       [destruct (negb (Qeq_bool n 0) && JS.gtb n 200)|]);
      (destruct (Api.openingHours placeData) as [hours|];
       [destruct (default false (Api.openNowFlag hours))|]); reflexivity. }
  split.
  { intros Hin.
    destruct (Api.openingHours placeData) as [hours|].
    - exists hours. split; [reflexivity|].
      destruct (Api.openNowFlag hours) as [[]|]; [reflexivity | |];
        cbn [default] in Hin; exfalso;
        (destruct (Route.place_rating place) as [r|];
         [destruct (negb (Qeq_bool r 0) && JS.geb r 4.0)|]);
        (destruct (Route.user_ratings_total place) as [n|];
         [destruct (negb (Qeq_bool n 0) && JS.gtb n 200)|]);
        cbn in Hin; intuition congruence.
    - exfalso.
      destruct (Route.place_rating place) as [r|];
        [destruct (negb (Qeq_bool r 0) && JS.geb r 4.0)|];
        (destruct (Route.user_ratings_total place) as [n|];
         [destruct (negb (Qeq_bool n 0) && JS.gtb n 200)|]);
        cbn in Hin; intuition congruence. }
  intros rating total Hr Hr4 Ht Ht200. rewrite Hr, Ht.
  assert (negb (Qeq_bool rating 0) && JS.geb rating 4.0 = true) as ->.
  { apply andb_true_iff. split.
    - apply negb_true_iff, Qeq_bool_false. lra.
    - unfold JS.geb. apply leb_true. lra. }
  assert (negb (Qeq_bool total 0) && JS.gtb total 200 = true) as ->.
  { apply andb_true_iff. split.
    - apply negb_true_iff, Qeq_bool_false. lra.
    - unfold JS.gtb. apply ltb_true. lra. }
  destruct (Api.openingHours placeData) as [hours|];
    [destruct (default false (Api.openNowFlag hours))|]; reflexivity.
Qed.

(** The first place of the examples is open, highly rated and popular. *)
Example open_place_without_open_now :
  Route.specialties (sampleRestaurant 0) = ["Mexican"; "Highly rated"; "Popular"]
  /\ (Api.openNowFlag <$> Route.openingHours (sampleRestaurant 0)) = Some (Some true).
Proof. split; reflexivity. Qed.

Lemma falsy_app (a b : string) : JS.falsy (a ++ b) = JS.falsy a && JS.falsy b.
Proof. destruct a; reflexivity. Qed.

Lemma falsy_join (sep x : string) (r : list string) :
  JS.falsy x = false -> JS.falsy (JS.join sep (x :: r)) = false.
Proof.
  intros Hx. destruct r as [|y r]; [exact Hx|].
  cbn [JS.join]. rewrite falsy_app, Hx. reflexivity.
Qed.

Lemma truthy_default (o : option string) :
  Api.truthy o = true -> JS.falsy (default "" o) = false.
Proof.
  destruct o as [s|]; [|discriminate]. cbn. intros H.
  apply negb_true_iff in H. exact H.
Qed.

(** X12.  Every restaurant has a description: the one of the enrichment when it
    has one; otherwise the vicinity, the rating, the number of reviews and
    the price level that the place has, joined; and for a place with none of
    these the sentence "Local <cuisine> spot.".  It is never empty. *)
Theorem description_is_never_empty (engine : JSNumber.Engine) (distanceMeters : Num)
    (place : Route.GooglePlace) (plat plon : Q) (placeData : Api.PlaceDetails) :
  let s := Route.storeOf engine distanceMeters place plat plon placeData in
  JS.falsy (Route.description s) = false
  /\ (Api.truthy (Api.description placeData) = true ->
      Api.description placeData = Some (Route.description s))
  /\ (Api.truthy (Api.description placeData) = false ->
      Api.truthy (Route.vicinity place) = false ->
      Route.truthyNumber (Route.place_rating place) = false ->
      Route.truthyNumber (Route.user_ratings_total place) = false ->
      Route.price_level place = None ->
      Route.description s = "Local " ++ JS.toLowerCase (Route.cuisine s) ++ " spot.").
Proof.
  cbv zeta. cbn [Route.storeOf Route.cuisine Route.description].
  unfold Route.describe.
  destruct (Api.truthy (Api.description placeData)) eqn:Hd.
  - split; [apply truthy_default, Hd|].
    split; [|discriminate].
    intros _. destruct (Api.description placeData); [reflexivity | discriminate].
  - cbv zeta. split; [|split; [discriminate|]].
    + destruct (Api.truthy (Route.vicinity place)) eqn:Hv;
        destruct (Route.truthyNumber (Route.place_rating place));
        destruct (Route.truthyNumber (Route.user_ratings_total place));
        destruct (Route.price_level place) as [price|];
        cbn [app]; try reflexivity;
        apply falsy_join;
        first [ apply truthy_default, Hv
              | reflexivity
              | rewrite falsy_app, andb_false_r; reflexivity ].
    + intros _ -> -> -> ->. reflexivity.
Qed.

(** *** A place stored and read back *)

Lemma splitFrom_piece (sep : ascii) (a rest piece : string) :
  lacks sep a = true ->
  JSNumber.splitFrom sep (a ++ rest) piece = JSNumber.splitFrom sep rest (piece ++ a).
Proof.
  revert piece. induction a as [|c a IH]; intros piece Ha.
  - rewrite string_app_nil_r. reflexivity.
  - cbn [lacks] in Ha. apply andb_true_iff in Ha as [Hc Ha].
    apply negb_true_iff in Hc.
    rewrite string_app_cons. cbn [JSNumber.splitFrom]. rewrite Hc.
    rewrite IH by exact Ha. rewrite string_app_assoc. reflexivity.
Qed.

Lemma split_join (sep : ascii) (ts : list string) :
  ts <> [] -> Forall (fun t => lacks sep t = true) ts ->
  JSNumber.split sep (JS.join (String sep "") ts) = ts.
Proof.
  unfold JSNumber.split.
  induction ts as [|x ts IH]; [contradiction|]. intros _ Hall.
  inversion Hall as [|? ? Hx Hts]; subst.
  destruct ts as [|y ts].
  - cbn [JS.join]. rewrite <- (string_app_nil_r x) at 1.
    rewrite splitFrom_piece by exact Hx. reflexivity.
  - change (JS.join (String sep "") (x :: y :: ts))
      with (x ++ String sep "" ++ JS.join (String sep "") (y :: ts)).
    rewrite splitFrom_piece by exact Hx.
    change (String sep "" ++ JS.join (String sep "") (y :: ts))
      with (String sep (JS.join (String sep "") (y :: ts))).
    cbn [JSNumber.splitFrom]. rewrite Ascii.eqb_refl.
    rewrite IH; [reflexivity | discriminate | exact Hts].
Qed.

(** X13.  The place that an enrichment writes to the store is the place the
    cached search of [GET] reads back.  When every type tag is storable
    (not empty, no comma), the place rebuilt from the row written for a
    place has the same id, name, coordinates, types, rating, number of
    ratings and price level, hence the same cuisine, and is enriched with
    the same id, name, coordinates, address and primary type; its photos are
    the references of the stored gallery. *)
Theorem stored_place_is_read_back (place : Route.GooglePlace) (plat plon : Q)
    (d : Api.Details) (photoReference cover : option string)
    (entries : list Api.GalleryEntry) (hasPhotos : bool) (updated expires : Z) :
  let params := Route.paramsOf place plat plon in
  let row := Api.placeRow params d photoReference cover entries hasPhotos
               updated expires in
  let place' := Route.placeOfRow row in
  let params' := Route.paramsOf place' (Api.row_lat row) (Api.row_lon row) in
  Forall storableTag (default [] (Route.types place)) ->
  (Route.place_id place' = Route.place_id place
   /\ Route.place_name place' = Route.place_name place
   /\ Route.place_lat place' = Some plat /\ Route.place_lng place' = Some plon
   /\ default [] (Route.types place') = default [] (Route.types place)
   /\ Route.place_rating place' = Route.place_rating place
   /\ Route.user_ratings_total place' = Route.user_ratings_total place
   /\ Route.price_level place' = Route.price_level place
   /\ Route.cuisineOf (Route.types place') = Route.cuisineOf (Route.types place))
  /\ (Api.placeId params' = Api.placeId params
      /\ Api.name params' = Api.name params
      /\ Api.lat params' = Api.lat params /\ Api.lon params' = Api.lon params
      /\ Api.formattedAddress params' = Api.formattedAddress params
      /\ Api.primaryType params' = Api.primaryType params)
  /\ Route.photos place'
     = Some (map (fun entry => Api.mkPhotoRef (Api.entry_id entry) None None None)
                 entries).
Proof.
  cbv zeta. intros Hall.
  assert (default [] (Route.types (Route.placeOfRow
            (Api.placeRow (Route.paramsOf place plat plon) d photoReference cover
               entries hasPhotos updated expires)))
          = default [] (Route.types place)) as Htypes.
  { cbn [Route.placeOfRow Route.types Api.placeRow Api.type_tags Route.paramsOf
         Api.types default].
    destruct (Route.types place) as [ts|]; [|reflexivity].
    cbn [fmap option_fmap option_map default] in *.
    destruct ts as [|t ts]; [reflexivity|].
    assert (Api.truthy (Some (JS.join "," (t :: ts))) = true) as ->.
    { inversion Hall as [|? ? [Ht _] _]; subst. cbn [Api.truthy].
      rewrite (falsy_join "," t ts Ht). reflexivity. }
    apply (split_join ","); [discriminate|].
    eapply Forall_impl; [exact Hall|]. intros x [_ Hx]. exact Hx. }
  split.
  { repeat (split; [reflexivity|]).
    split; [exact Htypes|]. repeat (split; [reflexivity|]).
    unfold Route.cuisineOf. rewrite Htypes. reflexivity. }
  split.
  { repeat (split; [reflexivity|]). split.
    - cbn. destruct (Route.vicinity place), (Route.formatted_address place); reflexivity.
    - cbn [Api.primaryType Route.paramsOf]. rewrite Htypes. reflexivity. }
  cbn. destruct entries; reflexivity.
Qed.

Lemma stored_place_is_read_back_witness :
  Route.cuisineOf
    (Route.types
       (Route.placeOfRow
          (Api.placeRow
             (Route.paramsOf
                (Route.mkGooglePlace "place-far" "Far Away Diner" (Some 38.9)
                   (Some (-122.43)) (Some "12 Hill St") None
                   (Some ["restaurant"; "Mexican_Restaurant"]) (Some 4.5) (Some 320)
                   (Some 1) None)
                38.9 (-122.43))
             Api.noDetails None None [] false 0 Api.TTL_MS)))
  = "Mexican".
Proof.
  pose proof (stored_place_is_read_back
                (Route.mkGooglePlace "place-far" "Far Away Diner" (Some 38.9)
                   (Some (-122.43)) (Some "12 Hill St") None
                   (Some ["restaurant"; "Mexican_Restaurant"]) (Some 4.5) (Some 320)
                   (Some 1) None)
                38.9 (-122.43) Api.noDetails None None [] false 0 Api.TTL_MS) as H.
  cbv zeta in H.
  destruct H as [(_ & _ & _ & _ & _ & _ & _ & _ & Hc) _].
  - repeat constructor.
  - rewrite Hc. reflexivity.
Defined.

(** ** The enrichment of a place, on every path *)

Lemma fallback_not_empty (types : option (list string)) :
  JS.falsy (Api.getCuisineFallbackImageFromTypes types) = false.
Proof.
  unfold Api.getCuisineFallbackImageFromTypes. cbv zeta.
  repeat match goal with
         | |- context [if ?b then _ else _] => destruct b
         end; reflexivity.
Qed.

Section Spends.
Variable kind : Api.Event -> bool.

Lemma spends_ret {A} (a : A) : spends kind 0 (ret a).
Proof. intros h. exists []. cbn. rewrite app_nil_r. split; [reflexivity | lia]. Qed.

Lemma spends_le {A} (n n' : nat) (m : Stateful (list Api.Event) A) :
  (n <= n')%nat -> spends kind n m -> spends kind n' m.
Proof.
  intros Hle Hm h. destruct (Hm h) as (ev & Hev & Hn).
  exists ev. split; [exact Hev | lia].
Qed.

Lemma spends_bind {A B} (n1 n2 : nat) (m : Stateful (list Api.Event) A)
    (k : A -> Stateful (list Api.Event) B) :
  spends kind n1 m -> (forall a, spends kind n2 (k a)) ->
  spends kind (n1 + n2) (bind m k).
Proof.
  intros Hm Hk h. unfold bind.
  destruct (Hm h) as (ev1 & Hev1 & Hn1).
  destruct (m h) as [a h1]. cbn [snd] in Hev1. subst h1.
  destruct (Hk a (h ++ ev1)%list) as (ev2 & Hev2 & Hn2).
  exists (ev1 ++ ev2)%list. split; [rewrite Hev2, app_assoc; reflexivity|].
  unfold countOfKind in *. rewrite List.filter_app, length_app. lia.
Qed.

Lemma spends_emit (e : Api.Event) :
  spends kind (if kind e then 1 else 0) (Api.emit e).
Proof.
  intros h. exists [e]. split; [reflexivity|].
  unfold countOfKind. cbn. destruct (kind e); cbn; lia.
Qed.

Lemma spends_call {A} (answer : list Api.Event -> A) (e : Api.Event) :
  spends kind (if kind e then 1 else 0) (Api.call answer e).
Proof.
  intros h. exists [e]. split; [reflexivity|].
  unfold countOfKind. cbn. destruct (kind e); cbn; lia.
Qed.

Lemma spends_readClock (w : Api.World) :
  (forall t, kind (Api.ClockRead t) = false) -> spends kind 0 (Api.readClock w).
Proof.
  intros Hk h. exists [Api.ClockRead (Api.clock w h)]. split; [reflexivity|].
  unfold countOfKind. cbn. rewrite Hk. cbn. lia.
Qed.
End Spends.

Lemma spends_bind_sub (kind : Api.Event -> bool) {A B} (N n1 : nat)
    (m : Stateful (list Api.Event) A) (k : A -> Stateful (list Api.Event) B) :
  spends kind n1 m -> (n1 <= N)%nat -> (forall a, spends kind (N - n1) (k a)) ->
  spends kind N (bind m k).
Proof.
  intros Hm Hle Hk. apply (spends_le kind (n1 + (N - n1)) N); [lia|].
  apply spends_bind; assumption.
Qed.

Lemma spends_assoc (kind : Api.Event -> bool) {A B C} (n : nat)
    (m : Stateful (list Api.Event) A) (f : A -> Stateful (list Api.Event) B)
    (g : B -> Stateful (list Api.Event) C) :
  spends kind n (bind m (fun x => bind (f x) g)) -> spends kind n (bind (bind m f) g).
Proof.
  intros H h. destruct (H h) as (ev & Hev & Hn). exists ev. split; [|exact Hn].
  rewrite <- Hev. unfold bind. destruct (m h) as [a h1].
  destruct (f a h1) as [b h2]. reflexivity.
Qed.

(** A step that spends only when it answers. *)
Lemma spends_bind_option (kind : Api.Event -> bool) {A B} (N n1 : nat)
    (m : Stateful (list Api.Event) (option A))
    (k : option A -> Stateful (list Api.Event) B) :
  (forall h, exists ev,
      snd (m h) = (h ++ ev)%list /\ (countOfKind kind ev <= n1)%nat
      /\ (fst (m h) = None -> countOfKind kind ev = 0%nat)) ->
  (n1 <= N)%nat ->
  (forall a, spends kind 0 (k (Some a))) ->
  spends kind N (k None) ->
  spends kind N (bind m k).
Proof.
  intros Hm Hle Hsome Hnone h. unfold bind.
  destruct (Hm h) as (ev1 & Hev1 & Hn1 & Hzero).
  destruct (m h) as [[a|] h1]; cbn [fst snd] in *; subst h1.
  - destruct (Hsome a (h ++ ev1)%list) as (ev2 & Hev2 & Hn2).
    exists (ev1 ++ ev2)%list. split; [rewrite Hev2, app_assoc; reflexivity|].
    unfold countOfKind in *. rewrite List.filter_app, length_app. lia.
  - destruct (Hnone (h ++ ev1)%list) as (ev2 & Hev2 & Hn2).
    exists (ev1 ++ ev2)%list. split; [rewrite Hev2, app_assoc; reflexivity|].
    specialize (Hzero eq_refl).
    unfold countOfKind in *. rewrite List.filter_app, length_app. lia.
Qed.

(** The cost of a computation in events of one kind, for a kind that only
    looks at the sort of the event: a details call counts [cDetails], a
    photo fetch [cPhoto], a write of a place [cWrite], a pause [cPause],
    anything else nothing. *)
Section Budget.
Variable kind : Api.Event -> bool.
Variables cDetails cPhoto cWrite cPause : nat.
Hypothesis cost :
  forall e, (if kind e then 1 else 0)%nat
            = match e with
              | Api.FetchPlaceDetails _ => cDetails
              | Api.FetchPhoto _ _ => cPhoto
              | Api.DbUpsertPlace _ | Api.DbUpdatePlace _ _ => cWrite
              | Api.Sleep _ => cPause
              | _ => 0%nat
              end.

Ltac spend_leaf :=
  lazymatch goal with
  | |- spends _ _ (ret _) => apply spends_ret
  | |- spends _ _ (Api.emit _) => apply spends_emit
  | |- spends _ _ (Api.call _ _) => apply spends_call
  | |- spends _ _ (Api.readClock _) =>
      apply spends_readClock; intros t;
      pose proof (cost (Api.ClockRead t)) as Hc; cbn in Hc;
      destruct (kind (Api.ClockRead t)); [discriminate Hc | reflexivity]
  | |- _ => solve [eauto]
  end.

Ltac spend_lia := rewrite ?cost; cbn; lia.

Ltac spend_check :=
  lazymatch goal with
  | |- spends _ _ (bind (Api.answerFromCachedPhotos _ _ _ _ _ _ _) _) =>
      eapply spends_bind_option;
      [solve [eauto] | spend_lia | intros; spend_check | spend_check]
  | |- spends _ _ (bind (bind _ _) _) => apply spends_assoc; spend_check
  | |- spends _ _ (bind (if ?c then _ else _) _) => destruct c; spend_check
  | |- spends _ _ (bind (match ?x with _ => _ end) _) => destruct x; spend_check
  | |- spends _ _ (bind _ _) =>
      eapply spends_bind_sub; [spend_leaf | spend_lia | intros; spend_check]
  | |- spends _ _ (if ?c then _ else _) => destruct c; spend_check
  | |- spends _ _ (match ?x with _ => _ end) => destruct x; spend_check
  | |- spends _ _ (let _ := _ in _) => cbv zeta; spend_check
  | |- _ => eapply spends_le; [|spend_leaf]; spend_lia
  end.

Lemma fetchPhotoWithRetries_spends (w : Api.World) (apiKey : string)
    (photo : Api.PhotoRef) :
  spends kind (2 * cPhoto + cPause) (Api.fetchPhotoWithRetries w apiKey photo 2).
Proof.
  cbn [Api.fetchPhotoWithRetries]. unfold Api.fetchGooglePhotoDataUrl.
  spend_check.
Qed.

Lemma fetchPhotos_spends (w : Api.World) (apiKey : string)
    (photoRefs : list Api.PhotoRef) :
  forall galleryEntries : list Api.GalleryEntry,
    spends kind (length photoRefs * (2 * cPhoto + cPause))
      (Api.fetchPhotos w apiKey photoRefs galleryEntries).
Proof.
  induction photoRefs as [|photo rest IH]; intros entries; cbn [Api.fetchPhotos].
  - apply spends_ret.
  - destruct (JS.falsy (Api.photo_reference photo)).
    + eapply spends_le; [|apply IH]. cbn [length]. lia.
    + apply (spends_bind_sub kind _ (2 * cPhoto + cPause));
        [apply fetchPhotoWithRetries_spends | cbn [length]; lia |].
      intros fetched. eapply spends_le; [|apply IH]. cbn [length]. lia.
Qed.

Lemma upsertPhotos_spends (w : Api.World) (placeIdDb : string)
    (entries : list Api.GalleryEntry) :
  forall index : nat, spends kind 0 (Api.upsertPhotos w placeIdDb index entries).
Proof.
  induction entries as [|entry rest IH]; intros index; cbn [Api.upsertPhotos].
  - apply spends_ret.
  - pose proof (IH (S index)) as Hrest. spend_check.
Qed.

Lemma updateCachedPlace_spends (w : Api.World) (rowId : string) (row : Api.PlaceRow)
    (d : Api.Details) :
  spends kind cWrite (Api.updateCachedPlace w rowId row d).
Proof. unfold Api.updateCachedPlace. spend_check. Qed.

Lemma storeWithoutPhotos_spends (w : Api.World) (params : Api.Params)
    (fallback : string) (d : Api.Details) :
  spends kind cWrite (Api.storeWithoutPhotos w params fallback d).
Proof. unfold Api.storeWithoutPhotos. spend_check. Qed.

Lemma fetchAndStorePhotos_spends (w : Api.World) (params : Api.Params)
    (apiKey fallback : string) (d : Api.Details) (photoRefs : list Api.PhotoRef) :
  spends kind (4 * (2 * cPhoto + cPause) + cWrite)
    (Api.fetchAndStorePhotos w params apiKey fallback d photoRefs).
Proof.
  unfold Api.fetchAndStorePhotos. cbv zeta.
  pose proof (fetchPhotos_spends w apiKey
                (slice0 (Nat.min 4 (length photoRefs)) photoRefs) []) as Hfetch.
  apply (spends_le kind _ (4 * (2 * cPhoto + cPause))) in Hfetch.
  2:{ pose proof (slice0_length (Nat.min 4 (length photoRefs)) photoRefs). nia. }
  pose proof (upsertPhotos_spends w) as Hrows.
  spend_check.
Qed.

Lemma fetchDetails_spends (w : Api.World) (placeId : string)
    (photos : option (list Api.PhotoRef)) :
  spends kind cDetails (Api.fetchDetails w placeId photos).
Proof. unfold Api.fetchDetails. spend_check. Qed.

Lemma answerFromCache_spends (existing : option (string * Api.PlaceRow))
    (cacheValid : bool) (fallback : string) :
  spends kind 0 (Api.answerFromCache existing cacheValid fallback).
Proof. unfold Api.answerFromCache. spend_check. Qed.

Lemma answerFromCachedPhotos_spends (w : Api.World)
    (existing : option (string * Api.PlaceRow)) (cacheValid hasCompleteCache : bool)
    (fallback : string) (d : Api.Details) (photoRefs : list Api.PhotoRef) :
  forall h, exists ev,
    snd (Api.answerFromCachedPhotos w existing cacheValid hasCompleteCache fallback
           d photoRefs h) = (h ++ ev)%list
    /\ (countOfKind kind ev <= cWrite)%nat
    /\ (fst (Api.answerFromCachedPhotos w existing cacheValid hasCompleteCache fallback
               d photoRefs h) = None ->
        countOfKind kind ev = 0%nat).
Proof.
  intros h.
  assert (spends kind cWrite
            (Api.answerFromCachedPhotos w existing cacheValid hasCompleteCache
               fallback d photoRefs)) as Hs.
  { unfold Api.answerFromCachedPhotos.
    pose proof (updateCachedPlace_spends w) as Hupdate. spend_check. }
  destruct (Hs h) as (ev & Hev & Hn). exists ev.
  split; [exact Hev|]. split; [exact Hn|].
  intros Hnone. unfold Api.answerFromCachedPhotos in Hev, Hnone.
  destruct existing as [[rowId row]|].
  - cbv zeta in Hev, Hnone.
    match type of Hnone with
    | context [if ?c then _ else _] => destruct c
    end.
    + unfold bind, ret in Hnone.
      repeat match type of Hnone with
             | context [let '(_, _) := ?m in _] => destruct m
             end.
      discriminate Hnone.
    + cbn in Hev. rewrite <- (app_nil_r h) in Hev at 1.
      apply app_inv_head in Hev. subst ev. reflexivity.
  - cbn in Hev. rewrite <- (app_nil_r h) in Hev at 1.
    apply app_inv_head in Hev. subst ev. reflexivity.
Qed.

Lemma getOrCachePlacePhotos_spends (w : Api.World) (params : Api.Params) :
  spends kind (cDetails + 4 * (2 * cPhoto + cPause) + cWrite)
    (Api.getOrCachePlacePhotos w params).
Proof.
  unfold Api.getOrCachePlacePhotos. cbv zeta.
  pose proof (answerFromCache_spends) as Hcache.
  pose proof (fetchDetails_spends w) as Hdetails.
  pose proof (answerFromCachedPhotos_spends w) as Hphotos.
  pose proof (storeWithoutPhotos_spends w params) as Hstore.
  pose proof (fetchAndStorePhotos_spends w params) as Hfetch.
  spend_check.
Qed.
End Budget.

(** X14.  The cost of one enrichment.  Whatever the store and the provider
    answer, [getOrCachePlacePhotos] asks the provider for the details of the
    place at most once and fetches photos at most eight times (four photos,
    two attempts each), pauses at most four times, and writes the row of the
    place at most once. *)
Theorem enrichment_call_budget (w : Api.World) (params : Api.Params)
    (h : list Api.Event) :
  exists ev : list Api.Event,
    snd (Api.getOrCachePlacePhotos w params h) = (h ++ ev)%list
    /\ (countOfKind isDetailsCall ev <= 1)%nat
    /\ (countOfKind isPhotoFetch ev <= 8)%nat
    /\ (countOfKind isPause ev <= 4)%nat
    /\ (countOfKind isPlaceWrite ev <= 1)%nat.
Proof.
  destruct (getOrCachePlacePhotos_spends isDetailsCall 1 0 0 0
              ltac:(intros []; reflexivity) w params h) as (ev & Hev & Hdetails).
  destruct (getOrCachePlacePhotos_spends isPhotoFetch 0 1 0 0
              ltac:(intros []; reflexivity) w params h) as (ev1 & Hev1 & Hphoto).
  destruct (getOrCachePlacePhotos_spends isPause 0 0 0 1
              ltac:(intros []; reflexivity) w params h) as (ev2 & Hev2 & Hpause).
  destruct (getOrCachePlacePhotos_spends isPlaceWrite 0 0 1 0
              ltac:(intros []; reflexivity) w params h) as (ev3 & Hev3 & Hwrite).
  rewrite Hev in Hev1, Hev2, Hev3.
  apply app_inv_head in Hev1, Hev2, Hev3. subst ev1 ev2 ev3.
  exists ev. split; [exact Hev|]. cbn in *. repeat split; assumption.
Qed.

(** *** What the answer looks like *)

Lemma returns_ret {S A} (P : A -> Prop) (a : A) : P a -> returns (S := S) P (ret a).
Proof. intros Ha s. exact Ha. Qed.

Lemma returns_bind {S A B} (P : B -> Prop) (m : Stateful S A) (k : A -> Stateful S B) :
  (forall a, returns P (k a)) -> returns P (bind m k).
Proof.
  intros Hk s. unfold bind. destruct (m s) as [a s']. apply Hk.
Qed.

Lemma presentable_fresh (coverUrl : string) (urls : list string) (d : Api.Details) :
  JS.falsy coverUrl = false -> (length urls <= 3)%nat ->
  Forall (fun u => JS.falsy u = false) urls ->
  presentable (Api.freshAnswer coverUrl urls d).
Proof. intros. repeat split; assumption. Qed.

Lemma filter_truthy (urls : list string) :
  Forall (fun u => JS.falsy u = false) (List.filter (fun u => negb (JS.falsy u)) urls).
Proof.
  apply List.Forall_forall. intros u Hu. apply List.filter_In in Hu as [_ Hu].
  apply negb_true_iff in Hu. exact Hu.
Qed.

Lemma galleryUrls_truthy (gallery : list Api.GalleryEntry) :
  Forall (fun u => JS.falsy u = false) (Api.galleryUrls gallery).
Proof.
  unfold Api.galleryUrls, slice0.
  apply List.Forall_forall. intros u Hu. apply In_slice0 in Hu.
  pose proof (filter_truthy (map Api.image_base64 gallery)) as H.
  rewrite List.Forall_forall in H. apply H, Hu.
Qed.

Lemma withoutCover_presentable (allUrls : list string) :
  Forall (fun u => JS.falsy u = false) allUrls ->
  (length (Api.withoutCover allUrls) <= 3)%nat
  /\ Forall (fun u => JS.falsy u = false) (Api.withoutCover allUrls).
Proof.
  intros Hall. unfold Api.withoutCover.
  destruct (1 <? length allUrls)%nat; [|split; [cbn; lia | constructor]].
  split; [apply slice0_length|].
  apply List.Forall_forall. intros u Hu. apply In_slice0 in Hu.
  rewrite List.Forall_forall in Hall. apply Hall.
  destruct allUrls; [contradiction | right; exact Hu].
Qed.

Lemma cachedCover_truthy (row : Api.PlaceRow) (fallback : string) (allUrls : list string) :
  Api.truthy (Api.cover_image_base64 row) = true ->
  JS.falsy (default fallback
              (Api.orIfFalsy (Api.cover_image_base64 row)
                 (Api.orIfFalsy (head allUrls) None))) = false.
Proof.
  intros Hc. unfold Api.orIfFalsy at 1. rewrite Hc.
  destruct (Api.cover_image_base64 row) as [c|]; [|discriminate]. cbn in *.
  apply negb_true_iff in Hc. exact Hc.
Qed.

Lemma answerFromCache_presentable (existing : option (string * Api.PlaceRow))
    (cacheValid : bool) (fallback : string) :
  returns (fun early => forall answer, early = Some answer -> presentable answer)
    (Api.answerFromCache existing cacheValid fallback).
Proof.
  intros h answer. unfold Api.answerFromCache.
  destruct existing as [[rowId row]|]; [|discriminate].
  destruct (Api.truthy (Api.cover_image_base64 row)) eqn:Hcover; [|discriminate].
  destruct cacheValid; [|discriminate].
  cbn [andb]. unfold bind, Api.emit, ret. cbn [fst].
  intros [= <-]. unfold presentable, Api.cachedAnswer. cbn [Api.cover Api.gallery].
  split; [apply cachedCover_truthy, Hcover|].
  apply withoutCover_presentable.
  destruct (Api.photo_gallery row) as [[|e es]|];
    [constructor | apply galleryUrls_truthy | constructor].
Qed.

Lemma answerFromCachedPhotos_presentable (w : Api.World)
    (existing : option (string * Api.PlaceRow)) (cacheValid hasCompleteCache : bool)
    (fallback : string) (d : Api.Details) (photoRefs : list Api.PhotoRef) :
  returns (fun cached => forall answer, cached = Some answer -> presentable answer)
    (Api.answerFromCachedPhotos w existing cacheValid hasCompleteCache fallback d
       photoRefs).
Proof.
  intros h answer. unfold Api.answerFromCachedPhotos.
  destruct existing as [[rowId row]|]; [|discriminate]. cbv zeta.
  destruct (Api.truthy (Api.cover_image_base64 row)) eqn:Hcover; [|discriminate].
  match goal with
  | |- context [if ?c then _ else _] => destruct c; [|discriminate]
  end.
  unfold bind, Api.emit, ret.
  match goal with
  | |- context [let '(_, _) := ?m in _] => destruct m
  end.
  cbn [fst]. intros [= <-]. unfold presentable. cbn [Api.cover Api.gallery].
  split; [apply cachedCover_truthy, Hcover|].
  apply withoutCover_presentable, galleryUrls_truthy.
Qed.

Lemma fetchAndStorePhotos_presentable (w : Api.World) (params : Api.Params)
    (apiKey fallback : string) (d : Api.Details) (photoRefs : list Api.PhotoRef) :
  JS.falsy fallback = false ->
  returns presentable (Api.fetchAndStorePhotos w params apiKey fallback d photoRefs).
Proof.
  intros Hfallback h.
  destruct (fetchAndStorePhotos_run w params apiKey fallback d photoRefs h)
    as (entries & ev0 & ev & Hfetch & -> & _).
  cbn [fst].
  destruct entries as [|first rest].
  - apply presentable_fresh; [exact Hfallback | cbn; lia | constructor].
  - destruct (fetchPhotos_run w apiKey (firstn 4 photoRefs) [] h)
      as (new & ev' & Hrun & _ & _ & _ & Hfrom).
    rewrite Hfetch in Hrun. injection Hrun as Hnew _. cbn [app] in Hnew.
    apply presentable_fresh.
    + destruct (Hfrom first) as (photo & u & h' & _ & -> & Hu).
      { rewrite <- Hnew. left. reflexivity. }
      cbn. exact (photoDataUrl_not_falsy _ _ Hu).
    + etransitivity; [apply List.filter_length_le|]. rewrite length_map, length_firstn. lia.
    + apply filter_truthy.
Qed.

Lemma getOrCachePlacePhotos_presentable (w : Api.World) (params : Api.Params) :
  returns presentable (Api.getOrCachePlacePhotos w params).
Proof.
  pose proof (fallback_not_empty (Api.types params)) as Hfallback.
  unfold Api.getOrCachePlacePhotos. cbv zeta.
  destruct (Api.orIfFalsy (Api.GOOGLE_PLACES_API_KEY w) None) as [apiKey|].
  2:{ apply returns_bind. intros _. apply returns_ret.
      repeat split; [exact Hfallback | cbn; lia | constructor]. }
  apply returns_bind. intros selected.
  apply returns_bind. intros _.
  apply returns_bind. intros now.
  intros h. unfold bind.
  pose proof (answerFromCache_presentable (fst selected)
                (Api.isCacheValid (fst selected) now)
                (Api.getCuisineFallbackImageFromTypes (Api.types params)) h) as Hearly.
  cbv beta in Hearly.
  destruct (Api.answerFromCache _ _ _ h) as [[answer|] h1]; cbn [fst] in Hearly.
  { apply Hearly. reflexivity. }
  match goal with
  | |- presentable (fst (let '(_, _) := ?m in _)) => destruct m as [fetched h2]
  end.
  match goal with
  | |- presentable (fst (let '(_, _) := ?m in _)) =>
      pose proof (answerFromCachedPhotos_presentable w (fst selected)
                    (Api.isCacheValid (fst selected) now)) as Hcached;
      destruct m as [[answer|] h3] eqn:Hm
  end.
  - match type of Hm with
    | Api.answerFromCachedPhotos ?w ?e ?v ?c ?f ?d ?p ?h = _ =>
        specialize (Hcached c f d p h); cbv beta in Hcached;
        rewrite Hm in Hcached
    end.
    apply Hcached. reflexivity.
  - destruct (List.filter _ _) as [|photo rest].
    + cbn [fst]. unfold Api.storeWithoutPhotos, bind, Api.readClock, Api.call, ret.
      cbn [fst]. apply presentable_fresh; [exact Hfallback | cbn; lia | constructor].
    + apply fetchAndStorePhotos_presentable, Hfallback.
Qed.

(** X15.  Every enrichment gives the restaurant something to show.  On every
    path (missing key, cached row, cached photos, no photo, photos fetched)
    the cover of the answer is not empty and the gallery holds at most three
    photos, none of them empty. *)
Theorem enrichment_answer_is_presentable (w : Api.World) (params : Api.Params)
    (h : list Api.Event) :
  presentable (fst (Api.getOrCachePlacePhotos w params h)).
Proof. apply getOrCachePlacePhotos_presentable. Qed.

(** *** A valid cached cover *)

Lemma cache_hit_run (w : Api.World) (params : Api.Params) (h : list Api.Event)
    (rowId : string) (row : Api.PlaceRow) (c : string) :
  Api.truthy (Api.GOOGLE_PLACES_API_KEY w) = true ->
  fst (Api.selectPlace w h (Api.placeId params)) = Some (rowId, row) ->
  Api.cover_image_base64 row = Some c ->
  JS.falsy c = false ->
  Api.isCacheValid (Some (rowId, row)) (Api.clock w (afterSelect w params h)) = true ->
  Api.getOrCachePlacePhotos w params h
  = (Api.cachedAnswer row c (cachedGallery row),
     (afterSelect w params h
        ++ [Api.ClockRead (Api.clock w (afterSelect w params h));
            Api.ConsoleLog "[CACHE HIT] Returning cached data"])%list).
Proof.
  intros Hkey Hsel Hcover Hc Hvalid.
  unfold Api.getOrCachePlacePhotos. cbv zeta.
  unfold Api.orIfFalsy at 1. rewrite Hkey.
  destruct (Api.GOOGLE_PLACES_API_KEY w) as [apiKey|]; [|discriminate].
  unfold afterSelect in *.
  unfold bind at 1. unfold Api.call at 1.
  destruct (Api.selectPlace w h (Api.placeId params)) as [existing error].
  cbn [fst snd] in *. subst existing.
  assert ((if Api.isSome error
           then Api.emit (Api.ConsoleError "Supabase select error")
           else ret ()) (h ++ [Api.DbSelectPlace (Api.placeId params)])%list
          = (tt, (h ++ Api.DbSelectPlace (Api.placeId params)
                    :: (if Api.isSome error
                        then [Api.ConsoleError "Supabase select error"]
                        else []))%list)) as Hpre.
  { destruct (Api.isSome error); unfold Api.emit, ret; rewrite <- ?app_assoc;
      reflexivity. }
  unfold bind at 1. rewrite Hpre. clear Hpre.
  set (h1 := (h ++ _ :: _)%list) in *.
  unfold bind at 1. unfold Api.readClock at 1. cbv zeta. rewrite Hvalid.
  unfold bind at 1. unfold Api.answerFromCache.
  assert (Api.truthy (Api.cover_image_base64 row) = true) as Htruthy.
  { rewrite Hcover. cbn. rewrite Hc. reflexivity. }
  rewrite Htruthy. cbn [andb]. unfold bind, Api.emit, ret.
  rewrite <- app_assoc. cbn [app]. f_equal. unfold cachedGallery.
  f_equal. unfold Api.orIfFalsy at 1. rewrite Htruthy, Hcover. reflexivity.
Qed.

(** X16.  A place whose cached row has a cover and has not expired is answered
    from that row at once: the run reads the row and the clock, logs the hit
    and does nothing else (no call to the provider, no write), and the answer
    carries the cover, the gallery and the contact details of the row. *)
Theorem valid_cached_cover_answers_at_once (w : Api.World) (params : Api.Params)
    (h : list Api.Event) (rowId : string) (row : Api.PlaceRow) (c : string) :
  Api.truthy (Api.GOOGLE_PLACES_API_KEY w) = true ->
  fst (Api.selectPlace w h (Api.placeId params)) = Some (rowId, row) ->
  Api.cover_image_base64 row = Some c ->
  JS.falsy c = false ->
  Api.isCacheValid (Some (rowId, row)) (Api.clock w (afterSelect w params h)) = true ->
  snd (Api.getOrCachePlacePhotos w params h)
  = (afterSelect w params h
       ++ [Api.ClockRead (Api.clock w (afterSelect w params h));
           Api.ConsoleLog "[CACHE HIT] Returning cached data"])%list
  /\ Api.cover (fst (Api.getOrCachePlacePhotos w params h)) = c
  /\ Api.gallery (fst (Api.getOrCachePlacePhotos w params h)) = cachedGallery row
  /\ Api.phone (fst (Api.getOrCachePlacePhotos w params h)) = Api.row_phone row
  /\ Api.website (fst (Api.getOrCachePlacePhotos w params h)) = Api.website_url row
  /\ Api.description (fst (Api.getOrCachePlacePhotos w params h))
     = Api.rowDescription row.
Proof.
  intros Hkey Hsel Hcover Hc Hvalid.
  rewrite (cache_hit_run w params h rowId row c Hkey Hsel Hcover Hc Hvalid).
  repeat split; reflexivity.
Qed.

Lemma valid_cached_cover_answers_at_once_witness :
  snd (Api.getOrCachePlacePhotos worldWithCachedRow sushiPlace [])
  = [Api.DbSelectPlace "place-1"; Api.ClockRead 1000;
     Api.ConsoleLog "[CACHE HIT] Returning cached data"]
  /\ Api.cover (fst (Api.getOrCachePlacePhotos worldWithCachedRow sushiPlace []))
     = "data:image/jpeg;base64,AAAA"
  /\ Api.gallery (fst (Api.getOrCachePlacePhotos worldWithCachedRow sushiPlace []))
     = ["data:image/jpeg;base64,CCCC"]
  /\ Api.phone (fst (Api.getOrCachePlacePhotos worldWithCachedRow sushiPlace []))
     = Some "555-0100"
  /\ Api.website (fst (Api.getOrCachePlacePhotos worldWithCachedRow sushiPlace []))
     = None
  /\ Api.description (fst (Api.getOrCachePlacePhotos worldWithCachedRow sushiPlace []))
     = None.
Proof.
  apply (valid_cached_cover_answers_at_once worldWithCachedRow sushiPlace []
           "row-1" cachedCoverRow "data:image/jpeg;base64,AAAA");
    reflexivity.
Defined.

(** *** What a run stores and what the next run serves *)

Lemma yields_ret {A} (R : A -> list Api.Event -> Prop) (a : A) :
  R a [] -> yields R (ret a).
Proof.
  intros H h. exists a, []. rewrite app_nil_r. split; [reflexivity | exact H].
Qed.

Lemma yields_bind {A B} (R1 : A -> list Api.Event -> Prop)
    (R : B -> list Api.Event -> Prop) (m : Stateful (list Api.Event) A)
    (k : A -> Stateful (list Api.Event) B) :
  yields R1 m ->
  (forall a ev1, R1 a ev1 -> yields (fun b ev2 => R b (ev1 ++ ev2)%list) (k a)) ->
  yields R (bind m k).
Proof.
  intros Hm Hk h. destruct (Hm h) as (a & ev1 & E1 & H1).
  destruct (Hk a ev1 H1 (h ++ ev1)%list) as (b & ev2 & E2 & H2).
  exists b, (ev1 ++ ev2)%list. unfold bind. rewrite E1, E2, app_assoc.
  split; [reflexivity | exact H2].
Qed.

Lemma yields_weaken {A} (R R' : A -> list Api.Event -> Prop)
    (m : Stateful (list Api.Event) A) :
  (forall a ev, R a ev -> R' a ev) -> yields R m -> yields R' m.
Proof.
  intros HR Hm h. destruct (Hm h) as (a & ev & E & H).
  exists a, ev. split; [exact E | apply HR, H].
Qed.

Lemma yields_spends {A} (kind : Api.Event -> bool) (n : nat)
    (m : Stateful (list Api.Event) A) :
  n = 0%nat -> spends kind n m -> yields (fun _ ev => List.filter kind ev = []) m.
Proof.
  intros -> H h. destruct (H h) as (ev & E & C).
  destruct (m h) as [a s]. cbn [snd] in E. subst s.
  exists a, ev. split; [reflexivity|].
  unfold countOfKind in C. destruct (List.filter kind ev); [reflexivity|].
  cbn in C. lia.
Qed.

Lemma writeCost (e : Api.Event) :
  (if isPlaceWrite e then 1 else 0)%nat
  = match e with
    | Api.FetchPlaceDetails _ => 0
    | Api.FetchPhoto _ _ => 0
    | Api.DbUpsertPlace _ | Api.DbUpdatePlace _ _ => 1
    | Api.Sleep _ => 0
    | _ => 0
    end%nat.
Proof. destruct e; reflexivity. Qed.

Lemma storedWith_prefix (params : Api.Params) (answer : Api.PlaceDetails)
    (ev1 ev2 : list Api.Event) :
  List.filter isPlaceWrite ev1 = [] ->
  storedWith params answer ev2 -> storedWith params answer (ev1 ++ ev2)%list.
Proof.
  intros Hq H row Hin Hc. apply in_app_or in Hin as [Hin|Hin].
  - assert (In (Api.DbUpsertPlace row) (List.filter isPlaceWrite ev1)) as Hf
      by (apply List.filter_In; split; [exact Hin | reflexivity]).
    rewrite Hq in Hf. contradiction.
  - destruct (H row Hin Hc) as (F & Hs & Hid & Hcov & Hg & later & Hl & He).
    rewrite List.filter_app, Hq. cbn [app].
    repeat (split; [assumption|]).
    exists later. split; [apply in_or_app; right; exact Hl | exact He].
Qed.

Ltac quiet_then tac :=
  eapply (yields_bind (fun _ ev => List.filter isPlaceWrite ev = []));
  [ tac
  | let Hq := fresh "Hq" in
    intros ? ? Hq; eapply yields_weaken;
    [ intros ? ? ?; apply storedWith_prefix; [exact Hq | eassumption] | ];
    clear Hq ].

Ltac quiet_leaf :=
  intros ?; eexists _, _; split; [reflexivity | reflexivity].

Lemma filter_all_truthy (entries : list Api.GalleryEntry) :
  Forall (fun e => JS.falsy (Api.image_base64 e) = false) entries ->
  List.filter (fun u => negb (JS.falsy u)) (map Api.image_base64 entries)
  = map Api.image_base64 entries.
Proof.
  induction 1 as [|e rest He _ IH]; [reflexivity|].
  cbn. rewrite He. cbn. f_equal. exact IH.
Qed.

Lemma gallery_round_trip (first : Api.GalleryEntry) (rest : list Api.GalleryEntry) :
  (length (first :: rest) <= 4)%nat ->
  Forall (fun e => JS.falsy (Api.image_base64 e) = false) (first :: rest) ->
  Api.withoutCover (Api.galleryUrls (first :: rest))
  = List.filter (fun u => negb (JS.falsy u))
      (map Api.image_base64 (slice0 3 (tail (first :: rest)))).
Proof.
  intros Hlen Hall. unfold Api.galleryUrls, Api.withoutCover, slice0.
  rewrite (filter_all_truthy _ Hall).
  rewrite firstn_all2 by (rewrite length_map; exact Hlen).
  cbn [tail map length] in *.
  rewrite (firstn_all2 (n := 3) rest) by lia.
  inversion Hall as [|? ? _ Hrest]; subst.
  rewrite (filter_all_truthy _ Hrest).
  destruct rest as [|r rs]; [reflexivity|].
  cbn [length map Nat.ltb Nat.leb].
  rewrite firstn_all2 by (cbn [length] in *; rewrite length_map; lia).
  reflexivity.
Qed.

Lemma fetchPhotos_entries (w : Api.World) (apiKey : string)
    (photoRefs : list Api.PhotoRef) :
  (length photoRefs <= 4)%nat ->
  yields (fun entries ev =>
            List.filter isPlaceWrite ev = []
            /\ (length entries <= 4)%nat
            /\ Forall (fun e => JS.falsy (Api.image_base64 e) = false) entries)
    (Api.fetchPhotos w apiKey photoRefs []).
Proof.
  intros Hrefs h.
  destruct (fetchPhotos_run w apiKey photoRefs [] h)
    as (new & ev & E & Hlen & _ & _ & Hfrom).
  cbn [app] in E. exists new, ev. split; [exact E|]. split; [|split].
  - destruct (fetchPhotos_spends isPlaceWrite 0 0 1 0 writeCost w apiKey photoRefs [] h)
      as (ev' & E' & C).
    rewrite E in E'. cbn [snd] in E'. apply app_inv_head in E'. subst ev'.
    unfold countOfKind in C. destruct (List.filter isPlaceWrite ev); [reflexivity|].
    cbn in C. lia.
  - lia.
  - apply List.Forall_forall. intros e He.
    destruct (Hfrom e He) as (photo & u & h' & _ & -> & Hu).
    cbn. exact (photoDataUrl_not_falsy _ _ Hu).
Qed.

Lemma fetchAndStorePhotos_stored (w : Api.World) (params : Api.Params)
    (apiKey fallback : string) (d : Api.Details) (photoRefs : list Api.PhotoRef) :
  yields (storedWith params)
    (Api.fetchAndStorePhotos w params apiKey fallback d photoRefs).
Proof.
  unfold Api.fetchAndStorePhotos. cbv zeta.
  eapply yields_bind.
  { apply fetchPhotos_entries. unfold slice0. rewrite length_firstn. lia. }
  intros entries ev1 (Hq & Hlen & Htruthy).
  eapply yields_weaken;
    [intros ? ? ?; apply storedWith_prefix; [exact Hq | eassumption]|].
  clear Hq.
  quiet_then quiet_leaf.
  destruct entries as [|first rest].
  { apply yields_ret. intros row []. }
  intros h. unfold bind at 1 2 3. unfold Api.readClock, Api.call. cbv zeta.
  set (t1 := Api.clock w h).
  set (t2 := Api.clock w (h ++ [Api.ClockRead t1])%list).
  set (row := Api.placeRow params d _ _ _ _ _ _).
  set (h3 := (((h ++ [Api.ClockRead t1]) ++ [Api.ClockRead t2])
              ++ [Api.DbUpsertPlace row])%list).
  set (upserted := Api.upsertPlaceResult w _ row).
  assert (exists ev4,
            (do _ <- (if Api.isSome (snd upserted)
                      then Api.emit (Api.ConsoleError "Supabase upsert error (places)")
                      else ret ());
             do _ <- match Api.orIfFalsy (fst upserted) None with
                     | Some placeIdDb => Api.upsertPhotos w placeIdDb 0 (first :: rest)
                     | None => ret ()
                     end;
             ret (Api.freshAnswer (Api.image_base64 first)
                    (List.filter (fun u => negb (JS.falsy u))
                       (map Api.image_base64 (slice0 3 (tail (first :: rest)))))
                    d)) h3
            = (Api.freshAnswer (Api.image_base64 first)
                    (List.filter (fun u => negb (JS.falsy u))
                       (map Api.image_base64 (slice0 3 (tail (first :: rest)))))
                    d, (h3 ++ ev4)%list)
            /\ List.filter isPlaceWrite ev4 = []) as (ev4 & E4 & Hq4).
  { assert (yields (fun _ ev => List.filter isPlaceWrite ev = [])
              (match Api.orIfFalsy (fst upserted) None with
               | Some placeIdDb => Api.upsertPhotos w placeIdDb 0 (first :: rest)
               | None => ret ()
               end)) as Hphotos.
    { destruct (Api.orIfFalsy (fst upserted) None) as [placeIdDb|].
      - eapply yields_spends;
          [|apply (upsertPhotos_spends isPlaceWrite 0 0 1 0 writeCost)]. reflexivity.
      - apply yields_ret. reflexivity. }
    unfold bind.
    destruct (Api.isSome (snd upserted)).
    - destruct (Hphotos (h3 ++ [Api.ConsoleError "Supabase upsert error (places)"])%list)
        as ([] & ev & E & Hq).
      exists ([Api.ConsoleError "Supabase upsert error (places)"] ++ ev)%list.
      unfold Api.emit. rewrite E, app_assoc. split; [reflexivity | exact Hq].
    - destruct (Hphotos h3) as ([] & ev & E & Hq).
      exists ev. unfold ret at 1. rewrite E. split; [reflexivity | exact Hq]. }
  eexists _, ([Api.ClockRead t1; Api.ClockRead t2; Api.DbUpsertPlace row] ++ ev4)%list.
  split.
  { rewrite E4. unfold h3. rewrite <- !app_assoc. reflexivity. }
  intros row' Hin Hcover.
  assert (row' = row) as ->.
  { cbn in Hin. destruct Hin as [Hin|[Hin|[Hin|Hin]]]; try discriminate.
    - injection Hin as <-. reflexivity.
    - assert (In (Api.DbUpsertPlace row') (List.filter isPlaceWrite ev4)) as Hf
        by (apply List.filter_In; split; [exact Hin | reflexivity]).
      rewrite Hq4 in Hf. contradiction. }
  split; [cbn; rewrite Hq4; reflexivity|].
  split; [reflexivity|]. split; [reflexivity|]. split; [reflexivity|].
  split.
  - unfold cachedGallery. cbn [row Api.placeRow Api.photo_gallery Api.freshAnswer
                                Api.gallery].
    apply gallery_round_trip; assumption.
  - exists t2. split; [right; left; reflexivity | reflexivity].
Qed.

Lemma answerFromCachedPhotos_writes (w : Api.World)
    (existing : option (string * Api.PlaceRow)) (cacheValid hasCompleteCache : bool)
    (fallback : string) (d : Api.Details) (photoRefs : list Api.PhotoRef) :
  yields (fun cached ev =>
            (forall row, ~ In (Api.DbUpsertPlace row) ev)
            /\ (cached = None -> ev = []))
    (Api.answerFromCachedPhotos w existing cacheValid hasCompleteCache fallback d
       photoRefs).
Proof.
  unfold Api.answerFromCachedPhotos.
  destruct existing as [[rowId row]|];
    [|apply yields_ret; split; [intros row [] | reflexivity]].
  cbv zeta.
  match goal with
  | |- context [if ?c then _ else _] => destruct c
  end; [|apply yields_ret; split; [intros ? [] | reflexivity]].
  intros h.
  match goal with
  | |- context [if ?c then _ else _] => destruct c
  end.
  - eexists _, _. split.
    + unfold Api.updateCachedPlace, bind, Api.emit, Api.readClock, Api.call, ret.
      cbv zeta. rewrite <- !app_assoc. reflexivity.
    + split; [|discriminate].
      intros r Hin. cbn in Hin.
      repeat destruct Hin as [Hin|Hin]; try discriminate; contradiction.
  - eexists _, _. split; [reflexivity|].
    split; [|discriminate].
    intros r Hin. cbn in Hin.
    repeat destruct Hin as [Hin|Hin]; try discriminate; contradiction.
Qed.

Lemma getOrCachePlacePhotos_stored (w : Api.World) (params : Api.Params) :
  yields (storedWith params) (Api.getOrCachePlacePhotos w params).
Proof.
  unfold Api.getOrCachePlacePhotos. cbv zeta.
  destruct (Api.orIfFalsy (Api.GOOGLE_PLACES_API_KEY w) None) as [apiKey|].
  2:{ intros h. eexists _, _. split; [reflexivity|].
      intros row Hin. cbn in Hin. destruct Hin as [Hin|[]]. discriminate. }
  quiet_then quiet_leaf.
  quiet_then ltac:(destruct (Api.isSome _); [quiet_leaf | apply yields_ret; reflexivity]).
  quiet_then quiet_leaf.
  quiet_then ltac:(eapply yields_spends;
                   [|apply (answerFromCache_spends isPlaceWrite 0 0 1 0 writeCost)];
                   reflexivity).
  match goal with
  | |- yields _ (match ?early with _ => _ end) => destruct early as [answer|]
  end.
  { apply yields_ret. intros row []. }
  quiet_then ltac:(match goal with
                   | |- yields _ (if ?c then _ else _) => destruct c
                   end;
                   [quiet_leaf
                   |eapply yields_spends;
                    [|apply (fetchDetails_spends isPlaceWrite 0 0 1 0 writeCost)];
                    reflexivity]).
  eapply yields_bind; [apply answerFromCachedPhotos_writes|].
  intros cached written (Hno & Hnone).
  destruct cached as [answer|].
  { apply yields_ret. intros row Hin. rewrite app_nil_r in Hin.
    destruct (Hno row Hin). }
  rewrite (Hnone eq_refl). cbn [app].
  destruct (List.filter _ _) as [|photo rest].
  - intros h. eexists _, _. split.
    + unfold Api.storeWithoutPhotos, bind, Api.readClock, Api.call, ret. cbv zeta.
      rewrite <- !app_assoc. reflexivity.
    + intros row Hin Hcover. cbn in Hin.
      destruct Hin as [Hin|[Hin|[Hin|[]]]]; try discriminate.
      injection Hin as <-. discriminate Hcover.
  - apply fetchAndStorePhotos_stored.
Qed.

Lemma applyTrace_writes (ev : list Api.Event) :
  forall store, Api.applyTrace store ev
                = Api.applyTrace store (List.filter isPlaceWrite ev).
Proof.
  unfold Api.applyTrace.
  induction ev as [|e ev IH]; intros store; [reflexivity|].
  cbn [fold_left List.filter].
  destruct e; cbn [isPlaceWrite Api.applyEvent fold_left]; apply IH.
Qed.

Lemma lookup_upsert (row : Api.PlaceRow) (store : Api.Store) :
  Api.source row = "google" ->
  exists rowId row',
    lookupPlace (Api.source_place_id row) (Api.upsertPlace row store)
    = Some (rowId, row')
    /\ Api.cover_image_base64 row' = Api.cover_image_base64 row
    /\ Api.photo_gallery row' = Api.photo_gallery row
    /\ Api.expires_at row' = Api.expires_at row.
Proof.
  intros Hsource. unfold lookupPlace.
  induction store as [|[rowId old] rest IH]; cbn [Api.upsertPlace].
  - exists (Api.source_place_id row), row. cbn [find snd].
    rewrite Hsource, !String.eqb_refl. cbn. repeat split; reflexivity.
  - destruct (Api.sameKey old row) eqn:Hkey.
    + exists rowId, (Api.overwrite old row). cbn [find snd Api.overwrite Api.source
                                                 Api.source_place_id].
      rewrite Hsource, !String.eqb_refl. cbn. repeat split; reflexivity.
    + destruct IH as (rowId' & row' & Hfind & Hrow).
      exists rowId', row'. cbn [find snd].
      unfold Api.sameKey in Hkey. rewrite Hsource in Hkey. rewrite Hkey.
      split; [exact Hfind | exact Hrow].
Qed.

(** X17.  Photos stored by one run are served by the next from the cache.  When
    a run (from an empty history) stores the place with a cover, and a later
    run reads the row of the place from the table the first left, less than
    30 days after the first read its clock, then the later run answers with
    the same cover and the same gallery as the first, from the row alone: it
    reads the row and the clock, logs the hit and does nothing else. *)
Theorem stored_photos_are_served_from_the_cache (w1 w2 : Api.World)
    (params : Api.Params) (store : Api.Store) (h2 : list Api.Event)
    (row : Api.PlaceRow) :
  In (Api.DbUpsertPlace row) (snd (Api.getOrCachePlacePhotos w1 params [])) ->
  Api.truthy (Api.cover_image_base64 row) = true ->
  Api.truthy (Api.GOOGLE_PLACES_API_KEY w2) = true ->
  fst (Api.selectPlace w2 h2 (Api.placeId params))
  = lookupPlace (Api.placeId params)
      (Api.applyTrace store (snd (Api.getOrCachePlacePhotos w1 params []))) ->
  (forall t, In (Api.ClockRead t) (snd (Api.getOrCachePlacePhotos w1 params [])) ->
             (Api.clock w2 (afterSelect w2 params h2) < t + Api.TTL_MS)%Z) ->
  Api.cover (fst (Api.getOrCachePlacePhotos w2 params h2))
  = Api.cover (fst (Api.getOrCachePlacePhotos w1 params []))
  /\ Api.gallery (fst (Api.getOrCachePlacePhotos w2 params h2))
     = Api.gallery (fst (Api.getOrCachePlacePhotos w1 params []))
  /\ snd (Api.getOrCachePlacePhotos w2 params h2)
     = (afterSelect w2 params h2
          ++ [Api.ClockRead (Api.clock w2 (afterSelect w2 params h2));
              Api.ConsoleLog "[CACHE HIT] Returning cached data"])%list.
Proof.
  intros Hin Hcover Hkey Hselect Hclock.
  pose proof (getOrCachePlacePhotos_presentable w1 params []) as (Hc & _).
  destruct (getOrCachePlacePhotos_stored w1 params []) as (answer & ev & E & Hstored).
  cbn [app] in E. rewrite E in *. cbn [fst snd] in *.
  destruct (Hstored row Hin Hcover)
    as (Hwrites & Hsource & Hid & Hrow & Hgallery & later & Hlater & Hexpires).
  rewrite applyTrace_writes, Hwrites in Hselect.
  cbn [Api.applyTrace fold_left Api.applyEvent] in Hselect.
  destruct (lookup_upsert row store Hsource)
    as (rowId & row' & Hfind & Hcover' & Hgallery' & Hexpires').
  rewrite Hid in Hfind. rewrite Hfind in Hselect.
  rewrite Hrow in Hcover'.
  assert (Api.isCacheValid (Some (rowId, row'))
            (Api.clock w2 (afterSelect w2 params h2)) = true) as Hvalid.
  { cbn. rewrite Hexpires', Hexpires. apply Z.ltb_lt, Hclock, Hlater. }
  rewrite (cache_hit_run w2 params h2 rowId row' (Api.cover answer)
             Hkey Hselect Hcover' Hc Hvalid).
  cbn [fst snd Api.cachedAnswer Api.cover Api.gallery].
  split; [reflexivity|]. split; [|reflexivity].
  rewrite <- Hgallery. unfold cachedGallery. rewrite Hgallery'. reflexivity.
Qed.

Lemma stored_photos_are_served_from_the_cache_witness :
  Api.cover (fst (Api.getOrCachePlacePhotos worldAfterOneRun sushiPlace []))
  = Api.cover (fst (Api.getOrCachePlacePhotos worldWithPhotos sushiPlace []))
  /\ Api.gallery (fst (Api.getOrCachePlacePhotos worldAfterOneRun sushiPlace []))
     = Api.gallery (fst (Api.getOrCachePlacePhotos worldWithPhotos sushiPlace []))
  /\ snd (Api.getOrCachePlacePhotos worldAfterOneRun sushiPlace [])
     = (afterSelect worldAfterOneRun sushiPlace []
          ++ [Api.ClockRead (Api.clock worldAfterOneRun
                               (afterSelect worldAfterOneRun sushiPlace []));
              Api.ConsoleLog "[CACHE HIT] Returning cached data"])%list.
Proof.
  apply (stored_photos_are_served_from_the_cache worldWithPhotos worldAfterOneRun
           sushiPlace [] [] rowAfterOneRun).
  - vm_compute. repeat (try (left; reflexivity); right).
  - reflexivity.
  - reflexivity.
  - reflexivity.
  - intros t Ht. vm_compute in Ht.
    repeat destruct Ht as [Ht|Ht]; try discriminate; try contradiction;
      injection Ht as <-; vm_compute; reflexivity.
Defined.

(** ** The two pages on the same data *)

Lemma RecsPage_tally_fold (saved : list FoodStore) :
  forall (t : Tally) (cache : gmap string (option Q)),
    consistentCache cache ->
    Forall withoutMiles saved ->
    fst (foldM
           (fun t store =>
              let t := tallyRating store (tallyCategories store t) in
              do meters <- RecsPage.parseDistanceToMeters (distance store);
              ret (tallyDistance meters t))
           saved t cache)
    = fold_left mainTallyStep saved t.
Proof.
  induction saved as [|store saved IH]; intros t cache Hc Hall; [reflexivity|].
  inversion Hall as [|? ? Hstore Hrest]; subst.
  cbn [foldM fold_left]. unfold bind at 1. cbv zeta. unfold bind at 1, ret at 1.
  destruct (RecsPage_parse_memo (distance store) cache Hc) as [Hm Hc'].
  destruct (RecsPage.parseDistanceToMeters (distance store) cache) as [meters cache'].
  cbn [fst snd] in *.
  rewrite (IH _ cache' Hc' Hrest). f_equal.
  unfold mainTallyStep. rewrite Hm, <- (parsers_agree_without_mi _ Hstore).
  reflexivity.
Qed.

(** X18.  On distances that do not mention miles the two pages agree.  With a
    distance cache that holds only what the parser stored, the
    recommendations page reads the same metres from a distance as the main
    page, builds the same profile from the same saved places, and gives a
    restaurant the same score. *)
Theorem pages_agree_without_miles (saved : list FoodStore) (r : FoodStore)
    (p : UserPreferences) (cache : gmap string (option Q)) :
  consistentCache cache ->
  Forall withoutMiles saved ->
  withoutMiles r ->
  fst (RecsPage.parseDistanceToMeters (distance r) cache)
  = MainPage.parseDistanceToMeters (distance r)
  /\ fst (RecsPage.extractPreferences saved cache) = MainPage.extractPreferences saved
  /\ fst (RecsPage.scoreRecommendation r p cache)
     == MainPage.scoreRecommendation r p None.
Proof.
  intros Hc Hsaved Hr.
  split; [|split].
  - destruct (RecsPage_parse_memo (distance r) cache Hc) as [-> _].
    symmetry. apply parsers_agree_without_mi, Hr.
  - unfold RecsPage.extractPreferences, MainPage.extractPreferences.
    destruct saved as [|store saved]; [reflexivity|].
    unfold bind, ret.
    pose proof (RecsPage_tally_fold (store :: saved) emptyTally cache Hc Hsaved) as H.
    match goal with
    | |- context [foldM ?f ?l ?b cache] =>
        change (foldM f l b cache) with
          (foldM
             (fun t store =>
                let t := tallyRating store (tallyCategories store t) in
                do meters <- RecsPage.parseDistanceToMeters (distance store);
                ret (tallyDistance meters t)) l b cache);
        destruct (foldM
             (fun t store =>
                let t := tallyRating store (tallyCategories store t) in
                do meters <- RecsPage.parseDistanceToMeters (distance store);
                ret (tallyDistance meters t)) l b cache) as [t cache'] eqn:E
    end.
    cbn [fst] in *. rewrite H. reflexivity.
  - apply scorers_agree_where_parsers_agree; [exact Hc|].
    apply parsers_agree_without_mi, Hr.
Qed.

Lemma pages_agree_without_miles_witness :
  fst (RecsPage.parseDistanceToMeters (distance scenarioA_candidate) ∅)
  = MainPage.parseDistanceToMeters (distance scenarioA_candidate)
  /\ fst (RecsPage.extractPreferences scenarioA_saved ∅)
     = MainPage.extractPreferences scenarioA_saved
  /\ fst (RecsPage.scoreRecommendation scenarioA_candidate
            (MainPage.extractPreferences scenarioA_saved) ∅)
     == MainPage.scoreRecommendation scenarioA_candidate
          (MainPage.extractPreferences scenarioA_saved) None.
Proof.
  apply pages_agree_without_miles.
  - exact consistentCache_empty.
  - repeat constructor.
  - reflexivity.
Defined.

(** *** The counts of the profile *)





(** *** What is recommended *)

Lemma first_twenty_of_new (saved allRestaurants : list FoodStore)
    (sorted : list Scored) :
  Permutation (map restaurant sorted) (newRestaurants saved allRestaurants) ->
  (forall s, In s (slice0 20 sorted) ->
             In (restaurant s) allRestaurants
             /\ ~ In (id (restaurant s)) (map id saved))
  /\ ((length (newRestaurants saved allRestaurants) <= 20)%nat ->
      Permutation (map restaurant (slice0 20 sorted))
        (newRestaurants saved allRestaurants)).
Proof.
  intros Hperm. split.
  - intros s Hs. apply In_slice0 in Hs.
    assert (In (restaurant s) (newRestaurants saved allRestaurants)) as Hnew.
    { apply (Permutation_in _ Hperm), in_map, Hs. }
    apply list_elem_of_In in Hnew. unfold newRestaurants in Hnew.
    apply list_elem_of_filter in Hnew as [Hid Hall].
    split; [apply list_elem_of_In, Hall|].
    intros Hin. apply Hid, elem_of_list_to_set, list_elem_of_In, Hin.
  - intros Hlen. unfold slice0. rewrite firstn_all2; [exact Hperm|].
    rewrite <- (length_map restaurant), (Permutation_length Hperm). exact Hlen.
Qed.

Lemma MainPage_fetch_sorted (userLocation : bool)
    (saved allRestaurants : list FoodStore) (out : list Scored) :
  MainPage.fetchRecommendations userLocation saved allRestaurants = Some out ->
  (out = [] /\ (userLocation = false \/ saved = []))
  \/ exists sorted,
       Permutation (map restaurant sorted) (newRestaurants saved allRestaurants)
       /\ out = slice0 20 sorted.
Proof.
  unfold MainPage.fetchRecommendations. cbn zeta.
  destruct userLocation; cbn [negb orb].
  2:{ intros [= <-]. left. split; [reflexivity | left; reflexivity]. }
  destruct saved as [|store saved]; cbn [length Nat.eqb].
  { intros [= <-]. left. split; [reflexivity | right; reflexivity]. }
  fold (newRestaurants (store :: saved) allRestaurants).
  destruct (length (newRestaurants (store :: saved) allRestaurants) =? 0)%nat;
    [discriminate|].
  intros [= <-]. right. rewrite MainPage_sort_eq, map_map.
  eexists. split; [|reflexivity].
  etransitivity; [apply Permutation_map, sortPure_Permutation|].
  rewrite map_map. cbn [restaurant]. rewrite map_id. reflexivity.
Qed.

Lemma RecsPage_fetch_sorted (userLocation : bool)
    (saved allRestaurants : list FoodStore) (cache : gmap string (option Q))
    (out : list Scored) :
  consistentCache cache ->
  fst (RecsPage.fetchRecommendations userLocation saved allRestaurants cache)
  = Some out ->
  exists sorted,
    Permutation (map restaurant sorted) (newRestaurants saved allRestaurants)
    /\ out = slice0 20 sorted.
Proof.
  intros Hc. unfold RecsPage.fetchRecommendations, bind, ret.
  pose proof (RecsPage_extractPreferences_consistent saved cache Hc) as Hc1.
  destruct (RecsPage.extractPreferences saved cache) as [preferences cache1].
  cbn [snd] in Hc1.
  destruct (negb userLocation || (length saved =? 0)%nat); [discriminate|].
  fold (newRestaurants saved allRestaurants).
  destruct (length (newRestaurants saved allRestaurants) =? 0)%nat; [discriminate|].
  match goal with
  | |- context [mapM ?f ?l cache1] =>
      pose proof (mapM_invariant consistentCache f l cache1) as Hc2;
      pose proof (mapM_restaurants f l cache1) as Hscored;
      destruct (mapM f l cache1) as [scored cache2]
  end.
  cbn [fst snd] in Hc2, Hscored.
  assert (map restaurant scored = newRestaurants saved allRestaurants) as Hscored'.
  { apply Hscored. intros r s. unfold bind, ret.
    destruct (RecsPage.scoreRecommendation r preferences s). reflexivity. }
  clear Hscored.
  assert (consistentCache cache2) as Hc2'.
  { apply Hc2; [|exact Hc1]. intros x s Hs. unfold bind, ret.
    pose proof (RecsPage_scoreRecommendation_consistent x preferences s Hs) as H.
    destruct (RecsPage.scoreRecommendation x preferences s). exact H. }
  destruct (sort_pure RecsPage.compareScored (compareWith RecsPage_parseUncached)
              consistentCache RecsPage_compareScored_pure scored cache2 Hc2')
    as [Hsort _].
  destruct (sort RecsPage.compareScored scored cache2) as [sorted cache3].
  cbn [fst] in *. intros [= <-]. subst sorted.
  eexists. split; [|reflexivity].
  rewrite <- Hscored'. apply Permutation_map, sortPure_Permutation.
Qed.

(** X20.  A saved place is never recommended.  On both pages every
    recommendation is one of the fetched restaurants and none has the id of
    a saved place; when at most 20 fetched restaurants are new, every one of
    them is recommended (once for each time it was fetched).  On the main
    page the list is empty when no location is known or nothing is saved,
    and the function fails exactly when a location is known, something is
    saved and every fetched restaurant is saved already. *)
Theorem saved_places_are_never_recommended :
  (forall (userLocation : bool) (saved allRestaurants : list FoodStore)
          (out : list Scored),
      MainPage.fetchRecommendations userLocation saved allRestaurants = Some out ->
      (forall s, In s out ->
                 In (restaurant s) allRestaurants
                 /\ ~ In (id (restaurant s)) (map id saved))
      /\ (userLocation = false \/ saved = [] -> out = [])
      /\ (userLocation = true -> saved <> [] ->
          (length (newRestaurants saved allRestaurants) <= 20)%nat ->
          Permutation (map restaurant out) (newRestaurants saved allRestaurants)))
  /\ (forall (userLocation : bool) (saved allRestaurants : list FoodStore),
         MainPage.fetchRecommendations userLocation saved allRestaurants = None
         <-> userLocation = true /\ saved <> []
             /\ newRestaurants saved allRestaurants = [])
  /\ (forall (userLocation : bool) (saved allRestaurants : list FoodStore)
             (cache : gmap string (option Q)) (out : list Scored),
         consistentCache cache ->
         fst (RecsPage.fetchRecommendations userLocation saved allRestaurants cache)
         = Some out ->
         (forall s, In s out ->
                    In (restaurant s) allRestaurants
                    /\ ~ In (id (restaurant s)) (map id saved))
         /\ ((length (newRestaurants saved allRestaurants) <= 20)%nat ->
             Permutation (map restaurant out) (newRestaurants saved allRestaurants))).
Proof.
  split; [|split].
  - intros userLocation saved allRestaurants out Hout.
    assert (userLocation = false \/ saved = [] -> out = []) as Hempty.
    { intros Hnone. revert Hout. unfold MainPage.fetchRecommendations. cbn zeta.
      destruct Hnone as [-> | ->]; [|rewrite orb_true_r]; intros [= <-]; reflexivity. }
    destruct (MainPage_fetch_sorted _ _ _ _ Hout)
      as [[-> Hnone] | (sorted & Hperm & ->)].
    + split; [intros s []|]. split; [reflexivity|].
      intros -> Hsaved. destruct Hnone; [discriminate | contradiction].
    + destruct (first_twenty_of_new _ _ _ Hperm) as [Hin Hall].
      split; [exact Hin|]. split; [exact Hempty|]. intros _ _. exact Hall.
  - intros userLocation saved allRestaurants.
    unfold MainPage.fetchRecommendations. cbn zeta.
    fold (newRestaurants saved allRestaurants).
    destruct userLocation; cbn [negb orb];
      [|split; [discriminate | intros (H & _); discriminate]].
    destruct saved as [|store saved]; cbn [length Nat.eqb];
      [split; [discriminate | intros (_ & H & _); contradiction]|].
    destruct (newRestaurants (store :: saved) allRestaurants) as [|r new];
      cbn [length Nat.eqb].
    + split; [|reflexivity]. intros _. repeat split; [discriminate].
    + split; [discriminate | intros (_ & _ & H); discriminate].
  - intros userLocation saved allRestaurants cache out Hc Hout.
    destruct (RecsPage_fetch_sorted _ _ _ _ _ Hc Hout) as (sorted & Hperm & ->).
    apply first_twenty_of_new, Hperm.
Qed.

Lemma saved_places_are_never_recommended_witness :
  (forall s, In s [chainScored chainC; chainScored chainA; chainScored chainB] ->
             In (restaurant s) [chainA; chainB; chainC]
             /\ ~ In (id (restaurant s)) (map id chainSaved))
  /\ (MainPage.fetchRecommendations true chainSaved chainSaved = None
      <-> true = true /\ chainSaved <> [] /\ newRestaurants chainSaved chainSaved = []).
Proof.
  destruct saved_places_are_never_recommended as (Hmain & Hnone & _).
  split.
  - apply (Hmain true chainSaved [chainA; chainB; chainC]).
    vm_compute. reflexivity.
  - apply Hnone.
Defined.

(** ** The swipe deck *)

Lemma skipn_head {A} (l : list A) :
  forall (i : nat) (x : A),
    head (skipn i l) = Some x -> skipn i l = x :: skipn (S i) l.
Proof.
  induction l as [|y l IH]; intros [|i] x; cbn; try discriminate.
  - intros [= ->]. reflexivity.
  - intros H. apply IH in H. exact H.
Qed.

Lemma skipn_head_none {A} (l : list A) (i : nat) :
  head (skipn i l) = None -> skipn i l = [].
Proof. destruct (skipn i l); [reflexivity | discriminate]. Qed.

(** X21.  The card and the deck read a gesture alike.  The direction the card
    leaves in is the decision the deck takes, for every drag distance and
    velocity: right when the card was dragged more than 225 to the right, or
    flicked faster than 500 while right of the centre; left in the mirrored
    cases; and no decision when neither threshold is passed. *)
Theorem card_and_deck_agree_on_swipes (swipeDistance swipeVelocity : Q) :
  Home.handleDragEnd swipeDistance swipeVelocity
  = SwipeCard.exitDirection swipeDistance swipeVelocity
  /\ (Home.handleDragEnd swipeDistance swipeVelocity = Some Home.Right
      <-> 225 < swipeDistance \/ (500 < swipeVelocity /\ 0 < swipeDistance))
  /\ (Home.handleDragEnd swipeDistance swipeVelocity = Some Home.Left
      <-> swipeDistance < -225 \/ (swipeVelocity < -500 /\ swipeDistance < 0))
  /\ (Qabs swipeDistance <= 225 -> Qabs swipeVelocity <= 500 ->
      Home.handleDragEnd swipeDistance swipeVelocity = None).
Proof.
  unfold Home.handleDragEnd, SwipeCard.exitDirection, SwipeCard.isSwipeRight,
    SwipeCard.isSwipeLeft, Home.SWIPE_THRESHOLD, Home.SWIPE_VELOCITY_THRESHOLD.
  split; [|split; [|split]].
  - qcases; try reflexivity; lra.
  - qcases; split; intros H; try discriminate; try reflexivity; try lra.
  - qcases; split; intros H; try discriminate; try reflexivity; try lra.
  - intros Hd Hv.
    apply Qabs_Qle_condition in Hd. apply Qabs_Qle_condition in Hv.
    qcases; try reflexivity; lra.
Qed.

(** X22.  Every card is decided once, in the order of the deck.  After any run
    of decisions the index has moved past exactly the cards that met a
    decision, the history holds those cards with their decisions (latest
    first), the saved list holds the cards swiped right (latest first) in
    front of what was saved before, and decisions made after the last card
    change nothing. *)
Theorem deck_decides_each_card_once (directions : list Home.Direction) :
  forall d : Home.Deck,
    Home.restaurants (decideAll directions d) = Home.restaurants d
    /\ Home.activeIndex (decideAll directions d)
       = (Home.activeIndex d + length (decided directions d))%nat
    /\ Home.swipedRestaurants (decideAll directions d)
       = (rev (decided directions d) ++ Home.swipedRestaurants d)%list
    /\ Home.saved (decideAll directions d)
       = (rev (map fst (List.filter (fun p => isRight (snd p)) (decided directions d)))
            ++ Home.saved d)%list
    /\ (Home.currentStore d = None -> decideAll directions d = d).
Proof.
  unfold decided.
  induction directions as [|direction rest IH]; intros d.
  - rewrite combine_nil. cbn. repeat split; try reflexivity. lia.
  - cbn [decideAll fold_left]. fold (decideAll rest (fst (Home.handleDecision direction d))).
    specialize (IH (fst (Home.handleDecision direction d))).
    unfold Home.handleDecision in *. unfold Home.currentStore in *.
    destruct (head (skipn (Home.activeIndex d) (Home.restaurants d))) as [store|] eqn:Hcur.
    + apply skipn_head in Hcur. cbv zeta in IH. cbn [fst] in IH.
      cbn [Home.restaurants Home.activeIndex Home.swipedRestaurants Home.saved] in IH.
      destruct IH as (Hr & Hi & Hs & Hsaved & _).
      rewrite Hcur. cbn [combine length rev map List.filter snd fst].
      split; [exact Hr|]. split; [rewrite Hi; lia|].
      split; [rewrite Hs, <- app_assoc; reflexivity|].
      split; [|discriminate].
      rewrite Hsaved. destruct direction; cbn [isRight rev map fst];
        rewrite <- ?app_assoc; reflexivity.
    + cbn [fst] in IH. destruct IH as (Hr & Hi & Hs & Hsaved & Hsame).
      cbn [fst]. rewrite (Hsame Hcur).
      apply skipn_head_none in Hcur. rewrite Hcur. cbn.
      repeat split; try reflexivity. lia.
Qed.

(** X23.  Recommendations are refreshed at most once per ten decided cards.  The
    counter of the deck counts the decided cards modulo ten; a refresh is
    scheduled only when it wraps, and then only if a location is known and
    something is saved by that decision (the counter wraps all the same).
    Once something is saved and the location is known, it is scheduled on
    every wrap. *)
Theorem recommendations_refresh_every_tenth_card (directions : list Home.Direction) :
  forall d : Home.Deck,
    (Home.swipeCount d < 10)%nat ->
    Home.swipeCount (decideAll directions d)
    = ((Home.swipeCount d + length (decided directions d)) mod 10)%nat
    /\ (length (List.filter isRefresh (timersOfAll directions d))
        <= (Home.swipeCount d + length (decided directions d)) / 10)%nat
    /\ (Home.userLocation d = true -> Home.saved d <> [] ->
        length (List.filter isRefresh (timersOfAll directions d))
        = ((Home.swipeCount d + length (decided directions d)) / 10)%nat)
    /\ (Home.userLocation d = false ->
        List.filter isRefresh (timersOfAll directions d) = []).
Proof.
  unfold decided.
  induction directions as [|direction rest IH]; intros d Hcount.
  - rewrite combine_nil. cbn [decideAll fold_left timersOfAll List.filter length].
    rewrite Nat.add_0_r, Nat.mod_small, Nat.div_small by lia.
    repeat split; reflexivity || lia.
  - cbn [decideAll fold_left timersOfAll].
    fold (decideAll rest (fst (Home.handleDecision direction d))).
    specialize (IH (fst (Home.handleDecision direction d))).
    unfold Home.handleDecision in *. unfold Home.currentStore in *.
    destruct (head (skipn (Home.activeIndex d) (Home.restaurants d))) as [store|] eqn:Hcur.
    + apply skipn_head in Hcur. cbv zeta in IH. cbn [fst snd] in IH |- *.
      cbn [Home.restaurants Home.activeIndex Home.swipeCount Home.userLocation
           Home.saved] in IH.
      rewrite Hcur. cbn [combine length].
      set (n := length (combine (skipn (S (Home.activeIndex d)) (Home.restaurants d)) rest))
        in *.
      rewrite !List.filter_app, !length_app.
      assert (List.filter isRefresh
                (if isRight direction then [Home.HideCheckmark 600] else []) = [])
        as Hcheck by (destruct direction; reflexivity).
      replace (match direction with Home.Left => false | Home.Right => true end)
        with (isRight direction) in * by (destruct direction; reflexivity).
      rewrite Hcheck. cbn [length Nat.add].
      destruct (Nat.eq_dec (Home.swipeCount d) 9%nat) as [H9|H9].
      * rewrite H9 in *. cbn [Nat.leb] in IH |- *.
        destruct IH as (Hc & Hle & Heq & Hnone); [lia|].
        cbn [Nat.add] in Hc, Hle, Heq.
        replace (9 + S n)%nat with (n + 1 * 10)%nat by lia.
        rewrite Nat.Div0.mod_add, Nat.div_add by lia.
        split; [exact Hc|].
        split; [destruct (_ && _); cbn [List.filter isRefresh length]; lia|].
        split.
        -- intros Hloc Hsaved. rewrite Hloc in Heq |- *. cbn [andb].
           assert ((0 <? (if isRight direction then S (length (Home.saved d))
                          else length (Home.saved d)))%nat = true) as ->.
           { apply Nat.ltb_lt. destruct (Home.saved d); [congruence|].
             destruct (isRight direction); cbn [length]; lia. }
           cbn [List.filter isRefresh length].
           rewrite Heq; [lia | reflexivity|].
           destruct (isRight direction); [discriminate | exact Hsaved].
        -- intros Hloc. rewrite Hloc in Hnone |- *. cbn [andb List.filter app].
           apply Hnone. reflexivity.
      * assert ((10 <=? S (Home.swipeCount d))%nat = false) as Hlt
          by (apply Nat.leb_gt; lia).
        rewrite Hlt in *. cbn [andb List.filter length Nat.add].
        destruct IH as (Hc & Hle & Heq & Hnone); [lia|].
        replace (Home.swipeCount d + S n)%nat with (S (Home.swipeCount d) + n)%nat
          by lia.
        split; [exact Hc|]. split; [exact Hle|].
        split; [|exact Hnone].
        intros Hloc Hsaved. apply Heq; [exact Hloc|].
        destruct (isRight direction); [discriminate | exact Hsaved].
    + cbn [fst snd] in IH |- *. apply skipn_head_none in Hcur.
      rewrite Hcur in *. cbn [combine length app] in IH |- *.
      apply IH, Hcount.
Qed.

Lemma recommendations_refresh_every_tenth_card_witness :
  Home.swipeCount (decideAll [Home.Right; Home.Left; Home.Right] sampleDeck) = 1%nat
  /\ length (List.filter isRefresh
               (timersOfAll [Home.Right; Home.Left; Home.Right] sampleDeck))
     = 1%nat.
Proof.
  destruct (recommendations_refresh_every_tenth_card
              [Home.Right; Home.Left; Home.Right] sampleDeck)
    as (Hcount & Hle & _ & _).
  - vm_compute. lia.
  - split; [exact Hcount|]. vm_compute in Hle |- *. reflexivity.
Defined.

Lemma filter_truthy_all (urls : list string) :
  Forall (fun u => JS.falsy u = false) urls ->
  List.filter (fun u => negb (JS.falsy u)) urls = urls.
Proof.
  induction 1 as [|u urls Hu _ IH]; [reflexivity|].
  cbn. rewrite Hu. cbn. f_equal. exact IH.
Qed.

(** X24.  The card shows every photo of an enrichment.  For the restaurant the
    route builds from a place and its enrichment, the photos the card pages
    through are the cover followed by the whole gallery: none is empty, none
    is cut off, and there are at most four. *)
Theorem card_shows_every_photo_of_an_enrichment (engine : JSNumber.Engine)
    (w : Api.World) (params : Api.Params) (h : list Api.Event)
    (meters : Num) (place : Route.GooglePlace) (plat plon : Q) :
  SwipeCard.photos
    (Route.image (Route.storeOf engine meters place plat plon
                    (fst (Api.getOrCachePlacePhotos w params h))))
    (Some (Route.gallery (Route.storeOf engine meters place plat plon
                            (fst (Api.getOrCachePlacePhotos w params h)))))
  = Api.cover (fst (Api.getOrCachePlacePhotos w params h))
      :: Api.gallery (fst (Api.getOrCachePlacePhotos w params h))
  /\ (length (Api.cover (fst (Api.getOrCachePlacePhotos w params h))
                :: Api.gallery (fst (Api.getOrCachePlacePhotos w params h))) <= 4)%nat.
Proof.
  destruct (getOrCachePlacePhotos_presentable w params h) as (Hcover & Hlen & Hall).
  cbn [Route.storeOf Route.image Route.gallery].
  unfold SwipeCard.photos, slice0. cbn [default].
  split; [|cbn [length]; lia].
  rewrite firstn_all2 by exact Hlen.
  cbn [List.filter]. rewrite Hcover. cbn [negb].
  rewrite filter_truthy_all by exact Hall. reflexivity.
Qed.

(** *** The distance on the card *)




